(** * AshInv/Plot.py: field reconstruction, pruning and adaptive downsampling

    A shallow embedding of [src/AshInv/Plot.py]:
    - [expandVariable] (lines 108-116) and the pruning block of [readJson]
      (lines 89-102);
    - [downsample] with its local functions [prime_factors],
      [find_downsample_factor] and [rebin] (lines 293-338);
    - the matrix handling of [plotAshInvMatrix] (lines 348-357);
    - of [plotAshInv], the unit conversion (lines 147-159) and the ticks
      and labels (lines 206-215); of [makePlotFromJson], the choice of the
      writer (lines 44-49).

    Python integers are [Z]; array shapes and loop indices, which are never
    negative, are [nat].  Floating point cells are kept abstract: every
    definition is parametric in a type [V] with the operations the code uses
    ([FloatOps]), so the theorems hold for any interpretation of the float
    operations, NaN included.  The true division [shape / (factor*f)] of
    two Python integers gives a float: the quotient rounded to binary64
    ([round_binary64]); such a float is a rational, and its comparison with
    the target is exact, in [Q].  A NumPy masked array is an array of
    [option V] cells, [None] being a masked cell. *)

From Stdlib Require Import ZArith QArith Znumtheory Lia Ascii.
From stdpp Require Import base option list sorting gmap strings.

Local Open Scope nat_scope.

(** ** Outcomes of Python code *)

Inductive exn : Type :=
  | IndexError
  | ValueError
  | ZeroDivisionError
  | TypeError.

(** [Ok] is a normal return and [Raise] an uncaught exception.  [OutOfFuel]
    is not a Python outcome: it is what a [while] loop of the model gives
    when its iteration budget is used up (see [prime_factors_loop]). *)
Inductive result (A : Type) : Type :=
  | Ok (a : A)
  | Raise (e : exn)
  | OutOfFuel.
Arguments Ok {A} a.
Arguments Raise {A} e.
Arguments OutOfFuel {A}.

#[global] Instance result_ret : MRet result := fun A a => Ok a.
#[global] Instance result_bind : MBind result := fun A B f m =>
  match m with
  | Ok a => f a
  | Raise e => Raise e
  | OutOfFuel => OutOfFuel
  end.
#[global] Instance result_fmap : FMap result := fun A B f m =>
  match m with
  | Ok a => Ok (f a)
  | Raise e => Raise e
  | OutOfFuel => OutOfFuel
  end.

(** [for i in l: s = body(i, s)], stopping at the first exception. *)
Fixpoint for_in {I S : Type} (l : list I) (body : I -> S -> result S) (s : S)
  : result S :=
  match l with
  | [] => Ok s
  | i :: l' => s' ← body i s; for_in l' body s'
  end.

(** [range(n)] *)
Definition range (n : nat) : list nat := seq 0 n.

(** ** Floating point operations used by the code *)

Class FloatOps (V : Type) : Type := {
  fzero : V;                      (* the literal [0.0] *)
  fadd : V -> V -> V;             (* [x + y] *)
  fgt : V -> V -> bool;           (* [x > y] *)
  flt : V -> V -> bool;           (* [x < y] *)
  fle : V -> V -> bool;           (* [x <= y] *)
  fmaximum : V -> V -> V;         (* the binary step of a [max] reduction *)
  fminimum : V -> V -> V;         (* the binary step of a [min] reduction *)
  fmean : list V -> V;            (* [mean] of one block *)
  fmedian : list V -> V           (* [np.median] of one block *)
}.

(** ** Two-dimensional arrays *)

(** A NumPy array of two dimensions: its [shape] and its rows.  The shape is
    kept apart from the rows so that [(0, T)] and [(A, 0)] arrays are
    told apart. *)
Record ndarray (X : Type) : Type := mk_ndarray {
  shape0 : nat;
  shape1 : nat;
  rows : list (list X)
}.
Arguments mk_ndarray {X} shape0 shape1 rows.
Arguments shape0 {X} n.
Arguments shape1 {X} n.
Arguments rows {X} n.

Definition wf_ndarray {X : Type} (m : ndarray X) : Prop :=
  length (rows m) = shape0 m /\ Forall (fun r => length r = shape1 m) (rows m).

(** [m[a, t]] read as an optional cell (no exception) *)
Definition cell {X : Type} (m : ndarray X) (a t : nat) : option X :=
  rows m !! a ≫= fun r => r !! t.

(** [m[a, t]] for non-negative integers [a], [t] *)
Definition getitem2 {X : Type} (m : ndarray X) (a t : nat) : result X :=
  if (a <? shape0 m) && (t <? shape1 m) then
    match cell m a t with
    | Some x => Ok x
    | None => Raise IndexError
    end
  else Raise IndexError.

(** [m[a, t] = x] for non-negative integers [a], [t] *)
Definition setitem2 {X : Type} (m : ndarray X) (a t : nat) (x : X)
  : result (ndarray X) :=
  if (a <? shape0 m) && (t <? shape1 m) then
    match rows m !! a with
    | Some r => Ok (mk_ndarray (shape0 m) (shape1 m) (<[a := <[t := x]> r]> (rows m)))
    | None => Raise IndexError
    end
  else Raise IndexError.

(** [v[i]] on a one-dimensional array, for any integer [i]: a negative
    index counts from the end. *)
Definition getitem1 {X : Type} (v : list X) (i : Z) : result X :=
  let n := Z.of_nat (length v) in
  let j := if (i <? 0)%Z then (i + n)%Z else i in
  if (0 <=? j)%Z && (j <? n)%Z then
    match v !! Z.to_nat j with
    | Some x => Ok x
    | None => Raise IndexError
    end
  else Raise IndexError.

(** [np.ma.masked_all(shape)] *)
Definition masked_all {V : Type} (shape : nat * nat) : ndarray (option V) :=
  mk_ndarray shape.1 shape.2 (replicate shape.1 (replicate shape.2 None)).

(** ** expandVariable (lines 108-116) *)

Definition expandVariable {T H V : Type}
    (emission_times : list T) (level_heights : list H)
    (ordering_index : ndarray Z) (variable : list V)
  : result (ndarray (option V)) :=
  let x := masked_all (shape0 ordering_index, shape1 ordering_index) in
  for_in (range (length emission_times)) (fun t x =>
    for_in (range (length level_heights)) (fun a x =>
      emis_index ← getitem2 ordering_index a t;
      if (emis_index >=? 0)%Z then
        v ← getitem1 variable emis_index;
        setitem2 x a t (Some v)
      else Ok x) x) x.

(** ** Masked reductions and Python sequence helpers *)

(** the cells of a lane that are not masked *)
Definition unmasked {V : Type} (l : list (option V)) : list V := omap id l.

(** [MaskedArray.max] along one lane: NumPy fills the masked cells with the
    identity of [max] and marks the result masked when every cell is; the
    model reduces the unmasked cells, from the left. *)
Definition ma_max_lane `{FloatOps V} (l : list (option V)) : option V :=
  match unmasked l with
  | [] => None
  | v :: vs => Some (foldl fmaximum v vs)
  end.

(** column [t] of a matrix *)
Definition column {X : Type} (m : ndarray X) (t : nat) : list X :=
  omap (fun r => r !! t) (rows m).

(** [m.max(axis=1)]: one value per row; a reduction over an axis of length
    zero raises [ValueError]. *)
Definition ma_max_axis1 `{FloatOps V} (m : ndarray (option V))
  : result (list (option V)) :=
  if shape1 m =? 0 then Raise ValueError
  else Ok (map ma_max_lane (rows m)).

(** [m.max(axis=0)]: one value per column *)
Definition ma_max_axis0 `{FloatOps V} (m : ndarray (option V))
  : result (list (option V)) :=
  if shape0 m =? 0 then Raise ValueError
  else Ok (map (fun t => ma_max_lane (column m t)) (range (shape1 m))).

(** [x + y] on masked cells: masked when either operand is *)
Definition ma_add `{FloatOps V} (x y : option V) : option V :=
  match x, y with
  | Some a, Some b => Some (fadd a b)
  | _, _ => None
  end.

(** [xs + ys] on one-dimensional masked arrays, with NumPy's broadcasting
    of a length-one operand *)
Definition ma_add_arrays `{FloatOps V} (xs ys : list (option V))
  : result (list (option V)) :=
  if length xs =? length ys then Ok (zip_with ma_add xs ys)
  else match xs, ys with
       | [x], _ => Ok (map (ma_add x) ys)
       | _, [y] => Ok (map (fun x => ma_add x y) xs)
       | _, _ => Raise ValueError
       end.

(** [xs > y]: a masked array of booleans *)
Definition ma_gt `{FloatOps V} (xs : list (option V)) (y : V)
  : list (option bool) :=
  map (fun x => (fun v => fgt v y) <$> x) xs.

Fixpoint nonzero_from (i : nat) (bs : list bool) : list nat :=
  match bs with
  | [] => []
  | b :: bs' => if b then i :: nonzero_from (S i) bs' else nonzero_from (S i) bs'
  end.

(** [np.flatnonzero(xs)] on a masked boolean array: [MaskedArray.nonzero]
    works on [xs.filled(0)], so a masked cell counts as [False]. *)
Definition flatnonzero (xs : list (option bool)) : list nat :=
  nonzero_from 0 (map (default false) xs).

(** the builtins [max(seq)] and [min(seq)]: [ValueError] on an empty
    sequence *)
Definition py_max (l : list nat) : result nat :=
  match l with
  | [] => Raise ValueError
  | x :: l' => Ok (foldl Nat.max x l')
  end.

Definition py_min (l : list nat) : result nat :=
  match l with
  | [] => Raise ValueError
  | x :: l' => Ok (foldl Nat.min x l')
  end.

(** Bounds of the slice [start:stop] on an axis of length [len]; [None] is
    an omitted bound, a negative bound counts from the end, and both are
    clamped to the axis. *)
Definition slice_adjust (len : nat) (i : Z) : nat :=
  if (i <? 0)%Z then Z.to_nat (Z.max 0 (i + Z.of_nat len))
  else Z.to_nat (Z.min i (Z.of_nat len)).

Definition slice_bounds (len : nat) (start stop : option Z) : nat * nat :=
  (from_option (slice_adjust len) 0 start,
   from_option (slice_adjust len) len stop).

(** [l[start:stop]] *)
Definition py_slice {X : Type} (start stop : option Z) (l : list X) : list X :=
  let b := slice_bounds (length l) start stop in
  take (b.2 - b.1) (drop b.1 l).

(** [m[:stop0, start1:stop1]] *)
Definition slice2 {X : Type} (m : ndarray X) (stop0 start1 stop1 : option Z)
  : ndarray X :=
  let b0 := slice_bounds (shape0 m) None stop0 in
  let b1 := slice_bounds (shape1 m) start1 stop1 in
  mk_ndarray (b0.2 - b0.1) (b1.2 - b1.1)
    (map (fun r => take (b1.2 - b1.1) (drop b1.1 r))
         (take (b0.2 - b0.1) (drop b0.1 (rows m)))).

(** ** readJson: the parsed record and its pruning (lines 85-104) *)

(** The entries of [json_data] the reconstruction works on, after the
    expansion of line 86-87.  Timestamps ([datetime64[ns]]) are integers. *)
Record json_data (V : Type) : Type := mk_json_data {
  emission_times : list Z;
  level_heights : list V;
  ordering_index : ndarray Z;
  a_priori : ndarray (option V);
  a_posteriori : ndarray (option V)
}.
Arguments mk_json_data {V} _ _ _ _ _.
Arguments emission_times {V} j.
Arguments level_heights {V} j.
Arguments ordering_index {V} j.
Arguments a_priori {V} j.
Arguments a_posteriori {V} j.

(** The local variables of the pruning block. *)
Record prune_bounds : Type := mk_prune_bounds {
  valid_elevations : nat;
  valid_times_min : Z;
  valid_times_max : Z
}.

(** the boolean array of line 91: row-wise criterion *)
Definition row_mask `{FloatOps V} (jd : json_data V) (prune_zero : V)
  : result (list (option bool)) :=
  pri ← ma_max_axis1 (a_priori jd);
  post ← ma_max_axis1 (a_posteriori jd);
  s ← ma_add_arrays pri post;
  Ok (ma_gt s prune_zero).

(** the boolean array of line 92: column-wise criterion *)
Definition col_mask `{FloatOps V} (jd : json_data V) (prune_zero : V)
  : result (list (option bool)) :=
  pri ← ma_max_axis0 (a_priori jd);
  post ← ma_max_axis0 (a_posteriori jd);
  s ← ma_add_arrays pri post;
  Ok (ma_gt s prune_zero).

(** lines 91-96 *)
Definition readJson_bounds `{FloatOps V} (jd : json_data V) (prune_zero : V)
    (valid_times_min valid_times_max : option Z) : result prune_bounds :=
  rmask ← row_mask jd prune_zero;
  last ← py_max (flatnonzero rmask);
  let valid_elevations := last + 1 in
  cmask ← col_mask jd prune_zero;
  let valid_times := flatnonzero cmask in
  vmin ← match valid_times_min with
         | None => Z.of_nat <$> py_min valid_times
         | Some v => Ok v
         end;
  vmax ← match valid_times_max with
         | None => (fun m => Z.of_nat (m + 1)) <$> py_max valid_times
         | Some v => Ok v
         end;
  Ok (mk_prune_bounds valid_elevations vmin vmax).

(** lines 98-102 *)
Definition readJson_crop {V : Type} (jd : json_data V) (b : prune_bounds)
  : json_data V :=
  let ve := Some (Z.of_nat (valid_elevations b)) in
  let lo := Some (valid_times_min b) in
  let hi := Some (valid_times_max b) in
  mk_json_data
    (py_slice lo hi (emission_times jd))
    (py_slice None ve (level_heights jd))
    (slice2 (ordering_index jd) ve lo hi)
    (slice2 (a_priori jd) ve lo hi)
    (slice2 (a_posteriori jd) ve lo hi).

(** lines 90-102: the pruning block, on the expanded fields *)
Definition readJson_prune `{FloatOps V} (jd : json_data V) (prune_zero : V)
    (valid_times_min valid_times_max : option Z) : result (json_data V) :=
  b ← readJson_bounds jd prune_zero valid_times_min valid_times_max;
  Ok (readJson_crop jd b).

(** lines 85-104 of [readJson], from the parsed arrays on: both variables
    are expanded over the same ordering index, then pruned. *)
Definition readJson `{FloatOps V}
    (emission_times : list Z) (level_heights : list V)
    (ordering_index : ndarray Z) (a_priori_2d a_posteriori_2d : list V)
    (prune : bool) (prune_zero : V)
    (valid_times_min valid_times_max : option Z) : result (json_data V) :=
  post ← expandVariable emission_times level_heights ordering_index a_posteriori_2d;
  pri ← expandVariable emission_times level_heights ordering_index a_priori_2d;
  let jd := mk_json_data emission_times level_heights ordering_index pri post in
  if prune then readJson_prune jd prune_zero valid_times_min valid_times_max
  else Ok jd.

(** ** downsample (lines 293-338) *)

(** [a // b] and [a % b] on Python integers *)
Definition py_floordiv (a b : Z) : result Z :=
  if (b =? 0)%Z then Raise ZeroDivisionError else Ok (a / b)%Z.

Definition py_mod (a b : Z) : result Z :=
  if (b =? 0)%Z then Raise ZeroDivisionError else Ok (a mod b)%Z.

(** *** Binary64 rounding

    A Python [float] is an IEEE 754 binary64 number.  A finite one is a
    rational, and the result of an operation is the exact result rounded to
    53 significant bits, to nearest with ties to even.  The exponent range
    is not represented: the quotients rounded here are quotients of axis
    lengths (below 2^63 in NumPy) and of nanosecond counts (64 bits), far
    inside the range of binary64. *)

(** the integer nearest to [n / d] for [d > 0], ties to the even one *)
Definition round_half_even (n d : Z) : Z :=
  let q := (n / d)%Z in
  match (2 * (n mod d) ?= d)%Z with
  | Lt => q
  | Gt => (q + 1)%Z
  | Eq => if Z.even q then q else (q + 1)%Z
  end.

(** [floor (log2 (n / d))] for [n, d > 0] *)
Definition floor_log2 (n d : Z) : Z :=
  if (d <=? n)%Z then Z.log2 (n / d)
  else (- Z.log2_up ((d + n - 1) / n))%Z.

(** [n / d] rounded to 53 significant bits, for [n, d > 0]: with
    [2^e0 <= n / d < 2^(e0+1)] the result is a multiple of [2^(e0-52)] *)
Definition round_binary64_pos (n d : Z) : Q :=
  let e := (floor_log2 n d - 52)%Z in
  if (0 <=? e)%Z
  then inject_Z (round_half_even n (d * 2 ^ e) * 2 ^ e)
  else Qmake (round_half_even (n * 2 ^ (- e)) d) (Z.to_pos (2 ^ (- e))).

Definition round_binary64 (x : Q) : Q :=
  match Qnum x with
  | Z0 => 0%Q
  | Zpos n => round_binary64_pos (Zpos n) (QDen x)
  | Zneg n => (- round_binary64_pos (Zpos n) (QDen x))%Q
  end.

(** the float that [a / b] evaluates to, for Python integers [a] and
    [b <> 0]: CPython rounds the exact quotient once *)
Definition float_quot (a b : Z) : Q := round_binary64 (inject_Z a / inject_Z b)%Q.

(** [a / b] on Python integers *)
Definition py_truediv (a b : Z) : result Q :=
  if (b =? 0)%Z then Raise ZeroDivisionError
  else Ok (float_quot a b).

(** [x > y] *)
Definition Qgt_bool (x y : Q) : bool := negb (Qle_bool x y).

(** The [while i * i <= n] loop of [prime_factors] (lines 300-305); [fuel]
    bounds the number of iterations. *)
Fixpoint prime_factors_loop (fuel : nat) (i n : Z) (factors : list Z)
  : result (Z * list Z) :=
  match fuel with
  | O => OutOfFuel
  | S fuel' =>
      if (i * i <=? n)%Z then
        r ← py_mod n i;
        if negb (r =? 0)%Z then prime_factors_loop fuel' (i + 1)%Z n factors
        else
          q ← py_floordiv n i;
          prime_factors_loop fuel' i q (factors ++ [i])
      else Ok (n, factors)
  end.

(** [prime_factors(n)] (lines 296-308) *)
Definition prime_factors (n : Z) : result (list Z) :=
  '(n', factors) ← prime_factors_loop (Z.to_nat (2 * n) + 1) 2 n [];
  Ok (if (n' >? 1)%Z then factors ++ [n'] else factors).

(** The [for f in factors] loop of [find_downsample_factor] (lines
    314-318), with its [break]. *)
Fixpoint find_downsample_factor_loop (shape : Z) (output : Q)
    (factors : list Z) (factor : Z) : result Z :=
  match factors with
  | [] => Ok factor
  | f :: factors' =>
      q ← py_truediv shape (factor * f);
      if Qgt_bool q output
      then find_downsample_factor_loop shape output factors' (factor * f)%Z
      else Ok factor
  end.

(** [find_downsample_factor(shape, output)] (lines 310-319) *)
Definition find_downsample_factor (shape : Z) (output : Q) : result Z :=
  factors ← prime_factors shape;
  find_downsample_factor_loop shape output factors 1.

(** An array reshaped to four dimensions [(n0, b0, n1, b1)]: the
    dimensions and the cells in C order. *)
Record ndarray4 (X : Type) : Type := mk_ndarray4 {
  dim_n0 : nat;
  dim_b0 : nat;
  dim_n1 : nat;
  dim_b1 : nat;
  flat : list X
}.
Arguments mk_ndarray4 {X} _ _ _ _ _.
Arguments dim_n0 {X} n.
Arguments dim_b0 {X} n.
Arguments dim_n1 {X} n.
Arguments dim_b1 {X} n.
Arguments flat {X} n.

(** [arr.reshape(shape)]: the sizes must agree.  (A dimension of [-1]
    would be inferred by NumPy; the dimensions here are quotients of
    non-negative integers.) *)
Definition reshape4 {X : Type} (arr : ndarray X) (shape : Z * Z * Z * Z)
  : result (ndarray4 X) :=
  let '(n0, b0, n1, b1) := shape in
  if (0 <=? n0)%Z && (0 <=? b0)%Z && (0 <=? n1)%Z && (0 <=? b1)%Z
     && (n0 * b0 * n1 * b1 =? Z.of_nat (shape0 arr * shape1 arr))%Z
  then Ok (mk_ndarray4 (Z.to_nat n0) (Z.to_nat b0) (Z.to_nat n1) (Z.to_nat b1)
             (concat (rows arr)))
  else Raise ValueError.

(** the cells [x[i, r, j, :]] *)
Definition lane4 {X : Type} (x : ndarray4 X) (i r j : nat) : list X :=
  omap (fun c => flat x !! (((i * dim_b0 x + r) * dim_n1 x + j) * dim_b1 x + c))
       (range (dim_b1 x)).

Fixpoint mapM_result {A B : Type} (f : A -> result B) (l : list A)
  : result (list B) :=
  match l with
  | [] => Ok []
  | a :: l' => b ← f a; bs ← mapM_result f l'; Ok (b :: bs)
  end.

(** [red(red(x, axis=-1), axis=1)]: each block [(i, j)] is reduced along
    its columns, then along its rows. *)
Definition reduce_blocks {X : Type} (red : list X -> result X) (x : ndarray4 X)
  : result (ndarray X) :=
  rs ← mapM_result (fun i =>
          mapM_result (fun j =>
            inner ← mapM_result (fun r => red (lane4 x i r j)) (range (dim_b0 x));
            red inner) (range (dim_n1 x))) (range (dim_n0 x));
  Ok (mk_ndarray (dim_n0 x) (dim_n1 x) rs).

(** the four reductions; [max] and [min] of an empty lane raise *)
Definition red_mean `{FloatOps V} (l : list V) : result V := Ok (fmean l).
Definition red_median `{FloatOps V} (l : list V) : result V := Ok (fmedian l).
Definition red_max `{FloatOps V} (l : list V) : result V :=
  match l with
  | [] => Raise ValueError
  | v :: vs => Ok (foldl fmaximum v vs)
  end.
Definition red_min `{FloatOps V} (l : list V) : result V :=
  match l with
  | [] => Raise ValueError
  | v :: vs => Ok (foldl fminimum v vs)
  end.

(** the test of line 323 *)
Definition rebin_needed {X : Type} (arr : ndarray X) (new_shape : Z * Z) : bool :=
  (new_shape.1 <? Z.of_nat (shape0 arr))%Z || (new_shape.2 <? Z.of_nat (shape1 arr))%Z.

(** Lines 324-333 of [rebin]: the branch taken when an axis shrinks.  The
    Python value [None] is [None]: the [if]/[elif] chain has no [else]. *)
Definition rebin_reduce `{FloatOps V} (arr : ndarray V) (new_shape : Z * Z)
    (rebin_type : string) : result (option (ndarray V)) :=
  b0 ← py_floordiv (Z.of_nat (shape0 arr)) new_shape.1;
  b1 ← py_floordiv (Z.of_nat (shape1 arr)) new_shape.2;
  let shape := (new_shape.1, b0, new_shape.2, b1) in
  if String.eqb rebin_type "mean" then
    x ← reshape4 arr shape; Some <$> reduce_blocks red_mean x
  else if String.eqb rebin_type "median" then
    x ← reshape4 arr shape; Some <$> reduce_blocks red_median x
  else if String.eqb rebin_type "max" then
    x ← reshape4 arr shape; Some <$> reduce_blocks red_max x
  else if String.eqb rebin_type "min" then
    x ← reshape4 arr shape; Some <$> reduce_blocks red_min x
  else Ok None.

(** [rebin(arr, new_shape, rebin_type)] (lines 321-335), as a value *)
Definition rebin `{FloatOps V} (arr : ndarray V) (new_shape : Z * Z)
    (rebin_type : string) : result (option (ndarray V)) :=
  if rebin_needed arr new_shape then rebin_reduce arr new_shape rebin_type
  else Ok (Some arr).

(** [target_size] of line 337 *)
Definition target_size {X : Type} (arr : ndarray X) (target : Q * Q)
  : result (Z * Z) :=
  f0 ← find_downsample_factor (Z.of_nat (shape0 arr)) target.1;
  n0 ← py_floordiv (Z.of_nat (shape0 arr)) f0;
  f1 ← find_downsample_factor (Z.of_nat (shape1 arr)) target.2;
  n1 ← py_floordiv (Z.of_nat (shape1 arr)) f1;
  Ok (n0, n1).

(** [downsample(arr, target, rebin_type)], as a value *)
Definition downsample `{FloatOps V} (arr : ndarray V) (target : Q * Q)
    (rebin_type : string) : result (option (ndarray V)) :=
  new_shape ← target_size arr target;
  rebin arr new_shape rebin_type.

(** ** Object identity: downsample and plotAshInvMatrix on a store

    Arrays are objects; a variable holds a reference into the store.  A
    reduction allocates its result, [return arr] hands the argument's own
    reference back, and [m[m<0] = 0.0] writes through the reference. *)

Definition loc : Type := nat.
Abbreviation store V := (gmap loc (ndarray V)) (only parsing).

Definition alloc {V : Type} (σ : store V) (a : ndarray V) : loc * store V :=
  let l := fresh (dom σ) in (l, <[l := a]> σ).

(** [rebin] on references.  [None] (the outer option) is a dangling
    argument, which no Python program has. *)
Definition rebin_st `{FloatOps V} (σ : store V) (arr : loc) (new_shape : Z * Z)
    (rebin_type : string) : option (result (option loc) * store V) :=
  a ← σ !! arr;
  Some (if rebin_needed a new_shape then
          match rebin_reduce a new_shape rebin_type with
          | Ok (Some out) => let '(l, σ') := alloc σ out in (Ok (Some l), σ')
          | Ok None => (Ok None, σ)
          | Raise e => (Raise e, σ)
          | OutOfFuel => (OutOfFuel, σ)
          end
        else (Ok (Some arr), σ)).

Definition downsample_st `{FloatOps V} (σ : store V) (arr : loc) (target : Q * Q)
    (rebin_type : string) : option (result (option loc) * store V) :=
  a ← σ !! arr;
  match target_size a target with
  | Ok new_shape => rebin_st σ arr new_shape rebin_type
  | Raise e => Some (Raise e, σ)
  | OutOfFuel => Some (OutOfFuel, σ)
  end.

(** [m[m<0] = 0.0] on the cells of one array *)
Definition clamp_negative `{FloatOps V} (a : ndarray V) : ndarray V :=
  mk_ndarray (shape0 a) (shape1 a)
    (map (map (fun v => if flt v fzero then fzero else v)) (rows a)).

(** Lines 348-357 of [plotAshInvMatrix]: the array handed to [imshow].
    [matrix.min()] on an array without cells raises [ValueError]; indexing
    [None] raises [TypeError]. *)
Definition plotAshInvMatrix_st `{FloatOps V} (σ : store V) (matrix : loc)
    (fig_size : Q * Q) (do_downsample : bool) (rebin_type : string)
  : option (result loc * store V) :=
  a ← σ !! matrix;
  if shape0 a * shape1 a =? 0 then Some (Raise ValueError, σ)
  else
    '(m, σ1) ← (if do_downsample then downsample_st σ matrix fig_size rebin_type
                else Some (Ok (Some matrix), σ));
    match m with
    | Ok (Some l) =>
        am ← σ1 !! l;
        Some (Ok l, <[l := clamp_negative am]> σ1)
    | Ok None => Some (Raise TypeError, σ1)
    | Raise e => Some (Raise e, σ1)
    | OutOfFuel => Some (OutOfFuel, σ1)
    end.

(** ** An interpretation of the float operations: rationals *)

#[global] Instance Qle_decision (x y : Q) : Decision (x <= y)%Q.
Proof. unfold Qle. apply _. Defined.

Definition Qsum (l : list Q) : Q := foldl Qplus 0%Q l.

Definition Qmean (l : list Q) : Q := (Qsum l / inject_Z (Z.of_nat (length l)))%Q.

Definition Qmedian (l : list Q) : Q :=
  let s := merge_sort Qle l in
  let n := length s in
  if Nat.even n
  then ((nth (n / 2 - 1) s 0 + nth (n / 2) s 0) / 2)%Q
  else nth (n / 2) s 0%Q.

Definition Qmaximum (x y : Q) : Q := if Qle_bool x y then y else x.
Definition Qminimum (x y : Q) : Q := if Qle_bool x y then x else y.

#[global] Instance Q_FloatOps : FloatOps Q := {|
  fzero := 0%Q;
  fadd := Qplus;
  fgt := Qgt_bool;
  flt := fun x y => Qgt_bool y x;
  fle := Qle_bool;
  fmaximum := Qmaximum;
  fminimum := Qminimum;
  fmean := Qmean;
  fmedian := Qmedian
|}.

(** ** An interpretation with NaN

    A binary64 cell can be NaN: [json.loads] reads the literal [NaN], and
    [inf + -inf] is NaN.  Every comparison with NaN is false; arithmetic
    and the [max], [min], [mean] and [median] reductions propagate it. *)

Inductive Qnan : Type :=
  | Num (q : Q)
  | NaN.

Definition Qnan_op (f : Q -> Q -> Q) (x y : Qnan) : Qnan :=
  match x, y with
  | Num a, Num b => Num (f a b)
  | _, _ => NaN
  end.

Definition Qnan_cmp (f : Q -> Q -> bool) (x y : Qnan) : bool :=
  match x, y with
  | Num a, Num b => f a b
  | _, _ => false
  end.

Definition Qnan_reduce (f : list Q -> Q) (l : list Qnan) : Qnan :=
  match mapM (fun x => match x with Num q => Some q | NaN => None end) l with
  | Some qs => Num (f qs)
  | None => NaN
  end.

#[global] Instance Qnan_FloatOps : FloatOps Qnan := {|
  fzero := Num 0;
  fadd := Qnan_op Qplus;
  fgt := Qnan_cmp Qgt_bool;
  flt := Qnan_cmp (fun x y => Qgt_bool y x);
  fle := Qnan_cmp Qle_bool;
  fmaximum := Qnan_op Qmaximum;
  fminimum := Qnan_op Qminimum;
  fmean := Qnan_reduce Qmean;
  fmedian := Qnan_reduce Qmedian
|}.

(** ** Specification vocabulary *)

(** What cell [(a, t)] of the expanded field holds when the loop body has
    run on it: [variable[ordering_index[a, t]]], or masked for a negative
    index. *)
Definition expand_value {V : Type} (ordering_index : ndarray Z)
    (variable : list V) (a t : nat) : option V :=
  i ← cell ordering_index a t;
  if (i >=? 0)%Z then variable !! Z.to_nat i else None.

(** [x] has the shape of the index table, holds [expand_value] on the cells
    selected by [P] and is masked elsewhere. *)
Definition filled_on {V : Type} (P : nat -> nat -> bool)
    (ordering_index : ndarray Z) (variable : list V)
    (x : ndarray (option V)) : Prop :=
  wf_ndarray x /\ shape0 x = shape0 ordering_index /\
  shape1 x = shape1 ordering_index /\
  forall a t, a < shape0 ordering_index -> t < shape1 ordering_index ->
    cell x a t = Some (if P a t then expand_value ordering_index variable a t
                       else None).

(** every index the loops read is in range of [variable] *)
Definition indices_in_range {V : Type} (ordering_index : ndarray Z)
    (variable : list V) (nA nT : nat) : Prop :=
  forall a t i, a < nA -> t < nT -> cell ordering_index a t = Some i ->
    (0 <= i)%Z -> (i < Z.of_nat (length variable))%Z.

(** The pruning criterion in the words of the specification: a lane (row
    or column) passes when [max(fieldA[lane]) + max(fieldB[lane]) >
    threshold].  A lane whose maximum is masked does not pass. *)
Definition lane_criterion `{FloatOps V} (la lb : list (option V))
    (threshold : V) : bool :=
  match ma_max_lane la, ma_max_lane lb with
  | Some a, Some b => fgt (fadd a b) threshold
  | _, _ => false
  end.

Definition row_passes `{FloatOps V} (fieldA fieldB : ndarray (option V))
    (threshold : V) (r : nat) : bool :=
  match rows fieldA !! r, rows fieldB !! r with
  | Some la, Some lb => lane_criterion la lb threshold
  | _, _ => false
  end.

Definition col_passes `{FloatOps V} (fieldA fieldB : ndarray (option V))
    (threshold : V) (t : nat) : bool :=
  lane_criterion (column fieldA t) (column fieldB t) threshold.

(** [max(A[lane]) + max(B[lane]) <= threshold], where both maxima exist *)
Definition lane_at_most `{FloatOps V} (la lb : list (option V))
    (threshold : V) : Prop :=
  forall a b, ma_max_lane la = Some a -> ma_max_lane lb = Some b ->
    fle (fadd a b) threshold = true.

(** the sum of the two maxima is ordered with the threshold: one of [>]
    and [<=] holds of them, as it does unless the sum is NaN *)
Definition lane_ordered `{FloatOps V} (la lb : list (option V))
    (threshold : V) : Prop :=
  forall a b, ma_max_lane la = Some a -> ma_max_lane lb = Some b ->
    fgt (fadd a b) threshold = true \/ fle (fadd a b) threshold = true.

(** the two fields of a record are arrays of one shape *)
Definition fields_wf {V : Type} (jd : json_data V) : Prop :=
  wf_ndarray (a_priori jd) /\ wf_ndarray (a_posteriori jd) /\
  shape0 (a_priori jd) = shape0 (a_posteriori jd) /\
  shape1 (a_priori jd) = shape1 (a_posteriori jd).

(** product of a list of integers *)
Definition Zprod (l : list Z) : Z := foldr Z.mul 1%Z l.

(** the exact quotient [a / b] *)
Definition Qquot (a b : Z) : Q := (inject_Z a / inject_Z b)%Q.

(** the recognised values of [rebin_type] *)
Definition known_rebin_type (rebin_type : string) : Prop :=
  rebin_type ∈ ["mean"; "median"; "max"; "min"].

(** the two axes of a matrix, and the component of a shape or target on
    an axis *)
Inductive axis : Type := Axis0 | Axis1.

Definition on_axis {A : Type} (ax : axis) (p : A * A) : A :=
  match ax with Axis0 => p.1 | Axis1 => p.2 end.

Definition shape {X : Type} (m : ndarray X) : nat * nat := (shape0 m, shape1 m).

(** The state of the trial division: [N] is the argument of
    [prime_factors]; the factors found so far are primes in ascending
    order, none above the trial divisor [i]; what is left of [N] has no
    divisor below [i]. *)
Definition pf_inv (N i n : Z) (factors : list Z) : Prop :=
  (1 <= n)%Z /\ (2 <= i)%Z /\ N = (Zprod factors * n)%Z /\
  Forall Z.prime factors /\ Forall (fun f => f <= i)%Z factors /\
  StronglySorted Z.le factors /\
  forall d, (2 <= d < i)%Z -> ~ (d | n)%Z.

(** a reduction that accepts every non-empty lane *)
Definition total_on_nonempty {X : Type} (red : list X -> result X) : Prop :=
  forall l, l <> [] -> exists v, red l = Ok v.

(** ** Concrete inputs used in the examples below *)

(** a 2 x 2 index table whose four cells are all present *)
Definition full_index : ndarray Z := mk_ndarray 2 2 [[0; 1]; [2; 3]]%Z.
Definition full_values : list Q := [5; 6; 7; 8]%Q.
Definition two_times : list Z := [0; 10800]%Z.
Definition one_height : list Q := [1000%Q].
Definition two_heights : list Q := [1000; 1000]%Q.

(** a pair of 3 x 3 fields with signal in row 1, columns 1 and 2 *)
Definition prior3 : ndarray (option Q) :=
  mk_ndarray 3 3 [[Some 0; Some 0; Some 0];
                  [Some 0; Some 1; Some 0];
                  [Some 0; Some 0; Some 0]]%Q.
Definition post3 : ndarray (option Q) :=
  mk_ndarray 3 3 [[Some 0; Some 0; Some 0];
                  [Some 0; Some 2; Some 1];
                  [Some 0; Some 0; Some 0]]%Q.
Definition index3 : ndarray Z :=
  mk_ndarray 3 3 [[0; 1; 2]; [3; 4; 5]; [6; 7; 8]]%Z.
Definition record3 : json_data Q :=
  mk_json_data [0; 10800; 21600]%Z [500; 500; 500]%Q index3 prior3 post3.

(** three timestamps, three hours apart, in nanoseconds *)
Definition three_hourly : list Z :=
  [0; 10800000000000; 21600000000000]%Z.

(** a pair of 2 x 2 fields, the first with a NaN cell in its second row *)
Definition prior_nan : ndarray (option Qnan) :=
  mk_ndarray 2 2 [[Some (Num 1); Some (Num 1)]; [Some NaN; Some (Num 0)]].
Definition post_nan : ndarray (option Qnan) :=
  mk_ndarray 2 2 [[Some (Num 1); Some (Num 1)]; [Some (Num 0); Some (Num 0)]].
Definition record_nan : json_data Qnan :=
  mk_json_data [0; 10800]%Z [Num 1000; Num 1000]
    (mk_ndarray 2 2 [[0; 1]; [2; 3]]%Z) prior_nan post_nan.

(** a pair of 1 x 2 fields whose maxima sit in different columns *)
Definition prior12 : ndarray (option Q) := mk_ndarray 1 2 [[Some 1; Some 0]]%Q.
Definition post12 : ndarray (option Q) := mk_ndarray 1 2 [[Some 0; Some 1]]%Q.
Definition record12 : json_data Q :=
  mk_json_data [0; 10800]%Z [500%Q] (mk_ndarray 1 2 [[0; 1]]%Z) prior12 post12.

(** a 4 x 4 matrix made of four constant 2 x 2 blocks *)
Definition blocks44 : ndarray Q :=
  mk_ndarray 4 4 [[1; 1; 2; 2]; [1; 1; 2; 2]; [3; 3; 4; 4]; [3; 3; 4; 4]]%Q.

(** matrices with an axis of length zero *)
Definition empty04 : ndarray Q := mk_ndarray 0 4 [].
Definition empty60 : ndarray Q := mk_ndarray 6 0 [[]; []; []; []; []; []].

(** a 2 x 2 matrix with a negative cell, and the same matrix clamped *)
Definition negative22 : ndarray Q := mk_ndarray 2 2 [[-1; 2]; [3; 4]]%Q.
Definition clamped22 : ndarray Q := mk_ndarray 2 2 [[0; 2]; [3; 4]]%Q.

(** the scenario of the specification: index table [[-1, 0], [1, -1]] *)
Definition sparse_index : ndarray Z := mk_ndarray 2 2 [[-1; 0]; [1; -1]]%Z.
Definition sparse_record : json_data Q :=
  mk_json_data two_times two_heights sparse_index
    (mk_ndarray 2 2 [[None; Some 0]; [Some 0; None]]%Q)
    (mk_ndarray 2 2 [[None; Some 5]; [Some 7; None]]%Q).

(** ** Vocabulary for the properties beyond the claims *)

(** an outcome that is a return or an [IndexError] *)
Definition raises_only_IndexError {A : Type} (r : result A) : Prop :=
  match r with
  | Ok _ => True
  | Raise e => e = IndexError
  | OutOfFuel => False
  end.

(** A record whose arrays agree: both fields and the index table have one
    shape, and there is one elevation height per row and one timestamp per
    column. *)
Definition record_consistent {V : Type} (jd : json_data V) : Prop :=
  fields_wf jd /\ wf_ndarray (ordering_index jd) /\
  shape (ordering_index jd) = shape (a_priori jd) /\
  length (level_heights jd) = shape0 (a_priori jd) /\
  length (emission_times jd) = shape1 (a_priori jd).

(** the reduction that [rebin] applies for a recognised [rebin_type] *)
Definition reduction_of `{FloatOps V} (rebin_type : string)
  : option (list V -> result V) :=
  if String.eqb rebin_type "mean" then Some red_mean
  else if String.eqb rebin_type "median" then Some red_median
  else if String.eqb rebin_type "max" then Some red_max
  else if String.eqb rebin_type "min" then Some red_min
  else None.

(** block [(i, j)] of a matrix cut into blocks of [b0] rows and [b1]
    columns: the cells of rows [[i*b0, (i+1)*b0)] and columns
    [[j*b1, (j+1)*b1)], row by row *)
Definition block {X : Type} (arr : ndarray X) (b0 b1 i j : nat) : list (list X) :=
  map (fun row => take b1 (drop (j * b1) row))
      (take b0 (drop (i * b0) (rows arr))).

(** ** The plotting layer: pieces of plotAshInv and makePlotFromJson *)

(** exceptions raised outside the numeric core *)
Inductive plot_exn : Type :=
  | Core (e : exn)
  | AssertionError.

Inductive outcome (A : Type) : Type :=
  | Returns (a : A)
  | Raises (e : plot_exn).
Arguments Returns {A} a.
Arguments Raises {A} e.

(** A [datetime64[ns]] or [timedelta64[ns]] value is a 64-bit integer; the
    smallest one is NaT (not a time). *)
Definition NaT : Z := (- 2 ^ 63)%Z.

Definition int64_wrap (z : Z) : Z := ((z + 2 ^ 63) mod 2 ^ 64 - 2 ^ 63)%Z.

(** [y - x] on two [datetime64[ns]]: NaT when an operand is, else the
    difference on 64 bits *)
Definition datetime_sub (y x : Z) : Z :=
  if (x =? NaT)%Z || (y =? NaT)%Z then NaT else int64_wrap (y - x).

(** [np.diff(x)] on a one-dimensional [datetime64[ns]] array *)
Fixpoint np_diff (l : list Z) : list Z :=
  match l with
  | x :: (y :: _) as l' => datetime_sub y x :: np_diff l'
  | _ => []
  end.

(** one second in the unit of [datetime64[ns]] *)
Definition second_ns : Z := 1000000000.

(** [d / np.timedelta64(1, 's')] for a [timedelta64[ns]]: NaN for NaT,
    else both operands are converted to binary64 and divided *)
Definition timedelta_seconds (d : Z) : Qnan :=
  if (d =? NaT)%Z then NaN
  else Num (round_binary64 (round_binary64 (inject_Z d) / inject_Z second_ns)).

(** [x == y] on floats *)
Definition float_eqb : Qnan -> Qnan -> bool := Qnan_cmp Qeq_bool.

(** Lines 147-154 and 158-159 of [plotAshInv]: the branch on [unit] up to
    the duration by which lines 156-157 scale the fields ([None] for
    ['tg'], which scales nothing).  [duration[0]] is evaluated before the
    comparison; the [assert] is executed (Python run without [-O]);
    raising a string raises [TypeError]. *)
Definition plotAshInv_duration (unit : string) (emission_times : list Z)
  : outcome (option Qnan) :=
  if String.eqb unit "tg" then Returns None
  else if String.eqb unit "kg/(m*s)" then
    let duration := map timedelta_seconds (np_diff emission_times) in
    match duration with
    | [] => Raises (Core IndexError)
    | d0 :: _ =>
        if forallb (fun d => float_eqb d d0) duration then Returns (Some d0)
        else Raises AssertionError
    end
  else Raises (Core TypeError).

(** an arithmetic progression of valid timestamps: item [k] is
    [t0 + k * step], and is a 64-bit integer other than NaT *)
Definition evenly_spaced (l : list Z) (t0 step : Z) : Prop :=
  forall k, k < length l ->
    l !! k = Some (t0 + Z.of_nat k * step)%Z /\
    (- 2 ^ 63 < t0 + Z.of_nat k * step < 2 ^ 63)%Z.

(** [l[start::step]] for a non-negative [start] and a positive [step]: the
    items at [start], [start + step], ... below [len(l)] *)
Definition py_slice_step {X : Type} (start step : nat) (l : list X) : list X :=
  let n := if start <? length l then (length l - start - 1) / step + 1 else 0 in
  omap (fun k => l !! (start + k * step)) (range n).

(** [np.cumsum(l)]: the running sums, accumulated from the left *)
Fixpoint cumsum_from `{FloatOps V} (acc : V) (l : list V) : list V :=
  match l with
  | [] => []
  | x :: l' => fadd acc x :: cumsum_from (fadd acc x) l'
  end.

Definition np_cumsum `{FloatOps V} (l : list V) : list V :=
  match l with
  | [] => []
  | x :: l' => x :: cumsum_from x l'
  end.

(** Lines 206-215 of [plotAshInv].  [time_label] is [npTimeToStr] with the
    axis date format, [None] when it raises (NaT, or a date that
    [datetime] does not represent); the list comprehension of line 207
    formats every timestamp before line 213 takes the slice.
    [height_label] is ["{:.0f}".format]. *)
Definition x_ticks (emission_times : list Z) : list nat :=
  py_slice_step 3 8 (range (length emission_times)).

Definition x_labels (time_label : Z -> option string) (emission_times : list Z)
  : option (list string) :=
  py_slice_step 3 8 <$> mapM time_label emission_times.

(** [np.arange(-0.5, size + 0.5)] has [size + 1] items *)
Definition y_ticks {V : Type} (level_heights : list V) : list Q :=
  py_slice_step 0 2
    (map (fun k => inject_Z (Z.of_nat k) - (1 # 2))%Q
         (range (length level_heights + 1))).

Definition y_labels `{FloatOps V} (height_label : V -> string)
    (volcano_altitude : V) (level_heights : list V) : list string :=
  py_slice_step 0 2
    (map height_label (np_cumsum (volcano_altitude :: level_heights))).

(** what [makePlotFromJson] does with the figure (lines 44-49) *)
Inductive save_call : Type :=
  | SaveFig (filename metadata : string)   (* [saveFig(outfile, fig, meta)] *)
  | FigSavefig (filename : string).        (* [fig.savefig(outfile)] *)

(** Lines 44-49 of [makePlotFromJson]; [splitext] and [abspath] are those
    of [os.path]. *)
Definition makePlotFromJson_save (splitext : string -> string * string)
    (abspath : string -> string) (json_filename : string)
    (outfile : option string) (meta : string) : option save_call :=
  match outfile with
  | None => None
  | Some o =>
      let '(basename, ext) := splitext (abspath json_filename) in
      if String.eqb ext "pdf" then Some (SaveFig o meta)
      else Some (FigSavefig o)
  end.

(** [str.rfind(c)]: the last position of [c], or -1 *)
Fixpoint rfind_from (c : ascii) (l : list ascii) (i : nat) (found : Z) : Z :=
  match l with
  | [] => found
  | x :: l' => rfind_from c l' (S i) (if Ascii.eqb x c then Z.of_nat i else found)
  end.

Definition rfind (c : ascii) (l : list ascii) : Z := rfind_from c l 0 (-1).

(** [posixpath.splitext]: the extension starts at the last dot of the last
    path component, unless that component is made of leading dots up to
    there *)
Definition posix_splitext (p : string) : string * string :=
  let l := String.list_ascii_of_string p in
  let sepIndex := rfind "/"%char l in
  let dotIndex := rfind "."%char l in
  if (sepIndex <? dotIndex)%Z
     && existsb (fun c => negb (Ascii.eqb c "."%char))
          (take (Z.to_nat (dotIndex - (sepIndex + 1)))
                (drop (Z.to_nat (sepIndex + 1)) l))
  then (String.string_of_list_ascii (take (Z.to_nat dotIndex) l),
        String.string_of_list_ascii (drop (Z.to_nat dotIndex) l))
  else (p, EmptyString).

(** the documented contract of [os.path.splitext]: the extension is empty
    or begins with a period *)
Definition ext_empty_or_dotted (splitext : string -> string * string) : Prop :=
  forall p, (splitext p).2 = EmptyString \/
            exists s, (splitext p).2 = String "."%char s.

(** * Properties *)

(** ** Loops and indexing *)

Lemma bind_Ok {A B : Type} (m : result A) (f : A -> result B) (a : A) :
  m = Ok a -> m ≫= f = f a.
Proof. by intros ->. Qed.

(** A loop invariant indexed by the iterations already done. *)
Lemma for_in_invariant {I S : Type} (Inv : list I -> S -> Prop)
    (body : I -> S -> result S) (l : list I) :
  forall (pre : list I) (s : S),
    Inv pre s ->
    (forall d i s0, Inv d s0 -> i ∈ l ->
       exists s1, body i s0 = Ok s1 /\ Inv (d ++ [i]) s1) ->
    exists s', for_in l body s = Ok s' /\ Inv (pre ++ l) s'.
Proof.
  induction l as [|i l IH]; intros pre s Hpre Hstep; simpl.
  - exists s. by rewrite app_nil_r.
  - destruct (Hstep pre i s Hpre) as (s1 & Hb & Hinv); [by left|].
    rewrite Hb. simpl.
    destruct (IH (pre ++ [i]) s1 Hinv) as (s' & Hs' & Hfin).
    + intros d j s0 Hd Hj. apply Hstep; [done | by right].
    + exists s'. split; [done|]. by rewrite <- app_assoc in Hfin.
Qed.

Lemma elem_of_range (n i : nat) : i ∈ range n <-> i < n.
Proof. unfold range. rewrite elem_of_seq. lia. Qed.

Lemma cell_lt {X : Type} (m : ndarray X) (a t : nat) :
  wf_ndarray m -> a < shape0 m -> t < shape1 m -> is_Some (cell m a t).
Proof.
  intros [Hlen Hrows] Ha Ht. unfold cell.
  destruct (lookup_lt_is_Some_2 (rows m) a) as [r Hr]; [lia|].
  rewrite Hr. simpl. apply lookup_lt_is_Some_2.
  rewrite Forall_lookup in Hrows. rewrite (Hrows _ _ Hr). lia.
Qed.

Lemma cell_Some_lt {X : Type} (m : ndarray X) (a t : nat) (x : X) :
  wf_ndarray m -> cell m a t = Some x -> a < shape0 m /\ t < shape1 m.
Proof.
  intros [Hlen Hrows] Hc. unfold cell in Hc.
  destruct (rows m !! a) as [r|] eqn:Hr; [|done]. simpl in Hc.
  split.
  - rewrite <- Hlen. by eapply lookup_lt_Some.
  - rewrite Forall_lookup in Hrows. rewrite <- (Hrows _ _ Hr).
    by eapply lookup_lt_Some.
Qed.

Lemma getitem2_Ok {X : Type} (m : ndarray X) (a t : nat) :
  wf_ndarray m -> a < shape0 m -> t < shape1 m ->
  exists x, cell m a t = Some x /\ getitem2 m a t = Ok x.
Proof.
  intros Hwf Ha Ht. destruct (cell_lt m a t Hwf Ha Ht) as [x Hx].
  exists x. split; [done|]. unfold getitem2.
  apply Nat.ltb_lt in Ha, Ht. by rewrite Ha, Ht, Hx.
Qed.

Lemma getitem1_Ok {X : Type} (v : list X) (i : Z) :
  (0 <= i < Z.of_nat (length v))%Z ->
  exists x, v !! Z.to_nat i = Some x /\ getitem1 v i = Ok x.
Proof.
  intros Hi. unfold getitem1.
  destruct (Z.ltb_spec i 0) as [|_]; [lia|].
  destruct (Z.leb_spec 0 i) as [_|]; [|lia].
  destruct (Z.ltb_spec i (Z.of_nat (length v))) as [_|]; [|lia]. simpl.
  destruct (lookup_lt_is_Some_2 v (Z.to_nat i)) as [x Hx]; [lia|].
  exists x. by rewrite Hx.
Qed.

Lemma setitem2_Ok {X : Type} (m : ndarray X) (a t : nat) (x : X) :
  wf_ndarray m -> a < shape0 m -> t < shape1 m ->
  exists m', setitem2 m a t x = Ok m' /\ wf_ndarray m' /\
    shape0 m' = shape0 m /\ shape1 m' = shape1 m /\
    forall a' t', cell m' a' t' =
      if decide (a' = a /\ t' = t) then Some x else cell m a' t'.
Proof.
  intros [Hlen Hrows] Ha Ht. unfold setitem2.
  destruct (lookup_lt_is_Some_2 (rows m) a) as [r Hr]; [lia|].
  assert (Hlr : length r = shape1 m).
  { rewrite Forall_lookup in Hrows. by apply (Hrows _ _ Hr). }
  pose proof Ha as Ha'. pose proof Ht as Ht'.
  apply Nat.ltb_lt in Ha', Ht'. rewrite Ha', Ht', Hr. simpl.
  eexists. split; [done|]. split; [|split; [done|split; [done|]]].
  - split; simpl.
    + by rewrite length_insert.
    + apply Forall_insert; [done|]. by rewrite length_insert.
  - intros a' t'. unfold cell. simpl.
    destruct (decide (a' = a)) as [->|Hne].
    + rewrite list_lookup_insert_eq by lia. simpl.
      destruct (decide (t' = t)) as [->|Hnt].
      * rewrite list_lookup_insert_eq by lia.
        by rewrite decide_True.
      * rewrite list_lookup_insert_ne by done.
        rewrite decide_False by tauto. by rewrite Hr.
    + rewrite list_lookup_insert_ne by done.
      by rewrite decide_False by tauto.
Qed.

Lemma masked_all_wf {V : Type} (s : nat * nat) :
  wf_ndarray (@masked_all V s).
Proof.
  split; simpl.
  - by rewrite length_replicate.
  - apply Forall_replicate. by rewrite length_replicate.
Qed.

Lemma masked_all_cell {V : Type} (s : nat * nat) (a t : nat) :
  a < s.1 -> t < s.2 -> cell (@masked_all V s) a t = Some None.
Proof.
  intros Ha Ht. unfold cell, masked_all. simpl.
  rewrite lookup_replicate_2 by done. simpl.
  by rewrite lookup_replicate_2.
Qed.

(** ** expandVariable *)

Section expand.
Context {V : Type}.
Variables (oi : ndarray Z) (variable : list V).
Hypothesis oi_wf : wf_ndarray oi.

Lemma filled_on_ext (P Q : nat -> nat -> bool) (x : ndarray (option V)) :
  (forall a t, P a t = Q a t) -> filled_on P oi variable x ->
  filled_on Q oi variable x.
Proof.
  intros HPQ (Hwf & H0 & H1 & Hc). repeat split; try done; try apply Hwf.
  intros a t Ha Ht. rewrite <- HPQ. by apply Hc.
Qed.

(** one run of the loop body (lines 113-115) *)
Lemma expand_body_step (P : nat -> nat -> bool) (x : ndarray (option V))
    (a t : nat) :
  filled_on P oi variable x ->
  a < shape0 oi -> t < shape1 oi ->
  (forall i, cell oi a t = Some i -> (0 <= i)%Z ->
             (i < Z.of_nat (length variable))%Z) ->
  exists x',
    (emis_index ← getitem2 oi a t;
     if (emis_index >=? 0)%Z then
       v ← getitem1 variable emis_index; setitem2 x a t (Some v)
     else Ok x) = Ok x' /\
    filled_on (fun a' t' => P a' t' || bool_decide (a' = a /\ t' = t))
              oi variable x'.
Proof.
  intros (Hwf & H0 & H1 & Hc) Ha Ht Hidx.
  destruct (getitem2_Ok oi a t oi_wf Ha Ht) as (i & Hi & Hget).
  rewrite Hget. simpl.
  destruct (Z.geb_spec i 0) as [Hnn|Hneg].
  - destruct (getitem1_Ok variable i) as (v & Hv & Hg1).
    { split; [lia|]. apply Hidx; [done|lia]. }
    rewrite Hg1. simpl.
    destruct (setitem2_Ok x a t (Some v) Hwf) as (x' & Hset & Hwf' & H0' & H1' & Hc');
      [lia|lia|].
    exists x'. split; [done|]. split; [done|].
    split; [congruence|]. split; [congruence|].
    intros a' t' Ha' Ht'. rewrite Hc'.
    destruct (decide (a' = a /\ t' = t)) as [[-> ->]|Hne].
    + rewrite bool_decide_eq_true_2 by done. rewrite orb_true_r.
      unfold expand_value. rewrite Hi. simpl.
      destruct (Z.geb_spec i 0); [|lia]. by rewrite Hv.
    + rewrite bool_decide_eq_false_2 by done. rewrite orb_false_r.
      by apply Hc.
  - exists x. split; [done|]. split; [done|]. split; [done|]. split; [done|].
    intros a' t' Ha' Ht'. rewrite Hc by done.
    destruct (decide (a' = a /\ t' = t)) as [[-> ->]|Hne].
    + rewrite bool_decide_eq_true_2 by done. rewrite orb_true_r.
      unfold expand_value. rewrite Hi. simpl.
      destruct (Z.geb_spec i 0); [lia|]. by destruct (P a t).
    + rewrite bool_decide_eq_false_2 by done. by rewrite orb_false_r.
Qed.

(** the inner loop fills column [t] on the rows below [nA] *)
Lemma expand_inner_loop (P : nat -> nat -> bool) (x : ndarray (option V))
    (nA t : nat) :
  filled_on P oi variable x ->
  nA <= shape0 oi -> t < shape1 oi ->
  (forall a i, a < nA -> cell oi a t = Some i -> (0 <= i)%Z ->
               (i < Z.of_nat (length variable))%Z) ->
  exists x',
    for_in (range nA) (fun a x =>
      emis_index ← getitem2 oi a t;
      if (emis_index >=? 0)%Z then
        v ← getitem1 variable emis_index; setitem2 x a t (Some v)
      else Ok x) x = Ok x' /\
    filled_on (fun a' t' => P a' t' || bool_decide (a' < nA /\ t' = t))
              oi variable x'.
Proof.
  intros Hx HnA Ht Hidx.
  pose (Inv := fun (d : list nat) (x : ndarray (option V)) =>
    filled_on (fun a' t' => P a' t' || bool_decide (a' ∈ d /\ t' = t))
              oi variable x).
  edestruct (for_in_invariant Inv) with (pre := @nil nat) (l := range nA)
    as (x' & Hrun & Hfin).
  - unfold Inv. eapply filled_on_ext; [|exact Hx].
    intros a' t'. rewrite bool_decide_eq_false_2; [by rewrite orb_false_r|].
    intros [Hin _]. by apply elem_of_nil in Hin.
  - intros d a s0 Hd Ha. apply elem_of_range in Ha.
    destruct (expand_body_step _ s0 a t Hd) as (s1 & Hb & Hs1); [lia|done| |].
    { intros i. by apply Hidx. }
    exists s1. split; [exact Hb|]. unfold Inv.
    eapply filled_on_ext; [|exact Hs1].
    intros a' t'. simpl. rewrite <- orb_assoc. f_equal.
    apply eq_true_iff_eq. rewrite orb_true_iff, !bool_decide_eq_true.
    rewrite elem_of_app, list_elem_of_singleton. tauto.
  - exists x'. split; [exact Hrun|]. unfold Inv in Hfin.
    eapply filled_on_ext; [|exact Hfin].
    intros a' t'. simpl. f_equal. apply bool_decide_ext.
    by rewrite elem_of_range.
Qed.

(** [expandVariable] returns, and fills exactly the sub-rectangle
    [len(level_heights) x len(emission_times)]. *)
Lemma expandVariable_filled {T H : Type} (emission_times : list T)
    (level_heights : list H) :
  length level_heights <= shape0 oi ->
  length emission_times <= shape1 oi ->
  indices_in_range oi variable (length level_heights) (length emission_times) ->
  exists x,
    expandVariable emission_times level_heights oi variable = Ok x /\
    filled_on (fun a t => bool_decide (a < length level_heights /\
                                         t < length emission_times))
              oi variable x.
Proof.
  intros HnA HnT Hidx. unfold expandVariable.
  set (nA := length level_heights) in *.
  set (nT := length emission_times) in *.
  pose (Inv := fun (d : list nat) (x : ndarray (option V)) =>
    filled_on (fun a' t' => bool_decide (a' < nA /\ t' ∈ d)) oi variable x).
  edestruct (for_in_invariant Inv) with (pre := @nil nat) (l := range nT)
    (s := @masked_all V (shape0 oi, shape1 oi)) as (x' & Hrun & Hfin).
  - unfold Inv. split; [apply masked_all_wf|]. split; [done|]. split; [done|].
    intros a t Ha Ht. rewrite masked_all_cell by done.
    rewrite bool_decide_eq_false_2; [done|].
    intros [_ Hin]. by apply elem_of_nil in Hin.
  - intros d t s0 Hd Ht. apply elem_of_range in Ht.
    destruct (expand_inner_loop _ s0 nA t Hd) as (s1 & Hb & Hs1); [done|lia| |].
    { intros a i Ha. by apply Hidx. }
    exists s1. split; [exact Hb|]. unfold Inv.
    eapply filled_on_ext; [|exact Hs1].
    intros a' t'. simpl.
    apply eq_true_iff_eq. rewrite orb_true_iff, !bool_decide_eq_true.
    rewrite elem_of_app, list_elem_of_singleton. tauto.
  - exists x'. split; [exact Hrun|]. unfold Inv in Hfin.
    eapply filled_on_ext; [|exact Hfin].
    intros a' t'. simpl. apply bool_decide_ext.
    by rewrite elem_of_range.
Qed.
End expand.

Lemma filled_on_value {V : Type} (P : nat -> nat -> bool) (oi : ndarray Z)
    (variable : list V) (x : ndarray (option V)) (a t : nat) (i : Z) :
  wf_ndarray oi -> filled_on P oi variable x ->
  cell oi a t = Some i -> P a t = true ->
  (i < Z.of_nat (length variable))%Z ->
  ((0 <= i)%Z -> exists v, variable !! Z.to_nat i = Some v /\
                           cell x a t = Some (Some v)) /\
  ((i < 0)%Z -> cell x a t = Some None).
Proof.
  intros Hwf (_ & _ & _ & Hc) Hi HP Hlt.
  destruct (cell_Some_lt _ _ _ _ Hwf Hi) as [Ha Ht].
  rewrite (Hc a t Ha Ht), HP. unfold expand_value. rewrite Hi. simpl.
  split; intros Hsign.
  - destruct (Z.geb_spec i 0); [|lia].
    destruct (lookup_lt_is_Some_2 variable (Z.to_nat i)) as [v Hv]; [lia|].
    exists v. by rewrite Hv.
  - by destruct (Z.geb_spec i 0); [lia|].
Qed.

(** C1, as amended.  When the label arrays have the lengths of the index
    table's axes and every non-negative index is in range of the values,
    [expandVariable] returns a field of the table's shape in which cell
    [(a, t)] holds [values[orderingIndex[a, t]]] where the index is
    non-negative, and is masked where it is negative. *)
Theorem expandVariable_reconstructs {T H V : Type}
    (emission_times : list T) (level_heights : list H)
    (oi : ndarray Z) (variable : list V) :
  wf_ndarray oi ->
  length level_heights = shape0 oi ->
  length emission_times = shape1 oi ->
  (forall a t i, cell oi a t = Some i -> (0 <= i)%Z ->
                 (i < Z.of_nat (length variable))%Z) ->
  exists x,
    expandVariable emission_times level_heights oi variable = Ok x /\
    wf_ndarray x /\ shape0 x = shape0 oi /\ shape1 x = shape1 oi /\
    forall a t i, cell oi a t = Some i ->
      ((0 <= i)%Z -> exists v, variable !! Z.to_nat i = Some v /\
                               cell x a t = Some (Some v)) /\
      ((i < 0)%Z -> cell x a t = Some None).
Proof.
  intros Hwf HA HT Hidx.
  destruct (expandVariable_filled oi variable Hwf emission_times level_heights)
    as (x & Hrun & Hfill); [lia|lia| |].
  { intros a t i _ _. apply Hidx. }
  exists x. split; [done|].
  pose proof Hfill as (Hwfx & H0 & H1 & _).
  split; [done|]. split; [done|]. split; [done|].
  intros a t i Hi.
  destruct (cell_Some_lt _ _ _ _ Hwf Hi) as [Ha Ht].
  destruct (Z.le_gt_cases 0 i) as [Hnn|Hneg].
  - eapply filled_on_value; eauto.
    apply bool_decide_eq_true_2. lia.
  - destruct Hfill as (_ & _ & _ & Hc). split; [lia|]. intros _.
    rewrite (Hc a t Ha Ht). unfold expand_value. rewrite Hi. simpl.
    destruct (Z.geb_spec i 0); [lia|]. by destruct (bool_decide _).
Qed.

Lemma full_index_in_range (a t : nat) (i : Z) :
  cell full_index a t = Some i -> (0 <= i)%Z ->
  (i < Z.of_nat (length full_values))%Z.
Proof.
  destruct a as [|[|a]]; destruct t as [|[|t]]; simpl; intros Hc _;
    try discriminate; injection Hc as <-; simpl; lia.
Qed.

Lemma full_index_wf : wf_ndarray full_index.
Proof. split; [reflexivity | repeat constructor]. Defined.

Lemma expandVariable_reconstructs_witness :
  exists x,
    expandVariable two_times two_heights full_index full_values = Ok x /\
    wf_ndarray x /\ shape0 x = 2 /\ shape1 x = 2 /\
    forall a t i, cell full_index a t = Some i ->
      ((0 <= i)%Z -> exists v, full_values !! Z.to_nat i = Some v /\
                               cell x a t = Some (Some v)) /\
      ((i < 0)%Z -> cell x a t = Some None).
Proof.
  apply (expandVariable_reconstructs two_times two_heights full_index full_values).
  - exact full_index_wf.
  - reflexivity.
  - reflexivity.
  - exact full_index_in_range.
Defined.

(** C1 as stated fails: with a single elevation label the second row of a
    2 x 2 index table is never visited, so cell (1, 0) stays masked although
    its index 2 is non-negative and in range ([values[2] = 7]). *)
Lemma expandVariable_label_bound_counterexample :
  wf_ndarray full_index /\
  (forall a t i, cell full_index a t = Some i -> (0 <= i)%Z ->
                 (i < Z.of_nat (length full_values))%Z) /\
  cell full_index 1 0 = Some 2%Z /\
  full_values !! 2 = Some 7%Q /\
  exists x,
    expandVariable two_times one_height full_index full_values = Ok x /\
    cell x 1 0 = Some None.
Proof.
  split; [exact full_index_wf|]. split; [exact full_index_in_range|].
  split; [reflexivity|]. split; [reflexivity|].
  eexists. split; reflexivity.
Qed.

Example expandVariable_sparse :
  expandVariable two_times two_heights sparse_index [5; 7]%Q
  = Ok (mk_ndarray 2 2 [[None; Some 5]; [Some 7; None]]%Q).
Proof. reflexivity. Qed.

(** C10.  The loops of [expandVariable] run over the label arrays: when
    these are no longer than the axes of the index table, the call returns
    a field of the table's shape in which every cell [(a, t)] with
    [a >= len(level_heights)] or [t >= len(emission_times)] is masked,
    whatever its index, and the reconstruction postcondition holds on the
    sub-rectangle [len(level_heights) x len(emission_times)]. *)
Theorem expandVariable_fills_label_rectangle {T H V : Type}
    (emission_times : list T) (level_heights : list H)
    (oi : ndarray Z) (variable : list V) :
  wf_ndarray oi ->
  length level_heights <= shape0 oi ->
  length emission_times <= shape1 oi ->
  indices_in_range oi variable (length level_heights) (length emission_times) ->
  exists x,
    expandVariable emission_times level_heights oi variable = Ok x /\
    shape0 x = shape0 oi /\ shape1 x = shape1 oi /\
    (forall a t, a < shape0 oi -> t < shape1 oi ->
       length level_heights <= a \/ length emission_times <= t ->
       cell x a t = Some None) /\
    (forall a t i, a < length level_heights -> t < length emission_times ->
       cell oi a t = Some i ->
       ((0 <= i)%Z -> exists v, variable !! Z.to_nat i = Some v /\
                                cell x a t = Some (Some v)) /\
       ((i < 0)%Z -> cell x a t = Some None)).
Proof.
  intros Hwf HA HT Hidx.
  destruct (expandVariable_filled oi variable Hwf emission_times level_heights)
    as (x & Hrun & Hfill); [done|done|done|].
  exists x. split; [done|].
  pose proof Hfill as (Hwfx & H0 & H1 & Hc).
  split; [done|]. split; [done|]. split.
  - intros a t Ha Ht Hout. rewrite (Hc a t Ha Ht).
    rewrite bool_decide_eq_false_2; [done|lia].
  - intros a t i Ha Ht Hi.
    destruct (Z.le_gt_cases 0 i) as [Hnn|Hneg].
    + eapply filled_on_value; eauto.
      apply bool_decide_eq_true_2. lia.
    + split; [lia|]. intros _.
      destruct (cell_Some_lt _ _ _ _ Hwf Hi) as [Ha' Ht'].
      rewrite (Hc a t Ha' Ht'). unfold expand_value. rewrite Hi. simpl.
      destruct (Z.geb_spec i 0); [lia|]. by destruct (bool_decide _).
Qed.

Lemma expandVariable_fills_label_rectangle_witness :
  exists x,
    expandVariable two_times one_height full_index full_values = Ok x /\
    shape0 x = 2 /\ shape1 x = 2 /\
    (forall a t, a < 2 -> t < 2 -> 1 <= a \/ 2 <= t -> cell x a t = Some None) /\
    (forall a t i, a < 1 -> t < 2 -> cell full_index a t = Some i ->
       ((0 <= i)%Z -> exists v, full_values !! Z.to_nat i = Some v /\
                                cell x a t = Some (Some v)) /\
       ((i < 0)%Z -> cell x a t = Some None)).
Proof.
  apply (expandVariable_fills_label_rectangle two_times one_height
           full_index full_values).
  - exact full_index_wf.
  - simpl. lia.
  - simpl. lia.
  - intros a t i _ _. exact (full_index_in_range a t i).
Defined.

(** ** Python sequence helpers *)

Lemma elem_of_nonzero_from (i : nat) (bs : list bool) (x : nat) :
  x ∈ nonzero_from i bs <-> exists k, x = i + k /\ bs !! k = Some true.
Proof.
  revert i. induction bs as [|b bs IH]; intros i; simpl.
  - rewrite elem_of_nil. split; [done|]. by intros (k & _ & Hk).
  - assert (Hrest : x ∈ nonzero_from (S i) bs <->
                    exists k, x = i + S k /\ bs !! k = Some true).
    { rewrite IH. split; intros (k & -> & Hk); exists k; split; (lia || done). }
    destruct b.
    + rewrite elem_of_cons, Hrest. split.
      * intros [->|(k & -> & Hk)]; [exists 0|exists (S k)]; split; (lia || done).
      * intros ([|k] & -> & Hk); [left; lia|right; by exists k].
    + rewrite Hrest. split.
      * intros (k & -> & Hk). by exists (S k).
      * intros ([|k] & -> & Hk); [done|by exists k].
Qed.

Lemma elem_of_flatnonzero (xs : list (option bool)) (x : nat) :
  x ∈ flatnonzero xs <-> xs !! x = Some (Some true).
Proof.
  unfold flatnonzero. rewrite elem_of_nonzero_from. split.
  - intros (k & -> & Hk). simpl. rewrite list_lookup_fmap in Hk.
    destruct (xs !! k) as [[[]|]|]; by simplify_eq/=.
  - intros Hx. exists x. split; [done|].
    by rewrite list_lookup_fmap, Hx.
Qed.

Lemma foldl_max_spec (l : list nat) (x : nat) :
  foldl Nat.max x l ∈ x :: l /\ forall y, y ∈ x :: l -> y <= foldl Nat.max x l.
Proof.
  revert x. induction l as [|z l IH]; intros x; simpl.
  - split; [by left|]. intros y Hy. apply list_elem_of_singleton in Hy. lia.
  - destruct (IH (Nat.max x z)) as [Hin Hub]. split.
    + apply elem_of_cons in Hin as [Heq|Hin]; [|by do 2 right].
      rewrite Heq. destruct (Nat.max_spec x z) as [[_ ->]|[_ ->]];
        [right; left|left]; done.
    + intros y Hy.
      assert (Hm : Nat.max x z <= foldl Nat.max (Nat.max x z) l)
        by (apply Hub; by left).
      apply elem_of_cons in Hy as [->|Hy]; [lia|].
      apply elem_of_cons in Hy as [->|Hy]; [lia|].
      apply Hub. by right.
Qed.

Lemma foldl_min_spec (l : list nat) (x : nat) :
  foldl Nat.min x l ∈ x :: l /\ forall y, y ∈ x :: l -> foldl Nat.min x l <= y.
Proof.
  revert x. induction l as [|z l IH]; intros x; simpl.
  - split; [by left|]. intros y Hy. apply list_elem_of_singleton in Hy. lia.
  - destruct (IH (Nat.min x z)) as [Hin Hlb]. split.
    + apply elem_of_cons in Hin as [Heq|Hin]; [|by do 2 right].
      rewrite Heq. destruct (Nat.min_spec x z) as [[_ ->]|[_ ->]];
        [left|right; left]; done.
    + intros y Hy.
      assert (Hm : foldl Nat.min (Nat.min x z) l <= Nat.min x z)
        by (apply Hlb; by left).
      apply elem_of_cons in Hy as [->|Hy]; [lia|].
      apply elem_of_cons in Hy as [->|Hy]; [lia|].
      apply Hlb. by right.
Qed.

Lemma py_max_Ok (l : list nat) (x : nat) :
  x ∈ l -> exists m, py_max l = Ok m /\ m ∈ l /\ forall y, y ∈ l -> y <= m.
Proof.
  destruct l as [|z l]; [by intros ?%elem_of_nil|]. intros _.
  exists (foldl Nat.max z l). split; [done|]. apply foldl_max_spec.
Qed.

Lemma py_min_Ok (l : list nat) (x : nat) :
  x ∈ l -> exists m, py_min l = Ok m /\ m ∈ l /\ forall y, y ∈ l -> m <= y.
Proof.
  destruct l as [|z l]; [by intros ?%elem_of_nil|]. intros _.
  exists (foldl Nat.min z l). split; [done|]. apply foldl_min_spec.
Qed.

Lemma py_max_empty (l : list nat) :
  (forall x, x ∉ l) -> py_max l = Raise ValueError.
Proof. destruct l as [|z l]; [done|]. intros Hno. destruct (Hno z). by left. Qed.

Lemma py_min_empty (l : list nat) :
  (forall x, x ∉ l) -> py_min l = Raise ValueError.
Proof. destruct l as [|z l]; [done|]. intros Hno. destruct (Hno z). by left. Qed.

(** Slices with bounds inside the axis *)

Lemma slice_adjust_nat (len n : nat) :
  slice_adjust len (Z.of_nat n) = Nat.min n len.
Proof.
  unfold slice_adjust. destruct (Z.ltb_spec (Z.of_nat n) 0); lia.
Qed.

Lemma py_slice_lookup {X : Type} (l : list X) (lo hi k : nat) :
  lo + k < hi ->
  py_slice (Some (Z.of_nat lo)) (Some (Z.of_nat hi)) l !! k = l !! (lo + k).
Proof.
  intros Hk. unfold py_slice, slice_bounds. simpl.
  rewrite !slice_adjust_nat.
  destruct (decide (lo + k < length l)) as [Hin|Hout].
  - rewrite lookup_take_lt by lia. rewrite lookup_drop. f_equal. lia.
  - rewrite (lookup_ge_None_2 l) by lia.
    apply lookup_ge_None_2. rewrite length_take, length_drop. lia.
Qed.

Lemma py_slice_prefix_lookup {X : Type} (l : list X) (hi k : nat) :
  k < hi -> py_slice None (Some (Z.of_nat hi)) l !! k = l !! k.
Proof.
  intros Hk. unfold py_slice, slice_bounds. simpl.
  rewrite slice_adjust_nat, Nat.sub_0_r.
  destruct (decide (k < length l)) as [Hin|Hout].
  - by rewrite lookup_take_lt by lia.
  - rewrite (lookup_ge_None_2 l) by lia.
    apply lookup_ge_None_2. rewrite length_take. lia.
Qed.

Lemma slice_adjust_le (len : nat) (i : Z) : slice_adjust len i <= len.
Proof. unfold slice_adjust. destruct (Z.ltb_spec i 0); lia. Qed.

Lemma slice_bounds_le (len : nat) (start stop : option Z) :
  (slice_bounds len start stop).2 <= len.
Proof. destruct stop; simpl; [apply slice_adjust_le|done]. Qed.

Lemma slice2_wf {X : Type} (m : ndarray X) (stop0 start1 stop1 : option Z) :
  wf_ndarray m -> wf_ndarray (slice2 m stop0 start1 stop1).
Proof.
  intros [Hlen Hrows]. unfold slice2.
  pose proof (slice_bounds_le (shape0 m) None stop0) as H0.
  pose proof (slice_bounds_le (shape1 m) start1 stop1) as H1.
  assert (Hb0 : (slice_bounds (shape0 m) None stop0).1 = 0) by done.
  destruct (slice_bounds (shape0 m) None stop0) as [s0 e0].
  destruct (slice_bounds (shape1 m) start1 stop1) as [s1 e1].
  simpl in *. subst s0.
  split; simpl.
  - rewrite length_map, length_take, length_drop. lia.
  - apply Forall_forall. intros r' Hr'.
    apply list_elem_of_fmap in Hr' as (r & -> & Hr).
    apply elem_of_take in Hr as (i & Hr & _).
    rewrite lookup_drop in Hr.
    rewrite Forall_lookup in Hrows. specialize (Hrows _ _ Hr).
    rewrite length_take, length_drop. lia.
Qed.

Lemma slice2_shape {X : Type} (m : ndarray X) (ve lo hi : nat) :
  ve <= shape0 m -> lo <= hi -> hi <= shape1 m ->
  let m' := slice2 m (Some (Z.of_nat ve)) (Some (Z.of_nat lo)) (Some (Z.of_nat hi)) in
  shape0 m' = ve /\ shape1 m' = hi - lo.
Proof.
  intros Hve Hlo Hhi. unfold slice2, slice_bounds. simpl.
  rewrite !slice_adjust_nat. lia.
Qed.

Lemma slice2_cell {X : Type} (m : ndarray X) (ve lo hi r t : nat) :
  wf_ndarray m -> r < ve -> lo + t < hi ->
  cell (slice2 m (Some (Z.of_nat ve)) (Some (Z.of_nat lo)) (Some (Z.of_nat hi))) r t
  = cell m r (lo + t).
Proof.
  intros [Hlen Hrows] Hr Ht. unfold cell, slice2, slice_bounds. simpl.
  rewrite !slice_adjust_nat, Nat.sub_0_r, drop_0.
  rewrite list_lookup_fmap.
  destruct (decide (r < shape0 m)) as [Hin|Hout].
  - rewrite lookup_take_lt by lia.
    destruct (rows m !! r) as [row|] eqn:Hrow; [|done]. simpl.
    rewrite Forall_lookup in Hrows. specialize (Hrows _ _ Hrow).
    destruct (decide (lo + t < shape1 m)) as [Hc|Hc].
    + rewrite lookup_take_lt by lia. rewrite lookup_drop. f_equal. lia.
    + rewrite (lookup_ge_None_2 row) by lia.
      apply lookup_ge_None_2. rewrite length_take, length_drop. lia.
  - rewrite (lookup_ge_None_2 (rows m)) by lia.
    rewrite lookup_ge_None_2; [done|]. rewrite length_take. lia.
Qed.

(** ** The pruning criterion computed by [readJson] *)

Section prune.
Context `{FloatOps V}.
Variables (jd : json_data V) (prune_zero : V).
Hypothesis jd_wf : fields_wf jd.

Let A := a_priori jd.
Let B := a_posteriori jd.

Lemma row_passes_lt (r : nat) :
  row_passes A B prune_zero r = true -> r < shape0 A /\ 0 < shape1 A.
Proof.
  destruct jd_wf as ([HlenA HrowsA] & _). fold A in HlenA, HrowsA.
  unfold row_passes, lane_criterion, ma_max_lane.
  destruct (rows A !! r) as [la|] eqn:Hla; [|done].
  intros Hp. split.
  - rewrite <- HlenA. by eapply lookup_lt_Some.
  - rewrite Forall_lookup in HrowsA. rewrite <- (HrowsA _ _ Hla).
    destruct la; [|simpl; lia].
    simpl in Hp. by destruct (rows B !! r).
Qed.

Lemma row_mask_degenerate :
  shape1 A = 0 -> row_mask jd prune_zero = Raise ValueError.
Proof.
  intros H0. unfold row_mask, ma_max_axis1. fold A. by rewrite H0.
Qed.

Lemma row_mask_Ok :
  shape1 A <> 0 ->
  exists m, row_mask jd prune_zero = Ok m /\
    forall r, r ∈ flatnonzero m <-> row_passes A B prune_zero r = true.
Proof.
  intros Hne.
  destruct jd_wf as ([HlenA _] & [HlenB _] & Hs0 & Hs1).
  fold A in HlenA, Hs0, Hs1. fold B in HlenB, Hs0, Hs1.
  unfold row_mask, ma_max_axis1. fold A B. rewrite <- Hs1.
  destruct (Nat.eqb_spec (shape1 A) 0) as [|_]; [done|]. simpl.
  unfold ma_add_arrays. rewrite !length_map, HlenA, HlenB, Hs0, Nat.eqb_refl.
  simpl. eexists. split; [done|].
  intros r. rewrite elem_of_flatnonzero. unfold ma_gt, row_passes.
  rewrite list_lookup_fmap, lookup_zip_with, !list_lookup_fmap.
  unfold lane_criterion.
  destruct (rows A !! r) as [la|]; [|done]. simpl.
  destruct (rows B !! r) as [lb|]; [|done]. simpl.
  destruct (ma_max_lane la) as [a|]; [|done].
  destruct (ma_max_lane lb) as [b|]; [|done]. simpl.
  split; [by intros [= ->]|by intros ->].
Qed.

Lemma col_mask_Ok :
  shape0 A <> 0 ->
  exists m, col_mask jd prune_zero = Ok m /\
    forall t, t ∈ flatnonzero m <->
              t < shape1 A /\ col_passes A B prune_zero t = true.
Proof.
  intros Hne.
  destruct jd_wf as (_ & _ & Hs0 & Hs1). fold A B in Hs0, Hs1.
  unfold col_mask, ma_max_axis0. fold A B. rewrite <- Hs0, <- Hs1.
  destruct (Nat.eqb_spec (shape0 A) 0) as [|_]; [done|]. simpl.
  unfold ma_add_arrays. rewrite !length_map, Nat.eqb_refl.
  simpl. eexists. split; [done|].
  intros t. rewrite elem_of_flatnonzero. unfold ma_gt, col_passes, range.
  rewrite list_lookup_fmap, lookup_zip_with, !list_lookup_fmap.
  unfold lane_criterion.
  destruct (decide (t < shape1 A)) as [Hlt|Hge].
  - rewrite lookup_seq_lt by done. simpl.
    destruct (ma_max_lane (column A t)) as [a|]; [|by split; [|intros []]].
    destruct (ma_max_lane (column B t)) as [b|]; [|by split; [|intros []]].
    simpl.
    split; [by intros [= ->]|by intros [_ ->]].
  - rewrite lookup_seq_ge by lia. simpl. split; [done|]. by intros [? _].
Qed.

(** Lines 91-96 return when a row and a column pass; the bounds are the
    last passing row, and the first and last passing columns unless the
    caller gave them. *)
Lemma readJson_bounds_Ok (vmin vmax : option Z) (r0 t0 : nat) :
  row_passes A B prune_zero r0 = true ->
  t0 < shape1 A -> col_passes A B prune_zero t0 = true ->
  exists b lastRow minCol maxCol,
    readJson_bounds jd prune_zero vmin vmax = Ok b /\
    (row_passes A B prune_zero lastRow = true /\
     forall r, lastRow < r -> row_passes A B prune_zero r = false) /\
    (minCol < shape1 A /\ col_passes A B prune_zero minCol = true /\
     forall t, t < minCol -> col_passes A B prune_zero t = false) /\
    (maxCol < shape1 A /\ col_passes A B prune_zero maxCol = true /\
     forall t, maxCol < t -> t < shape1 A ->
               col_passes A B prune_zero t = false) /\
    valid_elevations b = lastRow + 1 /\
    valid_times_min b = default (Z.of_nat minCol) vmin /\
    valid_times_max b = default (Z.of_nat (maxCol + 1)) vmax.
Proof.
  intros Hr0 Ht0 Hc0.
  destruct (row_passes_lt r0 Hr0) as [Hr0lt Hs1].
  destruct row_mask_Ok as (rm & Hrm & Hrows); [lia|].
  destruct col_mask_Ok as (cm & Hcm & Hcols); [lia|].
  destruct (py_max_Ok (flatnonzero rm) r0) as (lastRow & HlastEq & HlastIn & HlastUb).
  { by apply Hrows. }
  destruct (py_min_Ok (flatnonzero cm) t0) as (minCol & HminEq & HminIn & HminLb).
  { by apply Hcols. }
  destruct (py_max_Ok (flatnonzero cm) t0) as (maxCol & HmaxEq & HmaxIn & HmaxUb).
  { by apply Hcols. }
  exists (mk_prune_bounds (lastRow + 1) (default (Z.of_nat minCol) vmin)
                          (default (Z.of_nat (maxCol + 1)) vmax)).
  exists lastRow, minCol, maxCol.
  split; [|split; [|split; [|split; [|done]]]].
  - unfold readJson_bounds. rewrite Hrm. simpl. rewrite HlastEq. simpl.
    rewrite Hcm. simpl. rewrite HminEq, HmaxEq.
    by destruct vmin, vmax.
  - split; [by apply Hrows|]. intros r Hr.
    destruct (row_passes A B prune_zero r) eqn:Hp; [|done].
    apply Hrows, HlastUb in Hp. lia.
  - apply Hcols in HminIn as [? ?]. split; [done|]. split; [done|].
    intros t Ht.
    destruct (col_passes A B prune_zero t) eqn:Hp; [|done].
    assert (t ∈ flatnonzero cm) as Hin by (apply Hcols; split; [lia|done]).
    apply HminLb in Hin. lia.
  - apply Hcols in HmaxIn as [? ?]. split; [done|]. split; [done|].
    intros t Ht Hlt.
    destruct (col_passes A B prune_zero t) eqn:Hp; [|done].
    assert (t ∈ flatnonzero cm) as Hin by (apply Hcols; done).
    apply HmaxUb in Hin. lia.
Qed.

(** No passing row: line 91 raises. *)
Lemma readJson_bounds_no_row (vmin vmax : option Z) :
  (forall r, row_passes A B prune_zero r = false) ->
  readJson_bounds jd prune_zero vmin vmax = Raise ValueError.
Proof.
  intros Hno. unfold readJson_bounds.
  destruct (Nat.eq_dec (shape1 A) 0) as [H0|Hne].
  - by rewrite row_mask_degenerate.
  - destruct (row_mask_Ok Hne) as (rm & -> & Hrows). simpl.
    rewrite py_max_empty; [done|].
    intros r Hr. apply Hrows in Hr. by rewrite Hno in Hr.
Qed.

(** No passing column, and a bound left to be computed: line 94 or 96
    raises (if line 91 has not). *)
Lemma readJson_bounds_no_col (vmin vmax : option Z) :
  (forall t, t < shape1 A -> col_passes A B prune_zero t = false) ->
  vmin = None \/ vmax = None ->
  readJson_bounds jd prune_zero vmin vmax = Raise ValueError.
Proof.
  intros Hno Hdefault. unfold readJson_bounds.
  destruct (Nat.eq_dec (shape1 A) 0) as [H0|Hne].
  { by rewrite row_mask_degenerate. }
  destruct (row_mask_Ok Hne) as (rm & -> & Hrows). simpl.
  destruct (flatnonzero rm) as [|r l] eqn:Hnz; [done|].
  simpl.
  assert (Hr : row_passes A B prune_zero r = true).
  { apply Hrows. by left. }
  destruct (row_passes_lt r Hr) as [Hrlt _].
  destruct col_mask_Ok as (cm & -> & Hcols); [lia|]. simpl.
  assert (Hempty : forall t, t ∉ flatnonzero cm).
  { intros t Ht. apply Hcols in Ht as [Hlt Hp]. by rewrite Hno in Hp. }
  rewrite py_min_empty, py_max_empty by done.
  destruct Hdefault as [-> | ->]; [done|]. by destruct vmin.
Qed.
End prune.

Lemma row_passes_ge `{FloatOps V} (fieldA fieldB : ndarray (option V))
    (threshold : V) (r : nat) :
  wf_ndarray fieldA -> shape0 fieldA <= r ->
  row_passes fieldA fieldB threshold r = false.
Proof.
  intros [Hlen _] Hr. unfold row_passes.
  by rewrite (lookup_ge_None_2 (rows fieldA)) by lia.
Qed.

Lemma lane_criterion_false `{FloatOps V} (la lb : list (option V))
    (threshold : V) :
  lane_criterion la lb threshold = false -> lane_ordered la lb threshold ->
  lane_at_most la lb threshold.
Proof.
  unfold lane_criterion, lane_ordered, lane_at_most. intros Hc Hord a b Ha Hb.
  rewrite Ha, Hb in Hc. destruct (Hord a b Ha Hb) as [Hgt|Hle]; [congruence|done].
Qed.

(** rationals are ordered *)
Lemma Q_lane_ordered (la lb : list (option Q)) (threshold : Q) :
  lane_ordered la lb threshold.
Proof.
  intros a b _ _. simpl. unfold Qgt_bool.
  destruct (Qle_bool (a + b) threshold); [by right|by left].
Qed.

(** The two fields that [readJson] expands over one index table form a
    well-shaped pair, as the pruning block expects. *)
Lemma readJson_expands_fields `{FloatOps V} (emission_times : list Z)
    (level_heights : list V) (oi : ndarray Z) (a_priori_2d a_posteriori_2d : list V)
    (prune_zero : V) (times_min times_max : option Z) :
  wf_ndarray oi ->
  length level_heights = shape0 oi -> length emission_times = shape1 oi ->
  (forall a t i, cell oi a t = Some i -> (0 <= i)%Z ->
     (i < Z.of_nat (length a_priori_2d))%Z /\
     (i < Z.of_nat (length a_posteriori_2d))%Z) ->
  exists jd,
    readJson emission_times level_heights oi a_priori_2d a_posteriori_2d
             false prune_zero times_min times_max = Ok jd /\
    fields_wf jd /\
    shape (a_priori jd) = shape oi /\ shape (a_posteriori jd) = shape oi.
Proof.
  intros Hwf HA HT Hidx.
  destruct (expandVariable_filled oi a_posteriori_2d Hwf emission_times
              level_heights)
    as (post & Hpost & Hwfpost & Hp0 & Hp1 & _); [lia|lia| |].
  { intros a t i _ _ Hc Hi. by apply (Hidx a t i). }
  destruct (expandVariable_filled oi a_priori_2d Hwf emission_times level_heights)
    as (pri & Hpri & Hwfpri & Hq0 & Hq1 & _); [lia|lia| |].
  { intros a t i _ _ Hc Hi. by apply (Hidx a t i). }
  unfold readJson. rewrite Hpost. simpl. rewrite Hpri. simpl.
  eexists. split; [done|]. unfold fields_wf, shape. simpl.
  rewrite Hp0, Hp1, Hq0, Hq1. done.
Qed.

(** C4.  When a row and a column pass the criterion
    [max(fieldA[lane]) + max(fieldB[lane]) > threshold], the pruning block
    returns: the elevation range is [[0, lastRow + 1)] for the last passing
    row, so only rows above it are trimmed; the time range is
    [[minCol, maxCol + 1)] for the first and last passing columns, each
    bound being replaced by the caller's when one is given. *)
Theorem readJson_prune_ranges `{FloatOps V} (jd : json_data V) (prune_zero : V)
    (times_min times_max : option Z) (r0 t0 : nat) :
  fields_wf jd ->
  row_passes (a_priori jd) (a_posteriori jd) prune_zero r0 = true ->
  t0 < shape1 (a_priori jd) ->
  col_passes (a_priori jd) (a_posteriori jd) prune_zero t0 = true ->
  exists b lastRow minCol maxCol,
    readJson_bounds jd prune_zero times_min times_max = Ok b /\
    readJson_prune jd prune_zero times_min times_max
      = Ok (readJson_crop jd b) /\
    (row_passes (a_priori jd) (a_posteriori jd) prune_zero lastRow = true /\
     forall r, lastRow < r ->
       row_passes (a_priori jd) (a_posteriori jd) prune_zero r = false) /\
    (minCol < shape1 (a_priori jd) /\
     col_passes (a_priori jd) (a_posteriori jd) prune_zero minCol = true /\
     forall t, t < minCol ->
       col_passes (a_priori jd) (a_posteriori jd) prune_zero t = false) /\
    (maxCol < shape1 (a_priori jd) /\
     col_passes (a_priori jd) (a_posteriori jd) prune_zero maxCol = true /\
     forall t, maxCol < t -> t < shape1 (a_priori jd) ->
       col_passes (a_priori jd) (a_posteriori jd) prune_zero t = false) /\
    valid_elevations b = lastRow + 1 /\
    shape0 (a_priori (readJson_crop jd b)) = lastRow + 1 /\
    shape0 (a_posteriori (readJson_crop jd b)) = lastRow + 1 /\
    valid_times_min b = default (Z.of_nat minCol) times_min /\
    valid_times_max b = default (Z.of_nat (maxCol + 1)) times_max.
Proof.
  intros Hwf Hr0 Ht0 Hc0.
  destruct (readJson_bounds_Ok jd prune_zero Hwf times_min times_max
              r0 t0 Hr0 Ht0 Hc0)
    as (b & lastRow & minCol & maxCol & Hb & Hlast & Hmin & Hmax & Hve & Hlo & Hhi).
  exists b, lastRow, minCol, maxCol.
  destruct (row_passes_lt jd prune_zero Hwf lastRow (proj1 Hlast)) as [Hlt _].
  destruct Hwf as (_ & _ & Hs0 & _).
  split; [done|]. split; [unfold readJson_prune; by rewrite Hb|].
  repeat (split; [done|]).
  split; [|split; [|done]].
  - unfold readJson_crop, slice2, slice_bounds. simpl.
    rewrite slice_adjust_nat, Hve. lia.
  - unfold readJson_crop, slice2, slice_bounds. simpl.
    rewrite slice_adjust_nat, Hve. lia.
Qed.

Lemma record3_wf : fields_wf record3.
Proof. repeat split; repeat constructor. Defined.

Lemma readJson_prune_ranges_witness :
  exists b lastRow minCol maxCol,
    readJson_bounds record3 0%Q None (Some 3%Z) = Ok b /\
    readJson_prune record3 0%Q None (Some 3%Z) = Ok (readJson_crop record3 b) /\
    (row_passes prior3 post3 0%Q lastRow = true /\
     forall r, lastRow < r -> row_passes prior3 post3 0%Q r = false) /\
    (minCol < 3 /\ col_passes prior3 post3 0%Q minCol = true /\
     forall t, t < minCol -> col_passes prior3 post3 0%Q t = false) /\
    (maxCol < 3 /\ col_passes prior3 post3 0%Q maxCol = true /\
     forall t, maxCol < t -> t < 3 -> col_passes prior3 post3 0%Q t = false) /\
    valid_elevations b = lastRow + 1 /\
    shape0 (a_priori (readJson_crop record3 b)) = lastRow + 1 /\
    shape0 (a_posteriori (readJson_crop record3 b)) = lastRow + 1 /\
    valid_times_min b = Z.of_nat minCol /\
    valid_times_max b = 3%Z.
Proof.
  apply (readJson_prune_ranges record3 0%Q None (Some 3%Z) 1 1).
  - exact record3_wf.
  - reflexivity.
  - simpl. lia.
  - reflexivity.
Defined.

Example readJson_bounds_sparse :
  readJson_bounds sparse_record 0%Q None None = Ok (mk_prune_bounds 2 0 2).
Proof. reflexivity. Qed.

Example readJson_sparse :
  readJson two_times two_heights sparse_index [0; 0]%Q [5; 7]%Q true 0%Q None None
  = Ok sparse_record.
Proof. reflexivity. Qed.

(** C5, as amended.  With default bounds, when a row and a column pass,
    the pruning block returns a record in which both fields have the same
    shape [(ve, tmax - tmin)] and hold the cells of rows [[0, ve)] and
    columns [[tmin, tmax)] of the input fields; the elevation heights and
    the timestamps are cut at the same indices; and every dropped row and
    every dropped column fails the criterion
    [max(A[lane]) + max(B[lane]) > threshold], which is
    [max(A[lane]) + max(B[lane]) <= threshold] when the sum is ordered with
    the threshold (not NaN). *)
Theorem readJson_prune_shared_box `{FloatOps V} (jd : json_data V)
    (prune_zero : V) (r0 t0 : nat) :
  fields_wf jd ->
  row_passes (a_priori jd) (a_posteriori jd) prune_zero r0 = true ->
  t0 < shape1 (a_priori jd) ->
  col_passes (a_priori jd) (a_posteriori jd) prune_zero t0 = true ->
  exists jd' ve tmin tmax,
    readJson_prune jd prune_zero None None = Ok jd' /\
    ve <= shape0 (a_priori jd) /\ tmin < tmax /\ tmax <= shape1 (a_priori jd) /\
    (* one shape for both fields *)
    fields_wf jd' /\
    shape0 (a_priori jd') = ve /\ shape1 (a_priori jd') = tmax - tmin /\
    shape0 (a_posteriori jd') = ve /\ shape1 (a_posteriori jd') = tmax - tmin /\
    (* the same rows and columns of both fields *)
    (forall r t, r < ve -> t < tmax - tmin ->
       cell (a_priori jd') r t = cell (a_priori jd) r (tmin + t) /\
       cell (a_posteriori jd') r t = cell (a_posteriori jd) r (tmin + t)) /\
    (* the labels follow *)
    (forall r, r < ve -> level_heights jd' !! r = level_heights jd !! r) /\
    length (level_heights jd') <= ve /\
    (forall t, t < tmax - tmin ->
       emission_times jd' !! t = emission_times jd !! (tmin + t)) /\
    length (emission_times jd') <= tmax - tmin /\
    (* what is dropped does not pass *)
    (forall r la lb, ve <= r ->
       rows (a_priori jd) !! r = Some la -> rows (a_posteriori jd) !! r = Some lb ->
       lane_criterion la lb prune_zero = false /\
       (lane_ordered la lb prune_zero -> lane_at_most la lb prune_zero)) /\
    (forall t, t < shape1 (a_priori jd) -> t < tmin \/ tmax <= t ->
       col_passes (a_priori jd) (a_posteriori jd) prune_zero t = false /\
       (lane_ordered (column (a_priori jd) t) (column (a_posteriori jd) t)
                     prune_zero ->
        lane_at_most (column (a_priori jd) t) (column (a_posteriori jd) t)
                     prune_zero)).
Proof.
  intros Hwf Hr0 Ht0 Hc0.
  destruct (readJson_bounds_Ok jd prune_zero Hwf None None r0 t0 Hr0 Ht0 Hc0)
    as (b & lastRow & minCol & maxCol & Hb & [HlastP HlastU] &
        (HminLt & HminP & HminL) & (HmaxLt & HmaxP & HmaxU) & Hve & Hlo & Hhi).
  destruct (row_passes_lt jd prune_zero Hwf lastRow HlastP) as [Hlt _].
  assert (Hmm : minCol <= maxCol).
  { destruct (decide (maxCol < minCol)) as [Hc|]; [|lia].
    apply HminL in Hc. congruence. }
  pose proof Hwf as (HwfA & HwfB & Hs0 & Hs1).
  destruct b as [ve lo hi]. simpl in Hve, Hlo, Hhi. subst ve lo hi.
  eexists _, (lastRow + 1), minCol, (maxCol + 1).
  split; [unfold readJson_prune; by rewrite Hb|].
  unfold readJson_crop. simpl.
  destruct (slice2_shape (a_priori jd) (lastRow + 1) minCol (maxCol + 1))
    as [HA0 HA1]; [lia|lia|lia|].
  destruct (slice2_shape (a_posteriori jd) (lastRow + 1) minCol (maxCol + 1))
    as [HB0 HB1]; [lia|lia|lia|].
  split; [lia|]. split; [lia|]. split; [lia|].
  split.
  { split; [by apply slice2_wf|]. split; [by apply slice2_wf|].
    simpl. split; congruence. }
  split; [done|]. split; [done|]. split; [done|]. split; [done|].
  split.
  { intros r t Hr Ht. split; apply slice2_cell; (done || lia). }
  split.
  { intros r Hr. by apply py_slice_prefix_lookup. }
  split.
  { unfold py_slice, slice_bounds. simpl. rewrite slice_adjust_nat.
    rewrite length_take. lia. }
  split.
  { intros t Ht. apply py_slice_lookup. lia. }
  split.
  { unfold py_slice, slice_bounds. simpl. rewrite !slice_adjust_nat.
    rewrite length_take. lia. }
  split.
  - intros r la lb Hr Hla Hlb.
    assert (Hf : row_passes (a_priori jd) (a_posteriori jd) prune_zero r = false)
      by (apply HlastU; lia).
    unfold row_passes in Hf. rewrite Hla, Hlb in Hf.
    split; [done|]. by apply lane_criterion_false.
  - intros t Ht Hout.
    assert (Hf : col_passes (a_priori jd) (a_posteriori jd) prune_zero t = false).
    { destruct Hout; [apply HminL|apply HmaxU]; lia. }
    split; [done|]. by apply lane_criterion_false.
Qed.

Lemma readJson_prune_shared_box_witness :
  exists jd' ve tmin tmax,
    readJson_prune record3 0%Q None None = Ok jd' /\
    ve <= 3 /\ tmin < tmax /\ tmax <= 3 /\
    fields_wf jd' /\
    shape0 (a_priori jd') = ve /\ shape1 (a_priori jd') = tmax - tmin /\
    shape0 (a_posteriori jd') = ve /\ shape1 (a_posteriori jd') = tmax - tmin /\
    (forall r t, r < ve -> t < tmax - tmin ->
       cell (a_priori jd') r t = cell prior3 r (tmin + t) /\
       cell (a_posteriori jd') r t = cell post3 r (tmin + t)) /\
    (forall r, r < ve -> level_heights jd' !! r = level_heights record3 !! r) /\
    length (level_heights jd') <= ve /\
    (forall t, t < tmax - tmin ->
       emission_times jd' !! t = emission_times record3 !! (tmin + t)) /\
    length (emission_times jd') <= tmax - tmin /\
    (forall r la lb, ve <= r ->
       rows prior3 !! r = Some la -> rows post3 !! r = Some lb ->
       lane_criterion la lb 0%Q = false /\ lane_at_most la lb 0%Q) /\
    (forall t, t < 3 -> t < tmin \/ tmax <= t ->
       col_passes prior3 post3 0%Q t = false /\
       lane_at_most (column prior3 t) (column post3 t) 0%Q).
Proof.
  destruct (readJson_prune_shared_box record3 0%Q 1 1)
    as (jd' & ve & tmin & tmax & Hrun & H1 & H2 & H3 & H4 & H5 & H6 & H7 & H8
        & H9 & H10 & H11 & H12 & H13 & Hrows & Hcols).
  - exact record3_wf.
  - reflexivity.
  - simpl. lia.
  - reflexivity.
  - exists jd', ve, tmin, tmax. repeat (split; [assumption|]). split.
    + intros r la lb Hr Hla Hlb.
      destruct (Hrows r la lb Hr Hla Hlb) as [Hc Hle].
      split; [exact Hc|]. apply Hle, Q_lane_ordered.
    + intros t Ht Hout. destruct (Hcols t Ht Hout) as [Hc Hle].
      split; [exact Hc|]. apply Hle, Q_lane_ordered.
Defined.

(** C5 as stated fails on a NaN cell.  In the 2 x 2 fields
    [[1, 1], [NaN, 0]] and [[1, 1], [0, 0]] with threshold 0, row 0 and
    column 1 pass; row 1 has the sum [NaN + 0], which is not above the
    threshold, so the row is dropped, but the sum is not [<= 0] either. *)
Lemma readJson_prune_nan_counterexample :
  fields_wf record_nan /\
  (exists jd', readJson_prune record_nan (Num 0) None None = Ok jd' /\
     shape (a_priori jd') = (1, 1) /\ shape (a_posteriori jd') = (1, 1)) /\
  rows prior_nan !! 1 = Some [Some NaN; Some (Num 0)] /\
  rows post_nan !! 1 = Some [Some (Num 0); Some (Num 0)] /\
  lane_criterion [Some NaN; Some (Num 0)] [Some (Num 0); Some (Num 0)] (Num 0)
    = false /\
  ~ lane_at_most [Some NaN; Some (Num 0)] [Some (Num 0); Some (Num 0)] (Num 0).
Proof.
  split; [repeat split; repeat constructor|].
  split; [eexists; split; [reflexivity|split; reflexivity]|].
  split; [reflexivity|]. split; [reflexivity|]. split; [reflexivity|].
  intros Hle. specialize (Hle NaN (Num 0) eq_refl eq_refl). discriminate.
Qed.

(** C7, as amended.  When no row passes the criterion, or when no column
    passes and at least one time bound is left to be computed, the pruning
    block raises [ValueError] (from [max] or [min] of an empty sequence, or
    from a reduction over an empty axis) and returns no range. *)
Theorem readJson_prune_no_valid_data `{FloatOps V} (jd : json_data V)
    (prune_zero : V) (times_min times_max : option Z) :
  fields_wf jd ->
  (forall r, r < shape0 (a_priori jd) ->
     row_passes (a_priori jd) (a_posteriori jd) prune_zero r = false) \/
  ((forall t, t < shape1 (a_priori jd) ->
      col_passes (a_priori jd) (a_posteriori jd) prune_zero t = false) /\
   (times_min = None \/ times_max = None)) ->
  readJson_prune jd prune_zero times_min times_max = Raise ValueError.
Proof.
  intros Hwf Hcase. unfold readJson_prune.
  destruct Hcase as [Hrows|[Hcols Hdefault]].
  - rewrite readJson_bounds_no_row; [done|done|].
    intros r. destruct (decide (r < shape0 (a_priori jd))) as [Hr|Hr].
    + by apply Hrows.
    + apply row_passes_ge; [apply Hwf|lia].
  - by rewrite readJson_bounds_no_col.
Qed.

Lemma record12_wf : fields_wf record12.
Proof. repeat split; repeat constructor. Defined.

Lemma record12_no_col (t : nat) :
  t < shape1 (a_priori record12) ->
  col_passes (a_priori record12) (a_posteriori record12) (3 # 2)%Q t = false.
Proof.
  simpl. intros Ht. destruct t as [|[|t]]; [reflexivity|reflexivity|lia].
Defined.

Lemma readJson_prune_no_valid_data_witness :
  readJson_prune record12 (3 # 2)%Q None (Some 2%Z) = Raise ValueError.
Proof.
  apply (readJson_prune_no_valid_data record12 (3 # 2)%Q None (Some 2%Z)).
  - exact record12_wf.
  - right. split; [exact record12_no_col|]. by left.
Defined.

(** C7 as stated fails: in the 1 x 2 fields [[1, 0]] and [[0, 1]] with
    threshold 3/2 the row passes (1 + 1) and no column does (1 + 0); when
    the caller supplies both time bounds the block returns a record. *)
Lemma readJson_prune_override_counterexample :
  fields_wf record12 /\
  (forall t, t < shape1 (a_priori record12) ->
     col_passes (a_priori record12) (a_posteriori record12) (3 # 2)%Q t = false) /\
  readJson_prune record12 (3 # 2)%Q (Some 0%Z) (Some 2%Z) = Ok record12.
Proof.
  split; [exact record12_wf|]. split; [exact record12_no_col|]. reflexivity.
Qed.

(** ** prime_factors *)

Lemma Zprod_app (l1 l2 : list Z) :
  Zprod (l1 ++ l2) = (Zprod l1 * Zprod l2)%Z.
Proof.
  unfold Zprod. induction l1 as [|x l1 IH]; simpl; [lia|].
  rewrite IH. lia.
Qed.

Lemma Zprod_pos (l : list Z) :
  Forall (fun f => 2 <= f)%Z l -> (1 <= Zprod l)%Z.
Proof.
  unfold Zprod. induction 1 as [|x l Hx _ IH]; simpl; [lia|nia].
Qed.

Lemma Zprod_take_divide (l : list Z) (k : nat) :
  (Zprod (take k l) | Zprod l)%Z.
Proof.
  rewrite <- (take_drop k l) at 2. rewrite Zprod_app.
  exists (Zprod (drop k l)). lia.
Qed.

Lemma Zprod_take_mono (l : list Z) (j k : nat) :
  Forall (fun f => 2 <= f)%Z l -> j <= k ->
  (Zprod (take j l) <= Zprod (take k l))%Z.
Proof.
  intros Hl Hjk.
  replace (take j l) with (take j (take k l))
    by (rewrite take_take; f_equal; lia).
  rewrite <- (take_drop j (take k l)) at 2. rewrite Zprod_app.
  assert (1 <= Zprod (take j (take k l)))%Z
    by (apply Zprod_pos; do 2 apply Forall_take; done).
  assert (1 <= Zprod (drop j (take k l)))%Z
    by (apply Zprod_pos, Forall_drop, Forall_take; done).
  nia.
Qed.

Lemma pf_inv_next (N i n : Z) (factors : list Z) :
  pf_inv N i n factors -> (n mod i <> 0)%Z -> pf_inv N (i + 1) n factors.
Proof.
  intros (Hn & Hi & HN & Hpr & Hle & Hso & Hnd) Hmod.
  repeat split; try done; try lia.
  - eapply Forall_impl; [exact Hle|]. simpl. lia.
  - intros d Hd Hdiv. destruct (decide (d = i)) as [->|Hne].
    + apply Hmod. apply Z.mod_divide in Hdiv; [done|lia].
    + apply (Hnd d); [lia|done].
Qed.

Lemma pf_inv_divide (N i n : Z) (factors : list Z) :
  pf_inv N i n factors -> (i * i <= n)%Z -> (n mod i = 0)%Z ->
  pf_inv N i (n / i) (factors ++ [i]) /\ (2 * (n / i) <= n)%Z.
Proof.
  intros (Hn & Hi & HN & Hpr & Hle & Hso & Hnd) Hsq Hmod.
  assert (Hq : n = (i * (n / i))%Z).
  { rewrite (Z.div_mod n i) at 1 by lia. rewrite Hmod. lia. }
  assert (Hq1 : (1 <= n / i)%Z) by nia.
  split; [|nia].
  split; [done|]. split; [done|]. split.
  { rewrite Zprod_app. unfold Zprod at 2. simpl. rewrite HN. nia. }
  split.
  { apply Forall_app. split; [done|]. apply Forall_singleton.
    split; [lia|]. intros d Hd Hdiv. apply (Hnd d); [lia|].
    eapply Z.divide_trans; [exact Hdiv|]. exists (n / i)%Z. lia. }
  split.
  { apply Forall_app. split; [done|]. apply Forall_singleton. lia. }
  split.
  { apply StronglySorted_app_2; [|done|repeat constructor].
    intros x1 x2 Hx1 Hx2. apply list_elem_of_singleton in Hx2 as ->.
    rewrite Forall_forall in Hle. by apply Hle. }
  intros d Hd Hdiv. apply (Hnd d); [done|].
  eapply Z.divide_trans; [exact Hdiv|]. exists i. lia.
Qed.

(** The loop returns within its budget and keeps the invariant. *)
Lemma prime_factors_loop_Ok (N : Z) (fuel : nat) :
  forall (i n : Z) (factors : list Z),
    pf_inv N i n factors -> Z.to_nat (2 * n - i) < fuel ->
    exists i' n' factors',
      prime_factors_loop fuel i n factors = Ok (n', factors') /\
      pf_inv N i' n' factors' /\ (n' < i' * i')%Z.
Proof.
  induction fuel as [|fuel IH]; intros i n factors Hinv Hfuel; [lia|].
  pose proof Hinv as (Hn & Hi & _).
  simpl. destruct (Z.leb_spec (i * i) n) as [Hsq|Hsq].
  - unfold py_mod. destruct (Z.eqb_spec i 0) as [|_]; [lia|]. simpl.
    destruct (Z.eqb_spec (n mod i) 0) as [Hmod|Hmod]; simpl.
    + unfold py_floordiv. destruct (Z.eqb_spec i 0) as [|_]; [lia|]. simpl.
      destruct (pf_inv_divide N i n factors Hinv Hsq Hmod) as [Hinv' Hhalf].
      apply IH; [done|]. nia.
    + apply IH; [by apply pf_inv_next|]. nia.
  - exists i, n, factors. split; [done|]. split; [done|lia].
Qed.

(** what is left when the loop stops is 1 or a prime *)
Lemma pf_inv_final (N i n : Z) (factors : list Z) :
  pf_inv N i n factors -> (n < i * i)%Z -> (1 < n)%Z ->
  Z.prime n /\ (i <= n)%Z.
Proof.
  intros (Hn & Hi & HN & Hpr & Hle & Hso & Hnd) Hsq Hn1.
  assert (Hin : (i <= n)%Z).
  { destruct (Z.le_gt_cases i n) as [|Hlt]; [done|].
    destruct (Hnd n); [lia|]. apply Z.divide_refl. }
  split; [|done]. split; [done|].
  intros d Hd [e He].
  destruct (Z.lt_ge_cases d i) as [Hlt|Hge].
  - apply (Hnd d); [lia|]. by exists e.
  - apply (Hnd e); [nia|]. exists d. lia.
Qed.

(** [prime_factors] returns the prime factorisation in ascending order;
    for an argument below 2 it returns the empty list. *)
Lemma prime_factors_spec (N : Z) :
  exists factors,
    prime_factors N = Ok factors /\
    Forall Z.prime factors /\ Sorted Z.le factors /\
    ((1 <= N)%Z -> Zprod factors = N) /\
    ((N <= 1)%Z -> factors = []).
Proof.
  unfold prime_factors.
  destruct (Z.le_gt_cases 1 N) as [Hpos|Hneg].
  - destruct (prime_factors_loop_Ok N (Z.to_nat (2 * N) + 1) 2 N [])
      as (i' & n' & fs & Hrun & Hinv & Hstop).
    { split; [lia|]. split; [lia|]. split; [unfold Zprod; simpl; lia|].
      split; [constructor|]. split; [constructor|]. split; [constructor|].
      intros d Hd. lia. }
    { lia. }
    rewrite Hrun. simpl.
    pose proof Hinv as (Hn & Hi & HN & Hpr & Hle & Hso & Hnd).
    destruct (Z.gtb_spec n' 1) as [Hgt|Hle1].
    + destruct (pf_inv_final N i' n' fs Hinv Hstop) as [Hprime Hin]; [lia|].
      eexists. split; [done|]. split; [|split; [|split]].
      * apply Forall_app. split; [done|]. by apply Forall_singleton.
      * apply StronglySorted_Sorted, StronglySorted_app_2;
          [|done|repeat constructor].
        intros x1 x2 Hx1 Hx2. apply list_elem_of_singleton in Hx2 as ->.
        rewrite Forall_forall in Hle. specialize (Hle x1 Hx1). lia.
      * intros _. rewrite Zprod_app. unfold Zprod at 2. simpl. lia.
      * intros HN1. assert (N = 1)%Z as -> by lia.
        assert (1 <= Zprod fs)%Z.
        { apply Zprod_pos. eapply Forall_impl; [exact Hpr|].
          intros x [Hx _]. lia. }
        nia.
    + eexists. split; [done|]. split; [done|].
      split; [by apply StronglySorted_Sorted|]. split.
      * intros _. assert (n' = 1)%Z as -> by lia. lia.
      * intros HN1. assert (N = 1)%Z as -> by lia.
        destruct fs as [|f fs]; [done|].
        apply Forall_cons in Hpr as [[Hf _] Hpr].
        assert (1 <= Zprod fs)%Z.
        { apply Zprod_pos. eapply Forall_impl; [exact Hpr|].
          intros x [Hx _]. lia. }
        unfold Zprod in *. simpl in HN. nia.
  - replace (Z.to_nat (2 * N) + 1) with 1 by lia. simpl.
    destruct (Z.leb_spec (2 * 2) N) as [|_]; [lia|]. simpl.
    destruct (Z.gtb_spec N 1) as [|_]; [lia|].
    exists []. repeat split; try done; try constructor. lia.
Qed.

(** ** find_downsample_factor *)

(** Comparisons with an exact quotient, as integer inequalities. *)
Lemma Qquot_lt_iff (a b : Z) (o : Q) :
  (0 < b)%Z -> (o < Qquot a b)%Q <-> (Qnum o * b < a * QDen o)%Z.
Proof.
  intros Hb. destruct b as [|p|p]; try lia.
  unfold Qquot, Qlt, Qdiv, Qmult, Qinv, inject_Z. simpl.
  rewrite Pos.mul_1_l. lia.
Qed.

Lemma Qquot_le_iff (a b : Z) (o : Q) :
  (0 < b)%Z -> (Qquot a b <= o)%Q <-> (a * QDen o <= Qnum o * b)%Z.
Proof.
  intros Hb. destruct b as [|p|p]; try lia.
  unfold Qquot, Qle, Qdiv, Qmult, Qinv, inject_Z. simpl.
  rewrite Pos.mul_1_l. lia.
Qed.

Lemma inject_Z_lt_iff (a : Z) (o : Q) :
  (o < inject_Z a)%Q <-> (Qnum o < a * QDen o)%Z.
Proof. unfold Qlt, inject_Z. simpl. lia. Qed.

Lemma inject_Z_le_iff (a : Z) (o : Q) :
  (inject_Z a <= o)%Q <-> (a * QDen o <= Qnum o)%Z.
Proof. unfold Qle, inject_Z. simpl. lia. Qed.

Lemma Qgt_bool_true (q o : Q) : Qgt_bool q o = true <-> (o < q)%Q.
Proof.
  unfold Qgt_bool. rewrite negb_true_iff, <- not_true_iff_false, Qle_bool_iff.
  split; [apply Qnot_le_lt|apply Qlt_not_le].
Qed.

Lemma Qgt_bool_false (q o : Q) : Qgt_bool q o = false <-> (q <= o)%Q.
Proof.
  unfold Qgt_bool. by rewrite negb_false_iff, Qle_bool_iff.
Qed.

Lemma py_truediv_Ok (a b : Z) : (b <> 0)%Z -> py_truediv a b = Ok (float_quot a b).
Proof. intros Hb. unfold py_truediv. by destruct (Z.eqb_spec b 0). Qed.

Lemma py_floordiv_Ok (a b : Z) : (b <> 0)%Z -> py_floordiv a b = Ok (a / b)%Z.
Proof. intros Hb. unfold py_floordiv. by destruct (Z.eqb_spec b 0). Qed.

(** *** Rounding an integer quotient

    The quotients [shape / (factor*f)] are integers: the divisor is a
    product of prime factors of [shape].  An integer up to 2^53 is a
    binary64 number; a larger one is rounded, by less than itself. *)

Lemma round_half_even_scale (n d c : Z) :
  (0 < d)%Z -> (0 < c)%Z ->
  round_half_even (n * c) (d * c) = round_half_even n d.
Proof.
  intros Hd Hc. unfold round_half_even.
  rewrite Z.div_mul_cancel_r, Z.mul_mod_distr_r by lia.
  destruct (Z.compare_spec (2 * (n mod d)) d) as [Heq|Hlt|Hgt];
    destruct (Z.compare_spec (2 * (n mod d * c)) (d * c)); try done; nia.
Qed.

Lemma round_half_even_exact (q d : Z) :
  (0 < d)%Z -> round_half_even (q * d) d = q.
Proof.
  intros Hd. unfold round_half_even.
  rewrite Z.div_mul, Z.mod_mul by lia.
  by destruct (Z.compare_spec (2 * 0) d); try lia.
Qed.

Lemma round_half_even_bounds (n d : Z) :
  (n / d <= round_half_even n d <= n / d + 1)%Z.
Proof.
  unfold round_half_even.
  destruct (2 * (n mod d) ?= d)%Z; [destruct (Z.even _)| |]; lia.
Qed.

Lemma round_binary64_pos_small (q d : Z) :
  (0 < d)%Z -> (1 <= q)%Z -> (Z.log2 q <= 52)%Z ->
  (round_binary64_pos (q * d) d == inject_Z q)%Q.
Proof.
  intros Hd Hq Hlog. unfold round_binary64_pos, floor_log2.
  destruct (Z.leb_spec d (q * d)) as [_|]; [|nia].
  rewrite Z.div_mul by lia.
  destruct (Z.leb_spec 0 (Z.log2 q - 52)) as [He|He].
  - replace (Z.log2 q - 52)%Z with 0%Z by lia.
    rewrite Z.pow_0_r, !Z.mul_1_r, round_half_even_exact by done. reflexivity.
  - set (K := (2 ^ (- (Z.log2 q - 52)))%Z).
    assert (HK : (0 < K)%Z) by (apply Z.pow_pos_nonneg; lia).
    replace (q * d * K)%Z with (q * K * d)%Z by lia.
    rewrite round_half_even_exact by done.
    unfold Qeq. simpl. rewrite Z2Pos.id by done. lia.
Qed.

Lemma round_binary64_pos_exact (q d : Z) :
  (0 < d)%Z -> (1 <= q <= 2 ^ 53)%Z ->
  (round_binary64_pos (q * d) d == inject_Z q)%Q.
Proof.
  intros Hd [Hq Hle].
  destruct (Z.le_gt_cases (Z.log2 q) 52) as [Hlog|Hlog].
  { by apply round_binary64_pos_small. }
  assert (q = 2 ^ 53)%Z as ->.
  { destruct (Z.log2_spec q ltac:(lia)) as [Hlo _].
    assert (2 ^ 53 <= 2 ^ Z.log2 q)%Z by (apply Z.pow_le_mono_r; lia). lia. }
  unfold round_binary64_pos, floor_log2.
  destruct (Z.leb_spec d (2 ^ 53 * d)) as [_|]; [|lia].
  rewrite Z.div_mul by lia. rewrite Z.log2_pow2 by lia.
  change (0 <=? 53 - 52)%Z with true. cbv iota.
  change (2 ^ (53 - 52))%Z with 2%Z.
  replace (2 ^ 53 * d)%Z with (2 ^ 52 * (d * 2))%Z by lia.
  rewrite round_half_even_exact by lia. reflexivity.
Qed.

Lemma round_binary64_pos_bounds (q d : Z) :
  (0 < d)%Z -> (1 <= q)%Z ->
  (1 <= round_binary64_pos (q * d) d)%Q /\
  (round_binary64_pos (q * d) d <= inject_Z (2 * q))%Q.
Proof.
  intros Hd Hq.
  destruct (Z.le_gt_cases (Z.log2 q) 52) as [Hlog|Hlog].
  { rewrite (round_binary64_pos_small q d) by done.
    split; unfold Qle; cbn [Qnum Qden inject_Z]; lia. }
  unfold round_binary64_pos, floor_log2.
  destruct (Z.leb_spec d (q * d)) as [_|]; [|nia].
  rewrite Z.div_mul by lia.
  destruct (Z.leb_spec 0 (Z.log2 q - 52)) as [_|]; [|lia].
  set (e := (Z.log2 q - 52)%Z).
  assert (He : (0 < 2 ^ e)%Z) by (apply Z.pow_pos_nonneg; lia).
  replace (d * 2 ^ e)%Z with (2 ^ e * d)%Z by lia.
  rewrite round_half_even_scale by done.
  pose proof (round_half_even_bounds q (2 ^ e)) as [Hlo Hhi].
  destruct (Z.log2_spec q ltac:(lia)) as [Hpow _].
  assert (Hsplit : (2 ^ Z.log2 q = 2 ^ e * 2 ^ 52)%Z).
  { rewrite <- Z.pow_add_r by lia. f_equal. lia. }
  assert (Hdiv : (2 ^ 52 <= q / 2 ^ e)%Z)
    by (apply Z.div_le_lower_bound; lia).
  pose proof (Z.mul_div_le q (2 ^ e) He) as Hfloor.
  assert (H52 : (1 <= 2 ^ 52)%Z) by done.
  split.
  - unfold Qle. cbn [Qnum Qden inject_Z]. nia.
  - unfold Qle. cbn [Qnum Qden inject_Z]. nia.
Qed.

Lemma float_quot_pos (a b : Z) :
  (0 < a)%Z -> (0 < b)%Z -> float_quot a b = round_binary64_pos a b.
Proof.
  intros Ha Hb. destruct a as [|pa|pa]; try lia. destruct b as [|pb|pb]; try lia.
  unfold float_quot, round_binary64. simpl. by rewrite Pos.mul_1_r.
Qed.

Lemma Qquot_exact (q d : Z) : (0 < d)%Z -> (Qquot (q * d) d == inject_Z q)%Q.
Proof.
  intros Hd. destruct d as [|p|p]; try lia.
  unfold Qquot, Qeq, Qdiv, Qmult, Qinv, inject_Z. simpl. lia.
Qed.

Lemma float_quot_exact (s P : Z) :
  (1 <= P)%Z -> (P | s)%Z -> (1 <= s <= 2 ^ 53)%Z ->
  (float_quot s P == Qquot s P)%Q.
Proof.
  intros HP [q ->] Hs.
  rewrite float_quot_pos by lia.
  rewrite Qquot_exact by lia. apply round_binary64_pos_exact; [lia|nia].
Qed.

Lemma float_quot_bounds (s P : Z) :
  (1 <= P)%Z -> (P | s)%Z -> (1 <= s)%Z ->
  (1 <= float_quot s P)%Q /\ (float_quot s P <= Qquot (2 * s) P)%Q.
Proof.
  intros HP [q ->] Hs.
  rewrite float_quot_pos by lia.
  replace (2 * (q * P))%Z with (2 * q * P)%Z by lia.
  rewrite Qquot_exact by lia. apply round_binary64_pos_bounds; [lia|nia].
Qed.

(** The loop accumulates the factors of a prefix: every prefix up to the
    one returned keeps the float quotient above [output], and the next
    one, if any, does not. *)
(** rewrite the divisor under [float_quot] to an equal integer *)
Ltac float_quot_divisor z' :=
  match goal with
  | |- context [float_quot _ ?z] =>
      replace z with z' by (unfold Zprod; simpl; lia)
  end.

Lemma find_downsample_factor_loop_spec (shape : Z) (output : Q) :
  forall (factors : list Z) (factor : Z),
    (0 < factor)%Z -> Forall (fun f => 2 <= f)%Z factors ->
    exists k, k <= length factors /\
      find_downsample_factor_loop shape output factors factor
        = Ok (factor * Zprod (take k factors))%Z /\
      (forall j, 1 <= j <= k ->
         (output < float_quot shape (factor * Zprod (take j factors)))%Q) /\
      (k < length factors ->
         (float_quot shape (factor * Zprod (take (S k) factors)) <= output)%Q).
Proof.
  induction factors as [|f factors IH]; intros factor Hfactor Hfs.
  - exists 0. simpl. split; [done|]. split; [f_equal; unfold Zprod; simpl; lia|].
    split; [intros j; lia|lia].
  - apply Forall_cons in Hfs as [Hf Hfs]. simpl.
    rewrite py_truediv_Ok by nia. simpl.
    destruct (Qgt_bool (float_quot shape (factor * f)) output) eqn:Hgt.
    + destruct (IH (factor * f)%Z) as (k & Hk & Hrun & Hpre & Hnext); [nia|done|].
      exists (S k). split; [simpl; lia|]. split; [|split].
      * rewrite Hrun. f_equal. simpl. unfold Zprod. simpl. lia.
      * intros j Hj. destruct j as [|[|j]]; [lia| |].
        -- float_quot_divisor (factor * f)%Z. by apply Qgt_bool_true.
        -- float_quot_divisor (factor * f * Zprod (take (S j) factors))%Z.
           apply Hpre. lia.
      * intros Hlt. simpl in Hlt.
        float_quot_divisor (factor * f * Zprod (take (S k) factors))%Z.
        apply Hnext. lia.
    + exists 0. split; [simpl; lia|]. split; [|split].
      * f_equal. unfold Zprod. simpl. lia.
      * intros j; lia.
      * intros _. float_quot_divisor (factor * f)%Z.
        by apply Qgt_bool_false.
Qed.

Lemma primes_ge_2 (l : list Z) :
  Forall Z.prime l -> Forall (fun f => 2 <= f)%Z l.
Proof. intros Hl. eapply Forall_impl; [exact Hl|]. intros x [Hx _]. lia. Qed.

(** [find_downsample_factor] returns the product of a prefix of the prime
    factorisation: the longest one whose float quotients [shape / prefix]
    all come out above [output], the empty prefix counting as one. *)
Lemma find_downsample_factor_spec (shape : Z) (output : Q) :
  exists factors k,
    prime_factors shape = Ok factors /\
    Forall Z.prime factors /\ Sorted Z.le factors /\
    ((1 <= shape)%Z -> Zprod factors = shape) /\
    k <= length factors /\
    find_downsample_factor shape output = Ok (Zprod (take k factors)) /\
    (forall j, 1 <= j <= k ->
       (output < float_quot shape (Zprod (take j factors)))%Q) /\
    (k < length factors ->
       (float_quot shape (Zprod (take (S k) factors)) <= output)%Q) /\
    (Zprod (take k factors) | shape)%Z /\
    (1 <= Zprod (take k factors))%Z /\
    ((shape <= 1)%Z -> factors = []).
Proof.
  destruct (prime_factors_spec shape) as (fs & Hpf & Hpr & Hso & Hprod & Hsmall).
  pose proof (primes_ge_2 fs Hpr) as Hge.
  destruct (find_downsample_factor_loop_spec shape output fs 1)
    as (k & Hk & Hrun & Hpre & Hnext); [lia|done|].
  exists fs, k. split; [done|]. split; [done|]. split; [done|].
  split; [done|]. split; [done|].
  assert (Hone : forall x, (1 * x)%Z = x) by (intros; lia).
  setoid_rewrite Hone in Hpre. rewrite !Hone in Hnext. rewrite Hone in Hrun.
  split; [unfold find_downsample_factor; by rewrite Hpf|].
  split; [done|]. split; [done|].
  split; [|split; [|done]].
  - destruct (Z.le_gt_cases 1 shape) as [Hs|Hs].
    + pose proof (Zprod_take_divide fs k) as Hdiv.
      by rewrite (Hprod Hs) in Hdiv.
    + rewrite Hsmall by lia. rewrite take_nil. unfold Zprod. simpl.
      apply Z.divide_1_l.
  - apply Zprod_pos. by apply Forall_take.
Qed.

(** every prefix product of the factorisation is a positive divisor of the
    axis length *)
Lemma prefix_product_divides (shape : Z) (factors : list Z) (j : nat) :
  Forall Z.prime factors -> Zprod factors = shape ->
  (1 <= Zprod (take j factors))%Z /\ (Zprod (take j factors) | shape)%Z.
Proof.
  intros Hpr <-. split; [|apply Zprod_take_divide].
  apply Zprod_pos, Forall_take. by apply primes_ge_2.
Qed.

(** C3, as amended.  For an axis length up to 2^53 and a target strictly
    below it, the factor returned by [find_downsample_factor] is the
    product of a prefix of the ascending prime factorisation of the axis
    length; the quotient [shape / factor] is strictly above the target, no
    prefix product with that property is larger, and so the decimated
    length [shape // factor] is strictly above the target. *)
Theorem find_downsample_factor_largest (shape : Z) (output : Q) :
  (shape <= 2 ^ 53)%Z ->
  (output < inject_Z shape)%Q ->
  exists factors k factor,
    prime_factors shape = Ok factors /\
    Forall Z.prime factors /\ Sorted Z.le factors /\
    ((1 <= shape)%Z -> Zprod factors = shape) /\
    find_downsample_factor shape output = Ok factor /\
    k <= length factors /\ factor = Zprod (take k factors) /\
    (output < Qquot shape factor)%Q /\
    (forall j, j <= length factors ->
       (output < Qquot shape (Zprod (take j factors)))%Q ->
       (Zprod (take j factors) <= factor)%Z) /\
    (factor | shape)%Z /\
    (output < inject_Z (shape / factor))%Q.
Proof.
  intros Hbound Hlt.
  destruct (find_downsample_factor_spec shape output)
    as (fs & k & Hpf & Hpr & Hso & Hprod & Hk & Hrun & Hpre & Hnext & Hdiv & Hpos
        & Hsmall).
  exists fs, k, (Zprod (take k fs)).
  (* on a non-empty factorisation the float quotients are the exact ones *)
  assert (Hexact : forall j, fs <> [] ->
            (float_quot shape (Zprod (take j fs)) == Qquot shape (Zprod (take j fs)))%Q).
  { intros j Hne.
    assert (Hs : (1 < shape)%Z).
    { destruct (Z.le_gt_cases shape 1) as [Hs|]; [|lia]. by destruct (Hne (Hsmall Hs)). }
    destruct (prefix_product_divides shape fs j Hpr (Hprod ltac:(lia))) as [Hp Hd].
    apply float_quot_exact; [done|done|lia]. }
  assert (Habove : (output < Qquot shape (Zprod (take k fs)))%Q).
  { destruct k as [|k].
    - rewrite take_0. unfold Zprod. simpl.
      apply Qquot_lt_iff; [lia|].
      apply (proj1 (inject_Z_lt_iff shape output)) in Hlt. lia.
    - rewrite <- Hexact by (destruct fs; [simpl in Hk; lia|done]).
      apply Hpre. lia. }
  repeat (split; [done|]).
  split; [|split; [done|]].
  - intros j Hj Hjabove.
    destruct (decide (j <= k)) as [Hjk|Hjk].
    { apply Zprod_take_mono; [by apply primes_ge_2|done]. }
    assert (Hne : fs <> []) by (destruct fs; [simpl in Hj; lia|done]).
    specialize (Hnext ltac:(lia)). rewrite (Hexact (S k) Hne) in Hnext.
    assert (Hs : (1 < shape)%Z).
    { destruct (Z.le_gt_cases shape 1) as [Hs|]; [|lia]. by destruct (Hne (Hsmall Hs)). }
    pose proof (primes_ge_2 fs Hpr) as Hge.
    pose proof (Zprod_take_mono fs (S k) j Hge ltac:(lia)) as Hmono.
    destruct (prefix_product_divides shape fs (S k) Hpr (Hprod ltac:(lia)))
      as [HSk _].
    destruct (prefix_product_divides shape fs j Hpr (Hprod ltac:(lia)))
      as [Hjpos _].
    apply (proj1 (Qquot_le_iff shape (Zprod (take (S k) fs)) output ltac:(lia)))
      in Hnext.
    apply (proj1 (Qquot_lt_iff shape (Zprod (take j fs)) output ltac:(lia)))
      in Hjabove.
    pose proof (Pos2Z.is_pos (Qden output)).
    nia.
  - destruct Hdiv as [q Hq].
    apply (proj1 (Qquot_lt_iff shape (Zprod (take k fs)) output ltac:(lia)))
      in Habove.
    apply inject_Z_lt_iff.
    replace (shape / Zprod (take k fs))%Z with q
      by (rewrite Hq, Z.div_mul; lia).
    pose proof (Pos2Z.is_pos (Qden output)).
    nia.
Qed.

Lemma find_downsample_factor_largest_witness :
  exists factors k factor,
    prime_factors 100 = Ok factors /\
    Forall Z.prime factors /\ Sorted Z.le factors /\
    ((1 <= 100)%Z -> Zprod factors = 100%Z) /\
    find_downsample_factor 100 10%Q = Ok factor /\
    k <= length factors /\ factor = Zprod (take k factors) /\
    (10 < Qquot 100 factor)%Q /\
    (forall j, j <= length factors ->
       (10 < Qquot 100 (Zprod (take j factors)))%Q ->
       (Zprod (take j factors) <= factor)%Z) /\
    (factor | 100)%Z /\
    (10 < inject_Z (100 / factor))%Q.
Proof.
  apply (find_downsample_factor_largest 100 10%Q); [by vm_compute|reflexivity].
Defined.

(** C3 as stated fails above 2^53.  The axis length 2 * 3^34 has the
    factorisation [2; 3; ...; 3]; with target 3^34 - 1 the prefix [[2]]
    leaves the quotient 3^34, strictly above the target, but the float
    [shape / 2] is 3^34 rounded to binary64, which is 3^34 - 1: the test
    of line 315 fails and the factor returned is 1. *)
Lemma find_downsample_factor_rounding_counterexample :
  let shape := (2 * 3 ^ 34)%Z in
  let output := inject_Z (3 ^ 34 - 1) in
  let factors := (2 :: replicate 34 3)%Z in
  (output < inject_Z shape)%Q /\
  prime_factors shape = Ok factors /\
  float_quot shape 2 = output /\
  find_downsample_factor shape output = Ok 1%Z /\
  (output < Qquot shape (Zprod (take 1 factors)))%Q /\
  (1 < Zprod (take 1 factors))%Z.
Proof.
  cbv zeta. split; [reflexivity|].
  assert (Hpf : prime_factors (2 * 3 ^ 34) = Ok (2 :: replicate 34 3)%Z)
    by (lazy; reflexivity).
  split; [exact Hpf|]. split; [by vm_compute|].
  split; [|split; reflexivity].
  unfold find_downsample_factor. rewrite Hpf. by vm_compute.
Qed.

(** A target at or above the axis length: no factor is accumulated. *)
Lemma find_downsample_factor_noop (shape : Z) (output : Q) :
  (0 <= shape)%Z -> (inject_Z shape <= output)%Q ->
  find_downsample_factor shape output = Ok 1%Z.
Proof.
  intros Hshape Hle.
  destruct (find_downsample_factor_spec shape output)
    as (fs & k & Hpf & Hpr & Hso & Hprod & Hk & Hrun & Hpre & Hnext & Hdiv & Hpos
        & Hsmall).
  destruct k as [|k]; [by rewrite Hrun, take_0|].
  specialize (Hpre 1 ltac:(lia)).
  assert (Hs : (1 < shape)%Z).
  { destruct (Z.le_gt_cases shape 1) as [Hs|]; [|lia].
    rewrite (Hsmall Hs) in Hk. simpl in Hk. lia. }
  destruct (prefix_product_divides shape fs 1 Hpr (Hprod ltac:(lia))) as [_ Hd].
  assert (Hp1 : (2 <= Zprod (take 1 fs))%Z).
  { destruct fs as [|f fs]; [simpl in Hk; lia|].
    apply Forall_cons in Hpr as [[Hf _] _]. unfold Zprod. simpl. lia. }
  destruct (float_quot_bounds shape (Zprod (take 1 fs))) as [_ Hup];
    [lia|done|lia|].
  assert (Hfl : (output < Qquot (2 * shape) (Zprod (take 1 fs)))%Q)
    by (eapply Qlt_le_trans; [exact Hpre|exact Hup]).
  apply (proj1 (Qquot_lt_iff (2 * shape) (Zprod (take 1 fs)) output ltac:(lia)))
    in Hfl.
  apply (proj1 (inject_Z_le_iff shape output)) in Hle.
  pose proof (Pos2Z.is_pos (Qden output)).
  nia.
Qed.

(** ** downsample *)

(** Line 337 always succeeds: each factor is positive and divides its axis
    length. *)
Lemma target_size_spec {X : Type} (arr : ndarray X) (target : Q * Q) :
  exists f0 f1,
    find_downsample_factor (Z.of_nat (shape0 arr)) target.1 = Ok f0 /\
    find_downsample_factor (Z.of_nat (shape1 arr)) target.2 = Ok f1 /\
    (1 <= f0)%Z /\ (1 <= f1)%Z /\
    (f0 | Z.of_nat (shape0 arr))%Z /\ (f1 | Z.of_nat (shape1 arr))%Z /\
    target_size arr target
      = Ok (Z.of_nat (shape0 arr) / f0, Z.of_nat (shape1 arr) / f1)%Z.
Proof.
  destruct (find_downsample_factor_spec (Z.of_nat (shape0 arr)) target.1)
    as (fs0 & k0 & _ & _ & _ & _ & _ & Hrun0 & _ & _ & Hdiv0 & Hpos0 & _).
  destruct (find_downsample_factor_spec (Z.of_nat (shape1 arr)) target.2)
    as (fs1 & k1 & _ & _ & _ & _ & _ & Hrun1 & _ & _ & Hdiv1 & Hpos1 & _).
  eexists _, _. split; [exact Hrun0|]. split; [exact Hrun1|].
  repeat (split; [done|]).
  unfold target_size. rewrite Hrun0. simpl.
  rewrite py_floordiv_Ok by lia. simpl. rewrite Hrun1. simpl.
  by rewrite py_floordiv_Ok by lia.
Qed.

Lemma exact_quotient_bounds (s f : Z) :
  (0 <= s)%Z -> (1 <= f)%Z -> (f | s)%Z ->
  (0 <= s / f <= s)%Z /\ (0 < s -> 1 <= s / f /\ s / (s / f) = f)%Z.
Proof.
  intros Hs Hf [q Hq]. subst s. rewrite Z.div_mul by lia.
  split; [nia|]. intros Hpos. split; [nia|].
  rewrite Z.mul_comm, Z.div_mul; nia.
Qed.

Lemma mapM_result_Ok {A B : Type} (P : B -> Prop) (f : A -> result B)
    (l : list A) :
  (forall a, a ∈ l -> exists b, f a = Ok b /\ P b) ->
  exists bs, mapM_result f l = Ok bs /\ length bs = length l /\ Forall P bs.
Proof.
  induction l as [|a l IH]; intros Hf; simpl.
  - exists []. by repeat split.
  - destruct (Hf a) as (b & Hb & HP); [by left|]. rewrite Hb. simpl.
    destruct IH as (bs & Hbs & Hlen & HPs).
    { intros a' Ha'. apply Hf. by right. }
    rewrite Hbs. simpl. exists (b :: bs).
    split; [done|]. split; [simpl; lia|by constructor].
Qed.

Lemma mapM_result_length {A B : Type} (f : A -> result B) (l : list A)
    (bs : list B) :
  mapM_result f l = Ok bs -> length bs = length l.
Proof.
  revert bs. induction l as [|a l IH]; intros bs; simpl.
  - by intros [= <-].
  - destruct (f a) as [b| |]; simpl; try done.
    destruct (mapM_result f l) as [bs'| |]; simpl; try done.
    intros [= <-]. simpl. f_equal. by apply IH.
Qed.

Lemma length_concat_rows {X : Type} (m : ndarray X) :
  wf_ndarray m -> length (concat (rows m)) = shape0 m * shape1 m.
Proof.
  intros [Hlen Hrows]. rewrite <- Hlen. clear Hlen.
  induction Hrows as [|r rs Hr _ IH]; simpl; [done|].
  rewrite length_app, IH, Hr. lia.
Qed.

Lemma lane4_nonempty {X : Type} (x : ndarray4 X) (i r j : nat) :
  length (flat x) = dim_n0 x * dim_b0 x * dim_n1 x * dim_b1 x ->
  i < dim_n0 x -> r < dim_b0 x -> j < dim_n1 x -> 0 < dim_b1 x ->
  lane4 x i r j <> [].
Proof.
  intros Hlen Hi Hr Hj Hb1. unfold lane4, range.
  destruct (dim_b1 x) as [|b1] eqn:Hb; [lia|]. simpl.
  destruct (lookup_lt_is_Some_2 (flat x)
              (((i * dim_b0 x + r) * dim_n1 x + j) * S b1 + 0)) as [v Hv].
  { rewrite Hlen.
    assert (H1 : i * dim_b0 x + r + 1 <= dim_n0 x * dim_b0 x) by nia.
    assert (H2 : (i * dim_b0 x + r) * dim_n1 x + j + 1
                 <= dim_n0 x * dim_b0 x * dim_n1 x) by nia.
    nia. }
  by rewrite Hv.
Qed.

(** run the outermost [mapM_result] of the goal, given what each of its
    results satisfies *)
Ltac run_mapM P bs Hbs Hlen HP :=
  match goal with
  | |- context [mapM_result ?f ?l] =>
      destruct (mapM_result_Ok P f l) as (bs & Hbs & Hlen & HP);
      [|rewrite Hbs; simpl]
  end.

Lemma reduce_blocks_Ok {X : Type} (red : list X -> result X) (x : ndarray4 X) :
  total_on_nonempty red ->
  length (flat x) = dim_n0 x * dim_b0 x * dim_n1 x * dim_b1 x ->
  0 < dim_b0 x -> 0 < dim_b1 x ->
  exists out, reduce_blocks red x = Ok out /\
    shape0 out = dim_n0 x /\ shape1 out = dim_n1 x /\ wf_ndarray out.
Proof.
  intros Hred Hlen Hb0 Hb1. unfold reduce_blocks.
  run_mapM (fun row : list X => length row = dim_n1 x) rs Hrs Hlenrs Hrows.
  - intros i Hi%elem_of_range.
    run_mapM (fun _ : X => True) row Hrow Hlenrow Htriv.
    + intros j Hj%elem_of_range.
      run_mapM (fun _ : X => True) inner Hinner Hleninner Htriv.
      * intros r Hr%elem_of_range.
        destruct (Hred (lane4 x i r j)) as [v Hv];
          [by apply lane4_nonempty|].
        exists v. split; [exact Hv|done].
      * destruct (Hred inner) as [v Hv].
        { intros ->. simpl in Hleninner. unfold range in Hleninner.
          rewrite length_seq in Hleninner. lia. }
        exists v. split; [exact Hv|done].
    + eexists. split; [done|]. unfold range in Hlenrow.
      by rewrite length_seq in Hlenrow.
  - eexists. split; [done|]. split; [done|]. split; [done|].
    split; simpl; [|done]. unfold range in Hlenrs.
    by rewrite length_seq in Hlenrs.
Qed.

Lemma reduce_blocks_shape {X : Type} (red : list X -> result X)
    (x : ndarray4 X) (out : ndarray X) :
  reduce_blocks red x = Ok out ->
  shape0 out = dim_n0 x /\ shape1 out = dim_n1 x.
Proof.
  unfold reduce_blocks.
  destruct (mapM_result _ _) as [rs| |]; simpl; try done.
  by intros [= <-].
Qed.

Lemma reshape4_dims {X : Type} (arr : ndarray X) (n0 b0 n1 b1 : Z)
    (x : ndarray4 X) :
  reshape4 arr (n0, b0, n1, b1) = Ok x ->
  dim_n0 x = Z.to_nat n0 /\ dim_n1 x = Z.to_nat n1.
Proof.
  unfold reshape4. destruct (_ && _); [|done]. by intros [= <-].
Qed.

Section reductions.
Context `{FloatOps V}.

Lemma red_mean_total : total_on_nonempty (red_mean (V := V)).
Proof. intros l _. by eexists. Qed.
Lemma red_median_total : total_on_nonempty (red_median (V := V)).
Proof. intros l _. by eexists. Qed.
Lemma red_max_total : total_on_nonempty (red_max (V := V)).
Proof. intros [|v l] Hl; [done|]. by eexists. Qed.
Lemma red_min_total : total_on_nonempty (red_min (V := V)).
Proof. intros [|v l] Hl; [done|]. by eexists. Qed.
End reductions.

Section downsample.
Context `{FloatOps V}.
Implicit Types (arr out : ndarray V) (target : Q * Q) (rebin_type : string).
Local Arguments reshape4 : simpl never.
Local Arguments reduce_blocks : simpl never.

(** a recognised aggregator on an array without empty axis: the block
    reduction returns an array of the new shape *)
Lemma rebin_reduce_Ok arr (f0 f1 : Z) rebin_type :
  wf_ndarray arr -> known_rebin_type rebin_type ->
  0 < shape0 arr -> 0 < shape1 arr ->
  (1 <= f0)%Z -> (1 <= f1)%Z ->
  (f0 | Z.of_nat (shape0 arr))%Z -> (f1 | Z.of_nat (shape1 arr))%Z ->
  exists out,
    rebin_reduce arr (Z.of_nat (shape0 arr) / f0, Z.of_nat (shape1 arr) / f1)%Z
                 rebin_type = Ok (Some out) /\
    Z.of_nat (shape0 out) = (Z.of_nat (shape0 arr) / f0)%Z /\
    Z.of_nat (shape1 out) = (Z.of_nat (shape1 arr) / f1)%Z /\
    wf_ndarray out.
Proof.
  intros Hwf Hknown Hs0 Hs1 Hf0 Hf1 Hd0 Hd1.
  destruct (exact_quotient_bounds _ _ (Nat2Z.is_nonneg (shape0 arr)) Hf0 Hd0)
    as [Hn0 Hb0].
  destruct (exact_quotient_bounds _ _ (Nat2Z.is_nonneg (shape1 arr)) Hf1 Hd1)
    as [Hn1 Hb1].
  destruct Hb0 as [Hn0pos Hb0]; [lia|]. destruct Hb1 as [Hn1pos Hb1]; [lia|].
  set (n0 := (Z.of_nat (shape0 arr) / f0)%Z) in *.
  set (n1 := (Z.of_nat (shape1 arr) / f1)%Z) in *.
  assert (Hp0 : Z.of_nat (shape0 arr) = (n0 * f0)%Z).
  { destruct Hd0 as [q Hq]. unfold n0. rewrite Hq, Z.div_mul; lia. }
  assert (Hp1 : Z.of_nat (shape1 arr) = (n1 * f1)%Z).
  { destruct Hd1 as [q Hq]. unfold n1. rewrite Hq, Z.div_mul; lia. }
  unfold rebin_reduce. simpl.
  rewrite !py_floordiv_Ok by lia. simpl. rewrite Hb0, Hb1.
  assert (Hreshape : reshape4 arr (n0, f0, n1, f1)
            = Ok (mk_ndarray4 (Z.to_nat n0) (Z.to_nat f0) (Z.to_nat n1)
                              (Z.to_nat f1) (concat (rows arr)))).
  { unfold reshape4.
    destruct (Z.leb_spec 0 n0); [|lia]. destruct (Z.leb_spec 0 f0); [|lia].
    destruct (Z.leb_spec 0 n1); [|lia]. destruct (Z.leb_spec 0 f1); [|lia].
    simpl. rewrite Nat2Z.inj_mul, Hp0, Hp1.
    destruct (Z.eqb_spec (n0 * f0 * n1 * f1) (n0 * f0 * (n1 * f1))); [done|lia]. }
  set (x := mk_ndarray4 (Z.to_nat n0) (Z.to_nat f0) (Z.to_nat n1)
                        (Z.to_nat f1) (concat (rows arr))) in *.
  assert (Hblocks : forall red, total_on_nonempty red ->
            exists out, reduce_blocks red x = Ok out /\
              Z.of_nat (shape0 out) = n0 /\ Z.of_nat (shape1 out) = n1 /\
              wf_ndarray out).
  { intros red Hred.
    destruct (reduce_blocks_Ok red x Hred) as (out & Hout & H0 & H1 & Hwfo).
    - simpl. rewrite length_concat_rows by done.
      apply Nat2Z.inj. rewrite !Nat2Z.inj_mul, !Z2Nat.id by lia. lia.
    - simpl. lia.
    - simpl. lia.
    - exists out. split; [done|]. simpl in H0, H1. split; [lia|]. split; [lia|done]. }
  unfold known_rebin_type in Hknown.
  repeat (apply elem_of_cons in Hknown as [->|Hknown]);
    [| | | |by apply elem_of_nil in Hknown]; simpl; rewrite Hreshape; simpl.
  - destruct (Hblocks _ red_mean_total) as (out & -> & ?). by exists out.
  - destruct (Hblocks _ red_median_total) as (out & -> & ?). by exists out.
  - destruct (Hblocks _ red_max_total) as (out & -> & ?). by exists out.
  - destruct (Hblocks _ red_min_total) as (out & -> & ?). by exists out.
Qed.

(** whatever [rebin_reduce] returns as an array has the new shape *)
Lemma rebin_reduce_shape arr (n0 n1 : Z) rebin_type out :
  rebin_reduce arr (n0, n1) rebin_type = Ok (Some out) ->
  shape0 out = Z.to_nat n0 /\ shape1 out = Z.to_nat n1.
Proof.
  unfold rebin_reduce. simpl.
  destruct (py_floordiv _ n0) as [b0| |]; simpl; try done.
  destruct (py_floordiv _ n1) as [b1| |]; simpl; try done.
  assert (Hbranch : forall red,
            (reshape4 arr (n0, b0, n1, b1) ≫= fun x =>
               Some <$> reduce_blocks red x) = Ok (Some out) ->
            shape0 out = Z.to_nat n0 /\ shape1 out = Z.to_nat n1).
  { intros red.
    destruct (reshape4 arr (n0, b0, n1, b1)) as [x| |] eqn:Hx; simpl; try done.
    destruct (reduce_blocks red x) as [o| |] eqn:Ho; simpl; try done.
    intros [= <-].
    destruct (reshape4_dims _ _ _ _ _ _ Hx) as [<- <-].
    by apply reduce_blocks_shape in Ho. }
  repeat (destruct (String.eqb rebin_type _); [by apply Hbranch|]).
  done.
Qed.

Lemma downsample_shape arr target rebin_type out (n0 n1 : Z) :
  target_size arr target = Ok (n0, n1) ->
  downsample arr target rebin_type = Ok (Some out) ->
  Z.of_nat (shape0 out) = n0 /\ Z.of_nat (shape1 out) = n1.
Proof.
  intros Hts. destruct (target_size_spec arr target)
    as (f0 & f1 & _ & _ & Hf0 & Hf1 & Hd0 & Hd1 & Hts').
  rewrite Hts in Hts'. injection Hts' as -> ->.
  destruct (exact_quotient_bounds _ _ (Nat2Z.is_nonneg (shape0 arr)) Hf0 Hd0)
    as [Hn0 _].
  destruct (exact_quotient_bounds _ _ (Nat2Z.is_nonneg (shape1 arr)) Hf1 Hd1)
    as [Hn1 _].
  unfold downsample. rewrite Hts. simpl. unfold rebin.
  destruct (rebin_needed arr _) eqn:Hneed.
  - intros Hr. apply rebin_reduce_shape in Hr as [-> ->]. lia.
  - intros [= <-]. unfold rebin_needed in Hneed. simpl in Hneed.
    apply orb_false_iff in Hneed as [Ha Hb].
    apply Z.ltb_ge in Ha, Hb. lia.
Qed.

Lemma downsample_Ok arr target rebin_type (n0 n1 : Z) :
  wf_ndarray arr -> known_rebin_type rebin_type ->
  target_size arr target = Ok (n0, n1) ->
  (0 < shape0 arr /\ 0 < shape1 arr) \/ rebin_needed arr (n0, n1) = false ->
  exists out, downsample arr target rebin_type = Ok (Some out) /\
    Z.of_nat (shape0 out) = n0 /\ Z.of_nat (shape1 out) = n1.
Proof.
  intros Hwf Hknown Hts Hcase.
  assert (Hsome : exists out, downsample arr target rebin_type = Ok (Some out)).
  { destruct (target_size_spec arr target)
      as (f0 & f1 & _ & _ & Hf0 & Hf1 & Hd0 & Hd1 & Hts').
    rewrite Hts in Hts'. injection Hts' as -> ->.
    unfold downsample. rewrite Hts. simpl. unfold rebin.
    destruct (rebin_needed arr _) eqn:Hneed; [|by eexists].
    destruct Hcase as [[Hs0 Hs1]|]; [|done].
    destruct (rebin_reduce_Ok arr f0 f1 rebin_type) as (out & -> & _); try done.
    by eexists. }
  destruct Hsome as [out Hout]. exists out. split; [done|].
  by eapply downsample_shape.
Qed.
End downsample.

(** C2, as amended.  For every matrix and target, the factor chosen on each
    axis is the product of a prefix of the prime factorisation of the axis
    length and divides it.  Any array [downsample] returns has the shape
    [(rows // rowFactor, cols // colFactor)]; and it does return one, for a
    recognised aggregator, when no axis is empty or when no axis is
    reduced. *)
Theorem downsample_factors_and_shape `{FloatOps V} (arr : ndarray V)
    (target : Q * Q) (rebin_type : string) :
  wf_ndarray arr ->
  exists fs0 fs1 k0 k1 f0 f1,
    (prime_factors (Z.of_nat (shape0 arr)) = Ok fs0 /\
     Forall Z.prime fs0 /\ Sorted Z.le fs0 /\
     (0 < shape0 arr -> Zprod fs0 = Z.of_nat (shape0 arr)) /\
     find_downsample_factor (Z.of_nat (shape0 arr)) target.1 = Ok f0 /\
     f0 = Zprod (take k0 fs0) /\ (f0 | Z.of_nat (shape0 arr))%Z) /\
    (prime_factors (Z.of_nat (shape1 arr)) = Ok fs1 /\
     Forall Z.prime fs1 /\ Sorted Z.le fs1 /\
     (0 < shape1 arr -> Zprod fs1 = Z.of_nat (shape1 arr)) /\
     find_downsample_factor (Z.of_nat (shape1 arr)) target.2 = Ok f1 /\
     f1 = Zprod (take k1 fs1) /\ (f1 | Z.of_nat (shape1 arr))%Z) /\
    let new_shape :=
      (Z.of_nat (shape0 arr) / f0, Z.of_nat (shape1 arr) / f1)%Z in
    target_size arr target = Ok new_shape /\
    (forall out, downsample arr target rebin_type = Ok (Some out) ->
       Z.of_nat (shape0 out) = new_shape.1 /\
       Z.of_nat (shape1 out) = new_shape.2) /\
    (known_rebin_type rebin_type ->
     (0 < shape0 arr /\ 0 < shape1 arr) \/ rebin_needed arr new_shape = false ->
     exists out, downsample arr target rebin_type = Ok (Some out) /\
       Z.of_nat (shape0 out) = new_shape.1 /\
       Z.of_nat (shape1 out) = new_shape.2).
Proof.
  intros Hwf.
  destruct (find_downsample_factor_spec (Z.of_nat (shape0 arr)) target.1)
    as (fs0 & k0 & Hpf0 & Hpr0 & Hso0 & Hprod0 & _ & Hrun0 & _ & _ & Hdiv0 & Hpos0
        & _).
  destruct (find_downsample_factor_spec (Z.of_nat (shape1 arr)) target.2)
    as (fs1 & k1 & Hpf1 & Hpr1 & Hso1 & Hprod1 & _ & Hrun1 & _ & _ & Hdiv1 & Hpos1
        & _).
  exists fs0, fs1, k0, k1, (Zprod (take k0 fs0)), (Zprod (take k1 fs1)).
  split; [repeat (split; [done|]); split; [intros; apply Hprod0; lia|done]|].
  split; [repeat (split; [done|]); split; [intros; apply Hprod1; lia|done]|].
  assert (Hts : target_size arr target
            = Ok (Z.of_nat (shape0 arr) / Zprod (take k0 fs0),
                  Z.of_nat (shape1 arr) / Zprod (take k1 fs1))%Z).
  { unfold target_size. rewrite Hrun0. simpl.
    rewrite py_floordiv_Ok by lia. simpl. rewrite Hrun1. simpl.
    by rewrite py_floordiv_Ok by lia. }
  simpl. split; [done|]. split.
  - intros out Hout. by eapply downsample_shape.
  - intros Hknown Hcase. by eapply downsample_Ok.
Qed.

Lemma known_min : known_rebin_type "min".
Proof. unfold known_rebin_type. set_solver. Defined.

Lemma known_max : known_rebin_type "max".
Proof. unfold known_rebin_type. set_solver. Defined.

Lemma blocks44_wf : wf_ndarray blocks44.
Proof. split; [reflexivity | repeat constructor]. Defined.

Lemma downsample_factors_and_shape_witness :
  exists f0 f1 out,
    find_downsample_factor 4 1%Q = Ok f0 /\ (f0 | 4)%Z /\
    find_downsample_factor 4 1%Q = Ok f1 /\ (f1 | 4)%Z /\
    downsample blocks44 (1%Q, 1%Q) "max" = Ok (Some out) /\
    Z.of_nat (shape0 out) = (4 / f0)%Z /\ Z.of_nat (shape1 out) = (4 / f1)%Z.
Proof.
  destruct (downsample_factors_and_shape blocks44 (1%Q, 1%Q) "max")
    as (fs0 & fs1 & k0 & k1 & f0 & f1 & Hax0 & Hax1 & _ & _ & Hreturns).
  - exact blocks44_wf.
  - destruct Hax0 as (_ & _ & _ & _ & Hf0 & _ & Hd0).
    destruct Hax1 as (_ & _ & _ & _ & Hf1 & _ & Hd1).
    destruct Hreturns as (out & Hout & Hs0 & Hs1).
    + exact known_max.
    + left. simpl. lia.
    + exists f0, f1, out. repeat split; assumption.
Defined.

Example downsample_blocks44_max :
  downsample blocks44 (1%Q, 1%Q) "max"
  = Ok (Some (mk_ndarray 2 2 [[1; 2]; [3; 4]]%Q)).
Proof. reflexivity. Qed.

Example downsample_blocks44_min :
  downsample blocks44 (1%Q, 1%Q) "min"
  = Ok (Some (mk_ndarray 2 2 [[1; 2]; [3; 4]]%Q)).
Proof. reflexivity. Qed.

Example find_downsample_factor_100 :
  prime_factors 100 = Ok [2; 2; 5; 5]%Z /\
  find_downsample_factor 100 10%Q = Ok 4%Z.
Proof. split; reflexivity. Qed.

(** C2 as stated fails: on a 0 x 4 matrix with target (1, 1) the column
    axis is reduced, and the block size of the empty row axis is [0 // 0]:
    [downsample] raises [ZeroDivisionError] and has no output shape. *)
Lemma downsample_empty_axis_counterexample :
  wf_ndarray empty04 /\
  target_size empty04 (1%Q, 1%Q) = Ok (0, 2)%Z /\
  downsample empty04 (1%Q, 1%Q) "mean" = Raise ZeroDivisionError.
Proof. split; [split; [reflexivity|constructor]|]. split; reflexivity. Qed.

(** C6: the code at the failing input.  When an axis must be reduced and
    [rebin_type] is none of the four recognised names, the [if]/[elif]
    chain of [rebin] falls through and [downsample] returns [None]: no
    error is raised. *)
Theorem downsample_unknown_rebin_type `{FloatOps V} (arr : ndarray V)
    (target : Q * Q) (rebin_type : string) (new_shape : Z * Z) :
  0 < shape0 arr -> 0 < shape1 arr ->
  ~ known_rebin_type rebin_type ->
  target_size arr target = Ok new_shape ->
  rebin_needed arr new_shape = true ->
  downsample arr target rebin_type = Ok None.
Proof.
  intros Hs0 Hs1 Hunknown Hts Hneed.
  destruct (target_size_spec arr target)
    as (f0 & f1 & _ & _ & Hf0 & Hf1 & Hd0 & Hd1 & Hts').
  rewrite Hts in Hts'. injection Hts' as ->.
  destruct (exact_quotient_bounds _ _ (Nat2Z.is_nonneg (shape0 arr)) Hf0 Hd0)
    as [_ [Hn0 _]]; [lia|].
  destruct (exact_quotient_bounds _ _ (Nat2Z.is_nonneg (shape1 arr)) Hf1 Hd1)
    as [_ [Hn1 _]]; [lia|].
  unfold downsample. rewrite Hts. simpl. unfold rebin. rewrite Hneed.
  unfold rebin_reduce. cbn [fst snd]. rewrite !py_floordiv_Ok by lia.
  cbn [mbind result_bind].
  unfold known_rebin_type in Hunknown.
  repeat match goal with
         | |- context [String.eqb rebin_type ?s] =>
             destruct (String.eqb_spec rebin_type s) as [->|_];
             [destruct Hunknown; set_solver|]
         end.
  done.
Qed.

Lemma downsample_unknown_rebin_type_witness :
  downsample blocks44 (1%Q, 1%Q) "sum" = Ok None.
Proof.
  apply (downsample_unknown_rebin_type blocks44 (1%Q, 1%Q) "sum" (2, 2)%Z).
  - simpl. lia.
  - simpl. lia.
  - unfold known_rebin_type. intros Hin.
    repeat (apply elem_of_cons in Hin as [Hin|Hin]; [discriminate|]).
    by apply elem_of_nil in Hin.
  - reflexivity.
  - reflexivity.
Defined.

(** C9, as amended.  On an axis whose target is at or above its length the
    factor is 1 and the new length of line 337 is the old one; any array
    [downsample] returns keeps that axis length; and it does return one,
    for a recognised aggregator, when no axis is empty or when no axis is
    reduced. *)
Theorem downsample_noop_axis `{FloatOps V} (arr : ndarray V)
    (target : Q * Q) (rebin_type : string) (ax : axis) :
  wf_ndarray arr ->
  (inject_Z (Z.of_nat (on_axis ax (shape arr))) <= on_axis ax target)%Q ->
  find_downsample_factor (Z.of_nat (on_axis ax (shape arr))) (on_axis ax target)
    = Ok 1%Z /\
  (forall out, downsample arr target rebin_type = Ok (Some out) ->
     on_axis ax (shape out) = on_axis ax (shape arr)) /\
  exists new_shape,
    target_size arr target = Ok new_shape /\
    on_axis ax new_shape = Z.of_nat (on_axis ax (shape arr)) /\
    (known_rebin_type rebin_type ->
     (0 < shape0 arr /\ 0 < shape1 arr) \/ rebin_needed arr new_shape = false ->
     exists out, downsample arr target rebin_type = Ok (Some out) /\
       on_axis ax (shape out) = on_axis ax (shape arr)).
Proof.
  intros Hwf Hle.
  destruct (target_size_spec arr target)
    as (f0 & f1 & Hrun0 & Hrun1 & _ & _ & _ & _ & Hts).
  pose proof (find_downsample_factor_noop _ _ (Nat2Z.is_nonneg _) Hle) as Hone.
  split; [done|].
  assert (Hnew : on_axis ax (Z.of_nat (shape0 arr) / f0, Z.of_nat (shape1 arr) / f1)%Z
                 = Z.of_nat (on_axis ax (shape arr))).
  { destruct ax; simpl in *.
    - rewrite Hone in Hrun0. injection Hrun0 as <-. apply Z.div_1_r.
    - rewrite Hone in Hrun1. injection Hrun1 as <-. apply Z.div_1_r. }
  assert (Hkeep : forall out, downsample arr target rebin_type = Ok (Some out) ->
                    on_axis ax (shape out) = on_axis ax (shape arr)).
  { intros out Hout.
    destruct (downsample_shape _ _ _ _ _ _ Hts Hout) as [H0 H1].
    destruct ax; simpl in *; lia. }
  split; [done|].
  eexists. split; [exact Hts|]. split; [done|].
  intros Hknown Hcase.
  destruct (downsample_Ok _ _ _ _ _ Hwf Hknown Hts Hcase) as (out & Hout & _).
  exists out. split; [done|]. by apply Hkeep.
Qed.

Lemma downsample_noop_axis_witness :
  find_downsample_factor 4 10%Q = Ok 1%Z /\
  exists out, downsample blocks44 (10%Q, 1%Q) "min" = Ok (Some out) /\
    shape0 out = 4.
Proof.
  destruct (downsample_noop_axis blocks44 (10%Q, 1%Q) "min" Axis0)
    as (Hone & _ & ns & _ & _ & Hreturns).
  - exact blocks44_wf.
  - by vm_compute.
  - split; [exact Hone|]. apply Hreturns.
    + exact known_min.
    + left. simpl. lia.
Defined.

(** C9 as stated fails: on a 6 x 0 matrix with target (2, 5) the column
    axis has target 5 >= 0 and factor 1, but the row axis is reduced and
    the block size of the empty axis is [0 // 0]: [downsample] raises
    [ZeroDivisionError] and returns no array. *)
Lemma downsample_noop_empty_axis_counterexample :
  wf_ndarray empty60 /\
  (inject_Z (Z.of_nat (shape1 empty60)) <= 5)%Q /\
  find_downsample_factor (Z.of_nat (shape1 empty60)) 5%Q = Ok 1%Z /\
  downsample empty60 (2%Q, 5%Q) "mean" = Raise ZeroDivisionError.
Proof.
  split; [split; [reflexivity|repeat constructor]|].
  split; [by vm_compute|]. split; reflexivity.
Qed.

(** ** Object identity *)

Lemma alloc_fresh {V : Type} (σ : store V) (a : ndarray V) :
  σ !! (alloc σ a).1 = None /\ (alloc σ a).2 !! (alloc σ a).1 = Some a /\
  forall l' a', σ !! l' = Some a' -> (alloc σ a).2 !! l' = Some a'.
Proof.
  unfold alloc. simpl.
  assert (Hfresh : σ !! fresh (dom σ) = None).
  { apply not_elem_of_dom. apply is_fresh. }
  split; [done|]. split; [apply lookup_insert_eq|].
  intros l' a' Hl'. rewrite lookup_insert_ne; [done|]. congruence.
Qed.

(** C8, as amended.  [downsample] never writes to an existing array: every
    object of the store, the input among them, is unchanged, whatever the
    outcome.  When no axis is reduced it returns the input reference
    itself and allocates nothing, for every [rebin_type].  When an axis is
    reduced, [rebin_type] is recognised and no axis is empty, it returns a
    reference that was not allocated before, to the array that the block
    reduction computes. *)
Theorem downsample_st_frame `{FloatOps V} (σ : store V) (l : loc)
    (arr : ndarray V) (target : Q * Q) (rebin_type : string) :
  σ !! l = Some arr ->
  exists r σ' new_shape,
    downsample_st σ l target rebin_type = Some (r, σ') /\
    target_size arr target = Ok new_shape /\
    (* no existing array is written *)
    (forall l' a', σ !! l' = Some a' -> σ' !! l' = Some a') /\
    (* no axis reduced: the input object is returned *)
    (rebin_needed arr new_shape = false -> r = Ok (Some l) /\ σ' = σ) /\
    (* an axis reduced: a new object is returned *)
    (rebin_needed arr new_shape = true ->
     wf_ndarray arr -> known_rebin_type rebin_type ->
     0 < shape0 arr -> 0 < shape1 arr ->
     exists l_out out,
       r = Ok (Some l_out) /\ σ !! l_out = None /\ l_out <> l /\
       rebin_reduce arr new_shape rebin_type = Ok (Some out) /\
       σ' = <[l_out := out]> σ).
Proof.
  intros Hl.
  destruct (target_size_spec arr target)
    as (f0 & f1 & _ & _ & Hf0 & Hf1 & Hd0 & Hd1 & Hts).
  unfold downsample_st, rebin_st. rewrite Hl. simpl. rewrite Hts. simpl.
  destruct (rebin_needed arr _) eqn:Hneed.
  - destruct (rebin_reduce arr _ rebin_type) as [[out|]|e|] eqn:Hred.
    + destruct (alloc_fresh σ out) as (Hnew & Hout & Hframe).
      unfold alloc in Hnew, Hout, Hframe. simpl in Hnew, Hout, Hframe.
      eexists _, _, _. split; [done|]. split; [done|]. split; [done|].
      split; [intros; congruence|]. intros _ _ _ _ _.
      eexists _, out. split; [done|]. split; [done|].
      split; [congruence|done].
    + eexists _, _, _. split; [done|]. split; [done|]. split; [done|].
      split; [intros; congruence|]. intros _ Hwf Hknown Hs0 Hs1.
      destruct (rebin_reduce_Ok arr f0 f1 rebin_type) as (out & Hout & _);
        try done. congruence.
    + eexists _, _, _. split; [done|]. split; [done|]. split; [done|].
      split; [intros; congruence|]. intros _ Hwf Hknown Hs0 Hs1.
      destruct (rebin_reduce_Ok arr f0 f1 rebin_type) as (out & Hout & _);
        try done. congruence.
    + eexists _, _, _. split; [done|]. split; [done|]. split; [done|].
      split; [intros; congruence|]. intros _ Hwf Hknown Hs0 Hs1.
      destruct (rebin_reduce_Ok arr f0 f1 rebin_type) as (out & Hout & _);
        try done. congruence.
  - eexists _, _, _. split; [done|]. split; [done|]. split; [done|].
    split; [done|]. intros; congruence.
Qed.

Lemma downsample_st_frame_witness :
  exists l_out out,
    downsample_st {[ 0 := blocks44 ]} 0 (1%Q, 1%Q) "mean"
      = Some (Ok (Some l_out), <[l_out := out]> {[ 0 := blocks44 ]}) /\
    l_out <> 0 /\
    rebin_reduce blocks44 (2, 2)%Z "mean" = Ok (Some out) /\
    (<[l_out := out]> {[ 0 := blocks44 ]} : store Q) !! 0 = Some blocks44.
Proof.
  destruct (downsample_st_frame {[ 0 := blocks44 ]} 0 blocks44 (1%Q, 1%Q) "mean")
    as (r & σ' & new_shape & Hrun & Hts & Hframe & _ & Hnew).
  - reflexivity.
  - assert (new_shape = (2, 2)%Z) as -> by (vm_compute in Hts; congruence).
    destruct Hnew as (l_out & out & -> & Hfresh & Hne & Hred & ->).
    + reflexivity.
    + exact blocks44_wf.
    + unfold known_rebin_type. set_solver.
    + simpl. lia.
    + simpl. lia.
    + exists l_out, out. split; [exact Hrun|]. split; [exact Hne|].
      split; [exact Hred|]. apply Hframe. reflexivity.
Defined.

(** C8 as stated fails: with a target no smaller than the matrix,
    [downsample] hands back the reference it was given, not a new array;
    the clamping of line 357 then writes into the caller's matrix. *)
Lemma downsample_st_alias_counterexample :
  downsample_st {[ 0 := negative22 ]} 0 (2%Q, 2%Q) "mean"
    = Some (Ok (Some 0), {[ 0 := negative22 ]}) /\
  exists σ', plotAshInvMatrix_st {[ 0 := negative22 ]} 0 (2%Q, 2%Q) true "mean"
               = Some (Ok 0, σ') /\
             σ' !! 0 = Some clamped22 /\ clamped22 <> negative22.
Proof.
  split; [reflexivity|].
  eexists. split; [reflexivity|]. split; [reflexivity|]. discriminate.
Qed.

(** * Further properties of the code *)

(** ** expandVariable: shape and errors *)

Lemma for_in_preserves {I S : Type} (P : S -> Prop)
    (body : I -> S -> result S) (l : list I) :
  (forall i s s', P s -> body i s = Ok s' -> P s') ->
  forall s s', P s -> for_in l body s = Ok s' -> P s'.
Proof.
  intros Hstep. induction l as [|i l IH]; intros s s' Hs; simpl.
  - by intros [= <-].
  - destruct (body i s) as [s1| |] eqn:Hb; simpl; try done.
    apply IH. by eapply Hstep.
Qed.

Lemma for_in_raises_only {I S : Type} (body : I -> S -> result S) (l : list I) :
  (forall i s, raises_only_IndexError (body i s)) ->
  forall s, raises_only_IndexError (for_in l body s).
Proof.
  intros Hbody. induction l as [|i l IH]; intros s; simpl; [done|].
  specialize (Hbody i s). destruct (body i s) as [s1| |]; simpl; [apply IH|done|done].
Qed.

(** a loop with an iteration that fails in every state fails *)
Lemma for_in_fails {I S : Type} (body : I -> S -> result S) (l : list I)
    (i0 : I) :
  i0 ∈ l ->
  (forall s, body i0 s = Raise IndexError) ->
  (forall i s, raises_only_IndexError (body i s)) ->
  forall s, for_in l body s = Raise IndexError.
Proof.
  intros Hin Hfail Hbody. induction l as [|i l IH]; intros s.
  - by apply elem_of_nil in Hin.
  - simpl. apply elem_of_cons in Hin as [<-|Hin].
    + by rewrite Hfail.
    + specialize (Hbody i s).
      destruct (body i s) as [s1|e|]; simpl in *;
        [by apply IH|by rewrite Hbody|done].
Qed.

Lemma getitem2_raises_only {X : Type} (m : ndarray X) (a t : nat) :
  raises_only_IndexError (getitem2 m a t).
Proof.
  unfold getitem2. destruct (_ && _); [|done]. by destruct (cell m a t).
Qed.

Lemma getitem1_raises_only {X : Type} (v : list X) (i : Z) :
  raises_only_IndexError (getitem1 v i).
Proof.
  unfold getitem1. destruct (_ && _); [|done]. by destruct (v !! _).
Qed.

Lemma setitem2_raises_only {X : Type} (m : ndarray X) (a t : nat) (x : X) :
  raises_only_IndexError (setitem2 m a t x).
Proof.
  unfold setitem2. destruct (_ && _); [|done]. by destruct (rows m !! a).
Qed.

Lemma setitem2_keeps_shape {X : Type} (m m' : ndarray X) (a t : nat) (x : X) :
  wf_ndarray m -> setitem2 m a t x = Ok m' ->
  wf_ndarray m' /\ shape m' = shape m.
Proof.
  intros Hwf. unfold setitem2.
  destruct ((a <? shape0 m) && (t <? shape1 m)) eqn:Hin; [|done].
  apply andb_true_iff in Hin as [Ha%Nat.ltb_lt Ht%Nat.ltb_lt].
  destruct (setitem2_Ok m a t x Hwf Ha Ht) as (m1 & Hset & Hwf1 & H0 & H1 & _).
  unfold setitem2 in Hset.
  destruct (Nat.ltb_spec a (shape0 m)); [|lia].
  destruct (Nat.ltb_spec t (shape1 m)); [|lia]. simpl in Hset.
  rewrite Hset. intros [= <-]. split; [done|]. unfold shape. by rewrite H0, H1.
Qed.

Section expand_outcome.
Context {V : Type}.
Variables (oi : ndarray Z) (variable : list V).

(** the body of the loops (lines 113-115) *)
Let body (t a : nat) (x : ndarray (option V)) : result (ndarray (option V)) :=
  emis_index ← getitem2 oi a t;
  if (emis_index >=? 0)%Z then
    v ← getitem1 variable emis_index; setitem2 x a t (Some v)
  else Ok x.

Lemma expand_body_raises_only (t a : nat) (x : ndarray (option V)) :
  raises_only_IndexError (body t a x).
Proof.
  unfold body. pose proof (getitem2_raises_only oi a t) as H2.
  destruct (getitem2 oi a t) as [i| |]; simpl; try done.
  destruct (i >=? 0)%Z; [|done].
  pose proof (getitem1_raises_only variable i) as H1.
  destruct (getitem1 variable i) as [v| |]; simpl; try done.
  apply setitem2_raises_only.
Qed.

Lemma expand_body_keeps_shape (t a : nat) (x x' : ndarray (option V)) :
  wf_ndarray x /\ shape x = shape oi -> body t a x = Ok x' ->
  wf_ndarray x' /\ shape x' = shape oi.
Proof.
  intros [Hwf Hshape]. unfold body.
  destruct (getitem2 oi a t) as [i| |]; simpl; try done.
  destruct (i >=? 0)%Z; [|by intros [= <-]].
  destruct (getitem1 variable i) as [v| |]; simpl; try done.
  intros Hset. destruct (setitem2_keeps_shape _ _ _ _ _ Hwf Hset) as [Hwf' Hs].
  split; [done|congruence].
Qed.

(** a cell outside the table, or whose index is beyond the values, makes
    the body fail whatever the field built so far *)
Lemma expand_body_fails (t a : nat) :
  wf_ndarray oi ->
  shape0 oi <= a \/ shape1 oi <= t \/
    (exists i, cell oi a t = Some i /\ (Z.of_nat (length variable) <= i)%Z) ->
  forall x, body t a x = Raise IndexError.
Proof.
  intros Hwf Hbad x. unfold body.
  destruct (decide (a < shape0 oi /\ t < shape1 oi)) as [[Ha Ht]|Hout].
  - destruct Hbad as [?|[?|(i & Hi & Hlen)]]; [lia|lia|].
    destruct (getitem2_Ok oi a t Hwf Ha Ht) as (i' & Hi' & ->).
    assert (i' = i) as -> by congruence. simpl.
    destruct (Z.geb_spec i 0); [|lia].
    unfold getitem1. destruct (Z.ltb_spec i 0); [lia|].
    destruct (Z.ltb_spec i (Z.of_nat (length variable))); [lia|].
    by rewrite andb_false_r.
  - unfold getitem2.
    destruct (Nat.ltb_spec a (shape0 oi)); destruct (Nat.ltb_spec t (shape1 oi));
      simpl; try done. tauto.
Qed.

Lemma expandVariable_keeps_shape {T H : Type} (emission_times : list T)
    (level_heights : list H) (x : ndarray (option V)) :
  expandVariable emission_times level_heights oi variable = Ok x ->
  wf_ndarray x /\ shape x = shape oi.
Proof.
  unfold expandVariable.
  apply (for_in_preserves (fun x => wf_ndarray x /\ shape x = shape oi)).
  - intros t s s' Hs.
    apply (for_in_preserves (fun x => wf_ndarray x /\ shape x = shape oi));
      [|done].
    intros a s0 s1. apply (expand_body_keeps_shape t a).
  - split; [apply masked_all_wf|done].
Qed.

Lemma expandVariable_fails {T H : Type} (emission_times : list T)
    (level_heights : list H) (a t : nat) :
  wf_ndarray oi ->
  a < length level_heights -> t < length emission_times ->
  shape0 oi <= a \/ shape1 oi <= t \/
    (exists i, cell oi a t = Some i /\ (Z.of_nat (length variable) <= i)%Z) ->
  expandVariable emission_times level_heights oi variable = Raise IndexError.
Proof.
  intros Hwf Ha Ht Hbad. unfold expandVariable.
  apply (for_in_fails _ _ t).
  - by apply elem_of_range.
  - intros x. apply (for_in_fails _ _ a).
    + by apply elem_of_range.
    + by apply (expand_body_fails t a).
    + intros a' x'. apply (expand_body_raises_only t a').
  - intros t' x. apply for_in_raises_only.
    intros a' x'. apply (expand_body_raises_only t' a').
Qed.
End expand_outcome.

(** X1.  If a cell that the loops visit lies outside the index table, or
    holds an index at or beyond [len(variable)], [expandVariable] raises
    [IndexError]: the index is neither clamped nor skipped. *)
Theorem expandVariable_index_error {T H V : Type} (emission_times : list T)
    (level_heights : list H) (oi : ndarray Z) (variable : list V) (a t : nat) :
  wf_ndarray oi ->
  a < length level_heights -> t < length emission_times ->
  shape0 oi <= a \/ shape1 oi <= t \/
    (exists i, cell oi a t = Some i /\ (Z.of_nat (length variable) <= i)%Z) ->
  expandVariable emission_times level_heights oi variable = Raise IndexError.
Proof. apply expandVariable_fails. Qed.

Lemma expandVariable_index_error_witness :
  expandVariable two_times two_heights full_index [5; 6; 7]%Q = Raise IndexError.
Proof.
  apply (expandVariable_index_error two_times two_heights full_index
           [5; 6; 7]%Q 1 1).
  - exact full_index_wf.
  - simpl. lia.
  - simpl. lia.
  - right. right. exists 3%Z. split; [reflexivity|simpl; lia].
Defined.

(** X2.  Whenever [expandVariable] returns, the field is a rectangular
    array of exactly the shape of the index table, whatever the lengths of
    the label arrays and whatever the indices. *)
Theorem expandVariable_shape {T H V : Type} (emission_times : list T)
    (level_heights : list H) (oi : ndarray Z) (variable : list V)
    (x : ndarray (option V)) :
  expandVariable emission_times level_heights oi variable = Ok x ->
  wf_ndarray x /\ shape x = shape oi.
Proof. apply expandVariable_keeps_shape. Qed.

Lemma expandVariable_shape_witness :
  wf_ndarray (mk_ndarray 2 2 [[None; Some 5]; [Some 7; None]]%Q) /\
  shape (mk_ndarray 2 2 [[None; Some 5]; [Some 7; None]]%Q) = shape sparse_index.
Proof.
  apply (expandVariable_shape two_times two_heights sparse_index [5; 7]%Q).
  reflexivity.
Defined.

(** ** Pruning keeps the record consistent *)

Lemma py_max_elem (l : list nat) (m : nat) : py_max l = Ok m -> m ∈ l.
Proof.
  destruct l as [|x l]; [done|]. simpl. intros [= <-]. apply foldl_max_spec.
Qed.

Lemma py_slice_length {X : Type} (start stop : option Z) (l : list X) :
  length (py_slice start stop l)
  = (slice_bounds (length l) start stop).2 - (slice_bounds (length l) start stop).1.
Proof.
  unfold py_slice.
  pose proof (slice_bounds_le (length l) start stop) as Hle.
  destruct (slice_bounds (length l) start stop) as [s e]. simpl in *.
  rewrite length_take, length_drop. lia.
Qed.

Lemma slice2_shape_bounds {X : Type} (m : ndarray X) (stop0 start1 stop1 : option Z) :
  shape0 (slice2 m stop0 start1 stop1)
  = (slice_bounds (shape0 m) None stop0).2 /\
  shape1 (slice2 m stop0 start1 stop1)
  = (slice_bounds (shape1 m) start1 stop1).2 - (slice_bounds (shape1 m) start1 stop1).1.
Proof. unfold slice2. simpl. split; [lia|done]. Qed.

(** what line 91 computes when the block returns *)
Lemma readJson_bounds_elevations `{FloatOps V} (jd : json_data V) (prune_zero : V)
    (times_min times_max : option Z) (b : prune_bounds) :
  fields_wf jd ->
  readJson_bounds jd prune_zero times_min times_max = Ok b ->
  exists lastRow,
    row_passes (a_priori jd) (a_posteriori jd) prune_zero lastRow = true /\
    valid_elevations b = lastRow + 1.
Proof.
  intros Hwf. unfold readJson_bounds.
  destruct (Nat.eq_dec (shape1 (a_priori jd)) 0) as [H0|Hne].
  { by rewrite (row_mask_degenerate jd prune_zero H0). }
  destruct (row_mask_Ok jd prune_zero Hwf Hne) as (rm & -> & Hrows). simpl.
  destruct (py_max (flatnonzero rm)) as [lastRow| |] eqn:Hmax; simpl; try done.
  apply py_max_elem, Hrows in Hmax.
  destruct (col_mask jd prune_zero) as [cm| |]; simpl; try done.
  destruct (match times_min with Some v => Ok v | None => _ end) as [lo| |];
    simpl; try done.
  destruct (match times_max with Some v => Ok v | None => _ end) as [hi| |];
    simpl; try done.
  intros [= <-]. by exists lastRow.
Qed.

Lemma readJson_prune_keeps_consistent `{FloatOps V} (jd jd' : json_data V)
    (prune_zero : V) (times_min times_max : option Z) :
  record_consistent jd ->
  readJson_prune jd prune_zero times_min times_max = Ok jd' ->
  record_consistent jd' /\
  1 <= shape0 (a_priori jd') <= shape0 (a_priori jd) /\
  shape1 (a_priori jd') <= shape1 (a_priori jd).
Proof.
  intros (Hwf & Hwfoi & Hoi & Hlh & Het). unfold readJson_prune.
  destruct (readJson_bounds jd prune_zero times_min times_max) as [b| |] eqn:Hb;
    simpl; try done.
  intros [= <-].
  destruct (readJson_bounds_elevations jd prune_zero _ _ b Hwf Hb)
    as (lastRow & Hlast & Hve).
  destruct (row_passes_lt jd prune_zero Hwf lastRow Hlast) as [Hlt _].
  pose proof Hwf as (HwfA & HwfB & Hs0 & Hs1).
  unfold shape in Hoi. injection Hoi as Ho0 Ho1.
  unfold readJson_crop. cbv zeta.
  cbn [a_priori a_posteriori ordering_index level_heights emission_times].
  set (ve := Some (Z.of_nat (valid_elevations b))).
  set (lo := Some (valid_times_min b)). set (hi := Some (valid_times_max b)).
  destruct (slice2_shape_bounds (a_priori jd) ve lo hi) as [HA0 HA1].
  destruct (slice2_shape_bounds (a_posteriori jd) ve lo hi) as [HB0 HB1].
  destruct (slice2_shape_bounds (ordering_index jd) ve lo hi) as [HO0 HO1].
  pose proof (slice_bounds_le (shape1 (a_priori jd)) lo hi) as Hle1.
  assert (Hve0 : (slice_bounds (shape0 (a_priori jd)) None ve).2
                 = valid_elevations b).
  { unfold ve, slice_bounds. simpl. rewrite slice_adjust_nat. lia. }
  unfold record_consistent, fields_wf, shape.
  cbn [a_priori a_posteriori ordering_index level_heights emission_times].
  split; [|rewrite HA0, HA1, Hve0; lia].
  split.
  { split; [by apply slice2_wf|]. split; [by apply slice2_wf|].
    rewrite HA0, HA1, HB0, HB1, Hs0, Hs1. done. }
  split; [by apply slice2_wf|].
  split; [rewrite HA0, HA1, HO0, HO1, Ho0, Ho1; done|].
  split.
  - rewrite py_slice_length, HA0, Hlh. simpl. lia.
  - rewrite py_slice_length, HA1, Het. done.
Qed.

(** X3.  The pruning block keeps a consistent record consistent for any
    time bounds the caller supplies (negative, inverted or out of range):
    both fields and the index table keep one common shape, and the
    elevation heights and timestamps keep one entry per row and per
    column.  At least one row is kept and no axis grows. *)
Theorem readJson_prune_consistent `{FloatOps V} (jd jd' : json_data V)
    (prune_zero : V) (times_min times_max : option Z) :
  record_consistent jd ->
  readJson_prune jd prune_zero times_min times_max = Ok jd' ->
  record_consistent jd' /\
  1 <= shape0 (a_priori jd') <= shape0 (a_priori jd) /\
  shape1 (a_priori jd') <= shape1 (a_priori jd).
Proof. apply readJson_prune_keeps_consistent. Qed.

Lemma record3_consistent : record_consistent record3.
Proof.
  split; [exact record3_wf|].
  split; [split; [reflexivity|repeat constructor]|]. by repeat split.
Defined.

Lemma readJson_prune_consistent_witness :
  record_consistent (readJson_crop record3 (mk_prune_bounds 2 (-2) 7)) /\
  1 <= shape0 (a_priori (readJson_crop record3 (mk_prune_bounds 2 (-2) 7))) <= 3 /\
  shape1 (a_priori (readJson_crop record3 (mk_prune_bounds 2 (-2) 7))) <= 3.
Proof.
  apply (readJson_prune_consistent record3 _ 0%Q (Some (-2)%Z) (Some 7%Z)).
  - exact record3_consistent.
  - reflexivity.
Defined.

(** X4.  When the label arrays have the lengths of the index table's axes,
    whatever [readJson] returns, pruned or not and for any bounds, is a
    consistent record. *)
Theorem readJson_consistent `{FloatOps V} (emission_times : list Z)
    (level_heights : list V) (oi : ndarray Z) (a_priori_2d a_posteriori_2d : list V)
    (prune : bool) (prune_zero : V) (times_min times_max : option Z)
    (jd : json_data V) :
  wf_ndarray oi ->
  length level_heights = shape0 oi -> length emission_times = shape1 oi ->
  readJson emission_times level_heights oi a_priori_2d a_posteriori_2d
           prune prune_zero times_min times_max = Ok jd ->
  record_consistent jd.
Proof.
  intros Hwf HA HT. unfold readJson.
  destruct (expandVariable _ _ oi a_posteriori_2d) as [post| |] eqn:Hpost;
    simpl; try done.
  destruct (expandVariable _ _ oi a_priori_2d) as [pri| |] eqn:Hpri;
    simpl; try done.
  destruct (expandVariable_keeps_shape _ _ _ _ _ Hpost) as [Hwfpost Hspost].
  destruct (expandVariable_keeps_shape _ _ _ _ _ Hpri) as [Hwfpri Hspri].
  unfold shape in Hspost, Hspri.
  injection Hspost as Hp0 Hp1. injection Hspri as Hq0 Hq1.
  assert (Hcons : record_consistent
            (mk_json_data emission_times level_heights oi pri post)).
  { unfold record_consistent, fields_wf, shape. simpl.
    rewrite Hp0, Hp1, Hq0, Hq1. done. }
  destruct prune.
  - intros Hprune.
    by destruct (readJson_prune_keeps_consistent _ _ _ _ _ Hcons Hprune).
  - by intros [= <-].
Qed.

Lemma sparse_index_wf : wf_ndarray sparse_index.
Proof. split; [reflexivity | repeat constructor]. Defined.

Lemma readJson_consistent_witness : record_consistent sparse_record.
Proof.
  apply (readJson_consistent two_times two_heights sparse_index
           [0; 0]%Q [5; 7]%Q true 0%Q None None).
  - exact sparse_index_wf.
  - reflexivity.
  - reflexivity.
  - reflexivity.
Defined.

(** ** downsample: edge cases of the factor search *)

Lemma downsample_returns_input `{FloatOps V} (arr : ndarray V) (target : Q * Q)
    (rebin_type : string) :
  (inject_Z (Z.of_nat (shape0 arr)) <= target.1)%Q ->
  (inject_Z (Z.of_nat (shape1 arr)) <= target.2)%Q ->
  downsample arr target rebin_type = Ok (Some arr).
Proof.
  intros H0 H1. unfold downsample, target_size.
  rewrite (find_downsample_factor_noop _ _ (Nat2Z.is_nonneg _) H0).
  rewrite (find_downsample_factor_noop _ _ (Nat2Z.is_nonneg _) H1).
  cbn [mbind result_bind]. rewrite !py_floordiv_Ok by lia.
  cbn [mbind result_bind]. rewrite !Z.div_1_r.
  unfold rebin, rebin_needed. cbn [fst snd]. by rewrite !Z.ltb_irrefl.
Qed.

(** X5.  When the target is at least the matrix on both axes, [downsample]
    returns its input as it is, for every value of [rebin_type]: an
    unrecognised aggregator is not noticed unless an axis is reduced. *)
Theorem downsample_large_target `{FloatOps V} (arr : ndarray V) (target : Q * Q)
    (rebin_type : string) :
  (inject_Z (Z.of_nat (shape0 arr)) <= target.1)%Q ->
  (inject_Z (Z.of_nat (shape1 arr)) <= target.2)%Q ->
  downsample arr target rebin_type = Ok (Some arr).
Proof. apply downsample_returns_input. Qed.

Lemma downsample_large_target_witness :
  downsample blocks44 (4%Q, 1800%Q) "sum" = Ok (Some blocks44).
Proof.
  apply (downsample_large_target blocks44 (4%Q, 1800%Q) "sum"); by vm_compute.
Defined.

Lemma Zprod_ge_2 (l : list Z) :
  l <> [] -> Forall (fun f => 2 <= f)%Z l -> (2 <= Zprod l)%Z.
Proof.
  destruct l as [|x l]; [done|]. intros _ [Hx Hl]%Forall_cons.
  pose proof (Zprod_pos l Hl). unfold Zprod in *. simpl. nia.
Qed.

Lemma prime_divisor (p d : Z) :
  Z.prime p -> (d | p)%Z -> (1 < d)%Z -> d = p.
Proof.
  intros [Hp Hnd] Hdiv Hd.
  assert (d <= p)%Z by (apply Z.divide_pos_le; [lia|done]).
  destruct (Z.eq_dec d p) as [|Hne]; [done|].
  destruct (Hnd d); [lia|done].
Qed.

Lemma find_downsample_factor_prime (shape : Z) (output : Q) :
  Z.prime shape -> (1 <= output)%Q ->
  find_downsample_factor shape output = Ok 1%Z.
Proof.
  intros Hprime Hout.
  destruct (find_downsample_factor_spec shape output)
    as (fs & k & Hpf & Hpr & Hso & Hprod & Hk & Hrun & Hpre & Hnext & Hdiv & Hpos
        & Hsmall).
  destruct k as [|k]; [by rewrite Hrun, take_0|].
  assert (Hp2 : (2 <= Zprod (take (S k) fs))%Z).
  { apply Zprod_ge_2; [|by apply Forall_take, primes_ge_2].
    destruct fs; [simpl in Hk; lia|done]. }
  assert (Heq : Zprod (take (S k) fs) = shape)
    by (apply prime_divisor; [done|done|lia]).
  specialize (Hpre (S k) ltac:(lia)). rewrite Heq in Hpre.
  destruct Hprime as [Hs _].
  (* the float [shape / shape] is 1.0 *)
  assert (Hone : (float_quot shape shape == 1)%Q).
  { rewrite <- (Z.mul_1_l shape) at 1. rewrite float_quot_pos by lia.
    apply (round_binary64_pos_exact 1 shape); [lia|]. split; [lia|done]. }
  rewrite Hone in Hpre. destruct (Qlt_not_le _ _ Hpre Hout).
Qed.

(** X6.  An axis of prime length is never reduced when the target is at
    least 1: the only candidate factor is the length itself, which would
    leave one cell.  A 1009-row matrix keeps its 1009 rows for a 100-row
    target. *)
Theorem find_downsample_factor_prime_axis (shape : Z) (output : Q) :
  Z.prime shape -> (1 <= output)%Q ->
  find_downsample_factor shape output = Ok 1%Z.
Proof. apply find_downsample_factor_prime. Qed.

Lemma prime_13 : Z.prime 13.
Proof.
  split; [lia|]. intros n Hn [q Hq].
  assert (n = 2 \/ n = 3 \/ n = 4 \/ n = 5 \/ n = 6 \/ n = 7 \/ n = 8 \/
          n = 9 \/ n = 10 \/ n = 11 \/ n = 12)%Z as Hcases by lia.
  repeat (destruct Hcases as [->|Hcases]; [lia|]). lia.
Defined.

Lemma find_downsample_factor_prime_axis_witness :
  find_downsample_factor 13 4%Q = Ok 1%Z.
Proof.
  apply (find_downsample_factor_prime_axis 13 4%Q); [exact prime_13|by vm_compute].
Defined.

Lemma find_downsample_factor_collapses (shape : Z) (output : Q) :
  (1 <= shape)%Z -> (output < 1)%Q ->
  find_downsample_factor shape output = Ok shape.
Proof.
  intros Hshape Hout.
  destruct (find_downsample_factor_spec shape output)
    as (fs & k & Hpf & Hpr & Hso & Hprod & Hk & Hrun & Hpre & Hnext & Hdiv & Hpos
        & Hsmall).
  destruct (decide (k = length fs)) as [->|Hne].
  { by rewrite Hrun, firstn_all, (Hprod Hshape). }
  specialize (Hnext ltac:(lia)).
  destruct (prefix_product_divides shape fs (S k) Hpr (Hprod Hshape)) as [Hp Hd].
  (* the float quotient of a divisor is at least 1.0 *)
  destruct (float_quot_bounds shape (Zprod (take (S k) fs)) Hp Hd Hshape)
    as [Hlo _].
  destruct (Qlt_not_le _ _ Hout). by eapply Qle_trans.
Qed.

(** X7.  A target below 1 (a figure of zero size, say) makes the factor the
    whole axis length, so a non-empty axis (of a length below 2^63, as
    every NumPy axis is) collapses to a single cell. *)
Theorem find_downsample_factor_small_target (shape : Z) (output : Q) :
  (1 <= shape < 2 ^ 63)%Z -> (output < 1)%Q ->
  find_downsample_factor shape output = Ok shape /\ (shape / shape = 1)%Z.
Proof.
  intros [Hshape _] Hout. split; [by apply find_downsample_factor_collapses|].
  apply Z.div_same. lia.
Qed.

Lemma find_downsample_factor_small_target_witness :
  find_downsample_factor 12 0%Q = Ok 12%Z /\ (12 / 12 = 1)%Z.
Proof.
  apply (find_downsample_factor_small_target 12 0%Q); [lia|reflexivity].
Defined.

(** ** downsample: the new axis lengths *)

Lemma exact_quotient_divides (s f : Z) :
  (1 <= f)%Z -> (f | s)%Z -> (s / f | s)%Z.
Proof.
  intros Hf [q ->]. rewrite Z.div_mul by lia. exists f. lia.
Qed.

Lemma target_size_divides {X : Type} (arr : ndarray X) (target : Q * Q) :
  0 < shape0 arr -> 0 < shape1 arr ->
  exists n0 n1,
    target_size arr target = Ok (n0, n1) /\
    (1 <= n0 <= Z.of_nat (shape0 arr))%Z /\ (n0 | Z.of_nat (shape0 arr))%Z /\
    (1 <= n1 <= Z.of_nat (shape1 arr))%Z /\ (n1 | Z.of_nat (shape1 arr))%Z.
Proof.
  intros Hs0 Hs1.
  destruct (target_size_spec arr target)
    as (f0 & f1 & _ & _ & Hf0 & Hf1 & Hd0 & Hd1 & Hts).
  destruct (exact_quotient_bounds _ _ (Nat2Z.is_nonneg (shape0 arr)) Hf0 Hd0)
    as [Hb0 [Hn0 _]]; [lia|].
  destruct (exact_quotient_bounds _ _ (Nat2Z.is_nonneg (shape1 arr)) Hf1 Hd1)
    as [Hb1 [Hn1 _]]; [lia|].
  eexists _, _. split; [exact Hts|].
  split; [lia|]. split; [by apply exact_quotient_divides|].
  split; [lia|]. by apply exact_quotient_divides.
Qed.

(** X16.  For a matrix without empty axis and any target, the new shape of
    line 337 is computed without error, and each new axis length is at
    least 1, at most the old length, and divides it: a reduction never
    empties an axis and its blocks tile the axis exactly. *)
Theorem target_size_tiles {X : Type} (arr : ndarray X) (target : Q * Q) :
  0 < shape0 arr -> 0 < shape1 arr ->
  exists n0 n1,
    target_size arr target = Ok (n0, n1) /\
    (1 <= n0 <= Z.of_nat (shape0 arr))%Z /\ (n0 | Z.of_nat (shape0 arr))%Z /\
    (1 <= n1 <= Z.of_nat (shape1 arr))%Z /\ (n1 | Z.of_nat (shape1 arr))%Z.
Proof. apply target_size_divides. Qed.

Lemma target_size_tiles_witness :
  exists n0 n1,
    target_size blocks44 (1%Q, 3%Q) = Ok (n0, n1) /\
    (1 <= n0 <= 4)%Z /\ (n0 | 4)%Z /\ (1 <= n1 <= 4)%Z /\ (n1 | 4)%Z.
Proof. apply (target_size_tiles blocks44 (1%Q, 3%Q)); simpl; lia. Defined.

(** ** downsample: what each output cell aggregates *)

Lemma mapM_result_lookup {A B : Type} (f : A -> result B) (l : list A)
    (bs : list B) :
  mapM_result f l = Ok bs ->
  forall k a, l !! k = Some a -> exists b, bs !! k = Some b /\ f a = Ok b.
Proof.
  revert bs. induction l as [|a0 l IH]; intros bs; simpl.
  - intros _ k a Hk. by rewrite lookup_nil in Hk.
  - destruct (f a0) as [b0| |] eqn:Hb0; simpl; try done.
    destruct (mapM_result f l) as [bs'| |]; simpl; try done.
    intros [= <-] k a Hk. destruct k as [|k]; simpl in *.
    + injection Hk as <-. by exists b0.
    + by apply IH.
Qed.

Lemma mapM_result_map {A B C : Type} (f : B -> result C) (g : A -> B)
    (l : list A) :
  mapM_result f (map g l) = mapM_result (fun a => f (g a)) l.
Proof. induction l as [|a l IH]; simpl; [done|]. by rewrite IH. Qed.

Lemma concat_lookup_uniform {X : Type} (ls : list (list X)) (w a t : nat) :
  Forall (fun r => length r = w) ls -> t < w ->
  concat ls !! (a * w + t) = ls !! a ≫= fun r => r !! t.
Proof.
  intros Hls Ht. revert a. induction Hls as [|r ls Hr _ IH]; intros a; simpl.
  - done.
  - destruct a as [|a]; simpl.
    + by rewrite lookup_app_l by lia.
    + rewrite lookup_app_r by lia. rewrite <- IH. f_equal. lia.
Qed.

Lemma omap_lookup_seq {X : Type} (l : list X) (s n : nat) :
  s + n <= length l ->
  omap (fun c => l !! (s + c)) (seq 0 n) = take n (drop s l).
Proof.
  induction n as [|n IH]; intros Hn; [done|].
  rewrite seq_S, omap_app, IH by lia. simpl.
  destruct (lookup_lt_is_Some_2 l (s + n)) as [x Hx]; [lia|].
  rewrite Hx. simpl. symmetry. apply take_S_r. by rewrite lookup_drop.
Qed.

(** a lane of the reshaped array is a stretch of one row of the matrix *)
Lemma lane4_block_row {X : Type} (arr : ndarray X) (n0 b0 n1 b1 i r j : nat)
    (row : list X) :
  wf_ndarray arr -> shape1 arr = n1 * b1 -> j < n1 ->
  rows arr !! (i * b0 + r) = Some row ->
  lane4 (mk_ndarray4 n0 b0 n1 b1 (concat (rows arr))) i r j
  = take b1 (drop (j * b1) row).
Proof.
  intros [Hlen Hrows] Hs1 Hj Hrow. unfold lane4, range. simpl.
  assert (Hlr : length row = n1 * b1).
  { rewrite Forall_lookup in Hrows. rewrite (Hrows _ _ Hrow). done. }
  rewrite <- (omap_lookup_seq row (j * b1) b1) by nia.
  apply list_omap_ext. apply Forall2_same_length_lookup. split; [done|].
  intros k c c' Hc Hc'. assert (c' = c) as -> by congruence.
  apply lookup_seq in Hc as [-> Hk]. simpl.
  replace (((i * b0 + r) * n1 + j) * b1 + k)
    with ((i * b0 + r) * shape1 arr + (j * b1 + k)) by (rewrite Hs1; lia).
  rewrite (concat_lookup_uniform (rows arr) (shape1 arr)) by (done || nia).
  by rewrite Hrow.
Qed.

Lemma lanes_are_block {X : Type} (arr : ndarray X) (n0 b0 n1 b1 i j : nat) :
  wf_ndarray arr -> shape0 arr = n0 * b0 -> shape1 arr = n1 * b1 ->
  i < n0 -> j < n1 ->
  map (fun r => lane4 (mk_ndarray4 n0 b0 n1 b1 (concat (rows arr))) i r j)
      (range b0)
  = block arr b0 b1 i j.
Proof.
  intros Hwf Hs0 Hs1 Hi Hj. pose proof Hwf as [Hlen _].
  unfold block, range. apply list_eq. intros r.
  rewrite !list_lookup_fmap.
  destruct (decide (r < b0)) as [Hr|Hr].
  - rewrite lookup_seq_lt by done. rewrite lookup_take_lt, lookup_drop by done.
    destruct (lookup_lt_is_Some_2 (rows arr) (i * b0 + r)) as [row Hrow]; [nia|].
    rewrite Hrow. simpl. f_equal. by apply lane4_block_row.
  - rewrite lookup_seq_ge by lia. rewrite lookup_take_ge by lia. done.
Qed.

Section blocks.
Context `{FloatOps V}.
Local Arguments reshape4 : simpl never.
Local Arguments reduce_blocks : simpl never.

(** the cells of a block reduction, read through [block] *)
Lemma reduce_blocks_cells (red : list V -> result V) (arr out : ndarray V)
    (n0 b0 n1 b1 : nat) :
  wf_ndarray arr -> shape0 arr = n0 * b0 -> shape1 arr = n1 * b1 ->
  reduce_blocks red (mk_ndarray4 n0 b0 n1 b1 (concat (rows arr))) = Ok out ->
  shape0 out = n0 /\ shape1 out = n1 /\
  forall i j, i < n0 -> j < n1 ->
    exists inner v,
      mapM_result red (block arr b0 b1 i j) = Ok inner /\
      red inner = Ok v /\ cell out i j = Some v.
Proof.
  intros Hwf Hs0 Hs1. unfold reduce_blocks.
  destruct (mapM_result _ (range (dim_n0 _))) as [rs| |] eqn:Hrs;
    cbn [mbind result_bind]; try done.
  intros [= <-]. split; [done|]. split; [done|].
  intros i j Hi Hj. cbn [dim_n0 dim_n1 dim_b0] in Hrs.
  destruct (mapM_result_lookup _ _ _ Hrs i i) as (row & Hrow & Hfi).
  { unfold range. by rewrite lookup_seq_lt. }
  destruct (mapM_result_lookup _ _ _ Hfi j j) as (v & Hv & Hfj).
  { unfold range. by rewrite lookup_seq_lt. }
  cbn beta in Hfj.
  destruct (mapM_result _ (range b0)) as [inner| |] eqn:Hinner;
    cbn [mbind result_bind] in Hfj; try done.
  exists inner, v. split; [|split; [done|]].
  - rewrite <- (lanes_are_block arr n0 b0 n1 b1 i j) by done.
    by rewrite mapM_result_map.
  - unfold cell. cbn [rows]. by rewrite Hrow.
Qed.

Lemma downsample_blocks (arr out : ndarray V) (target : Q * Q)
    (rebin_type : string) (red : list V -> result V) :
  wf_ndarray arr -> 0 < shape0 arr -> 0 < shape1 arr ->
  reduction_of rebin_type = Some red ->
  downsample arr target rebin_type = Ok (Some out) ->
  shape out <> shape arr ->
  exists b0 b1,
    shape0 arr = shape0 out * b0 /\ shape1 arr = shape1 out * b1 /\
    forall i j, i < shape0 out -> j < shape1 out ->
      exists inner v,
        mapM_result red (block arr b0 b1 i j) = Ok inner /\
        red inner = Ok v /\ cell out i j = Some v.
Proof.
  intros Hwf Hs0 Hs1 Hred Hdown Hsmaller.
  destruct (target_size_spec arr target)
    as (f0 & f1 & _ & _ & Hf0 & Hf1 & Hd0 & Hd1 & Hts).
  destruct (exact_quotient_bounds _ _ (Nat2Z.is_nonneg (shape0 arr)) Hf0 Hd0)
    as [Hn0 [Hn0pos Hb0]]; [lia|].
  destruct (exact_quotient_bounds _ _ (Nat2Z.is_nonneg (shape1 arr)) Hf1 Hd1)
    as [Hn1 [Hn1pos Hb1]]; [lia|].
  set (n0 := (Z.of_nat (shape0 arr) / f0)%Z) in *.
  set (n1 := (Z.of_nat (shape1 arr) / f1)%Z) in *.
  assert (Hp0 : shape0 arr = Z.to_nat n0 * Z.to_nat f0).
  { destruct Hd0 as [q Hq]. unfold n0. rewrite Hq, Z.div_mul by lia.
    apply Nat2Z.inj. rewrite Hq, Nat2Z.inj_mul, !Z2Nat.id; nia. }
  assert (Hp1 : shape1 arr = Z.to_nat n1 * Z.to_nat f1).
  { destruct Hd1 as [q Hq]. unfold n1. rewrite Hq, Z.div_mul by lia.
    apply Nat2Z.inj. rewrite Hq, Nat2Z.inj_mul, !Z2Nat.id; nia. }
  unfold downsample in Hdown. rewrite Hts in Hdown.
  cbn [mbind result_bind] in Hdown. unfold rebin in Hdown.
  destruct (rebin_needed arr (n0, n1)); [|by injection Hdown as <-].
  unfold rebin_reduce in Hdown. cbn [fst snd] in Hdown.
  rewrite !py_floordiv_Ok in Hdown by lia.
  cbn [mbind result_bind] in Hdown. rewrite Hb0, Hb1 in Hdown.
  assert (Hreshape : reshape4 arr (n0, f0, n1, f1)
            = Ok (mk_ndarray4 (Z.to_nat n0) (Z.to_nat f0) (Z.to_nat n1)
                              (Z.to_nat f1) (concat (rows arr)))).
  { unfold reshape4.
    destruct (Z.leb_spec 0 n0); [|lia]. destruct (Z.leb_spec 0 f0); [|lia].
    destruct (Z.leb_spec 0 n1); [|lia]. destruct (Z.leb_spec 0 f1); [|lia].
    cbn [andb].
    destruct (Z.eqb_spec (n0 * f0 * n1 * f1) (Z.of_nat (shape0 arr * shape1 arr)));
      [done|]. rewrite Hp0, Hp1 in *. rewrite !Nat2Z.inj_mul, !Z2Nat.id in *; lia. }
  rewrite Hreshape in Hdown. cbn [mbind result_bind] in Hdown.
  assert (Hcells : reduce_blocks red
            (mk_ndarray4 (Z.to_nat n0) (Z.to_nat f0) (Z.to_nat n1) (Z.to_nat f1)
                         (concat (rows arr))) = Ok out).
  { unfold reduction_of in Hred.
    repeat match type of Hred with
           | (if ?c then _ else _) = _ =>
               destruct c; [injection Hred as <-|]
           end; try done;
      match type of Hdown with
      | Some <$> ?r = _ => destruct r; by simplify_eq/=
      end. }
  destruct (reduce_blocks_cells red arr out _ _ _ _ Hwf Hp0 Hp1 Hcells)
    as (H0 & H1 & Hblocks).
  exists (Z.to_nat f0), (Z.to_nat f1). rewrite H0, H1. by repeat split.
Qed.
End blocks.

(** X8.  With a recognised aggregator on a matrix without empty axis, when
    the output is smaller than the input the matrix is tiled exactly by
    blocks of [b0 x b1] cells (no row or column is left over), and output
    cell [(i, j)] is the reduction of the row-wise reductions of block
    [(i, j)]: no cell outside the block enters it. *)
Theorem downsample_aggregates_blocks `{FloatOps V} (arr out : ndarray V)
    (target : Q * Q) (rebin_type : string) (red : list V -> result V) :
  wf_ndarray arr -> 0 < shape0 arr -> 0 < shape1 arr ->
  reduction_of rebin_type = Some red ->
  downsample arr target rebin_type = Ok (Some out) ->
  shape out <> shape arr ->
  exists b0 b1,
    shape0 arr = shape0 out * b0 /\ shape1 arr = shape1 out * b1 /\
    forall i j, i < shape0 out -> j < shape1 out ->
      exists inner v,
        mapM_result red (block arr b0 b1 i j) = Ok inner /\
        red inner = Ok v /\ cell out i j = Some v.
Proof. apply downsample_blocks. Qed.

Lemma downsample_aggregates_blocks_witness :
  exists b0 b1,
    4 = 2 * b0 /\ 4 = 2 * b1 /\
    forall i j, i < 2 -> j < 2 ->
      exists inner v,
        mapM_result red_max (block blocks44 b0 b1 i j) = Ok inner /\
        red_max inner = Ok v /\
        cell (mk_ndarray 2 2 [[1; 2]; [3; 4]]%Q) i j = Some v.
Proof.
  apply (downsample_aggregates_blocks blocks44
           (mk_ndarray 2 2 [[1; 2]; [3; 4]]%Q) (1%Q, 1%Q) "max" red_max).
  - exact blocks44_wf.
  - simpl. lia.
  - simpl. lia.
  - reflexivity.
  - reflexivity.
  - discriminate.
Defined.

(** ** plotAshInvMatrix: which array is written *)

Lemma rebin_reduce_unknown `{FloatOps V} (arr : ndarray V) (new_shape : Z * Z)
    (rebin_type : string) :
  ~ known_rebin_type rebin_type ->
  (new_shape.1 <> 0)%Z -> (new_shape.2 <> 0)%Z ->
  rebin_reduce arr new_shape rebin_type = Ok None.
Proof.
  intros Hunknown H0 H1. unfold rebin_reduce.
  rewrite !py_floordiv_Ok by done. cbn [mbind result_bind].
  unfold known_rebin_type in Hunknown.
  repeat match goal with
         | |- context [String.eqb rebin_type ?s] =>
             destruct (String.eqb_spec rebin_type s) as [->|_];
             [destruct Hunknown; set_solver|]
         end.
  done.
Qed.

Lemma target_size_positive {X : Type} (arr : ndarray X) (target : Q * Q)
    (new_shape : Z * Z) :
  0 < shape0 arr -> 0 < shape1 arr ->
  target_size arr target = Ok new_shape ->
  (1 <= new_shape.1)%Z /\ (1 <= new_shape.2)%Z.
Proof.
  intros Hs0 Hs1 Hts.
  destruct (target_size_spec arr target)
    as (f0 & f1 & _ & _ & Hf0 & Hf1 & Hd0 & Hd1 & Hts').
  rewrite Hts in Hts'. injection Hts' as ->.
  destruct (exact_quotient_bounds _ _ (Nat2Z.is_nonneg (shape0 arr)) Hf0 Hd0)
    as [_ [Hn0 _]]; [lia|].
  destruct (exact_quotient_bounds _ _ (Nat2Z.is_nonneg (shape1 arr)) Hf1 Hd1)
    as [_ [Hn1 _]]; [lia|].
  done.
Qed.

Section plot_matrix.
Context `{FloatOps V}.
Variables (σ : store V) (matrix : loc) (a : ndarray V).
Variables (fig_size : Q * Q) (rebin_type : string) (new_shape : Z * Z).
Hypothesis matrix_alloc : σ !! matrix = Some a.
Hypothesis matrix_cells : 0 < shape0 a /\ 0 < shape1 a.
Hypothesis new_shape_eq : target_size a fig_size = Ok new_shape.

Lemma matrix_size_nonzero : (shape0 a * shape1 a =? 0) = false.
Proof. apply Nat.eqb_neq. nia. Qed.

(** no reduction: the matrix of the caller is clamped in place *)
Lemma plotAshInvMatrix_st_in_place (do_downsample : bool) :
  do_downsample = false \/ rebin_needed a new_shape = false ->
  plotAshInvMatrix_st σ matrix fig_size do_downsample rebin_type
  = Some (Ok matrix, <[matrix := clamp_negative a]> σ).
Proof.
  intros Hcase. unfold plotAshInvMatrix_st. rewrite matrix_alloc. simpl.
  rewrite matrix_size_nonzero.
  destruct do_downsample.
  - destruct Hcase as [|Hneed]; [done|].
    unfold downsample_st, rebin_st. rewrite matrix_alloc. simpl.
    rewrite new_shape_eq, Hneed. simpl. by rewrite matrix_alloc.
  - simpl. by rewrite matrix_alloc.
Qed.

(** a reduction: the result is a new array, clamped; nothing else changes *)
Lemma plotAshInvMatrix_st_reduced (out : ndarray V) :
  rebin_needed a new_shape = true ->
  downsample a fig_size rebin_type = Ok (Some out) ->
  exists l σ',
    plotAshInvMatrix_st σ matrix fig_size true rebin_type = Some (Ok l, σ') /\
    l <> matrix /\ σ !! l = None /\ σ' !! l = Some (clamp_negative out) /\
    forall l' a', σ !! l' = Some a' -> σ' !! l' = Some a'.
Proof.
  intros Hneed Hdown.
  unfold downsample in Hdown. rewrite new_shape_eq in Hdown.
  cbn [mbind result_bind] in Hdown. unfold rebin in Hdown.
  rewrite Hneed in Hdown.
  destruct (alloc_fresh σ out) as (Hnew & Hout & Hframe).
  unfold alloc in Hnew, Hout, Hframe. simpl in Hnew, Hout, Hframe.
  exists (fresh (dom σ)), (<[fresh (dom σ) := clamp_negative out]>
                            (<[fresh (dom σ) := out]> σ)).
  split; [|split; [congruence|split; [done|split]]].
  - unfold plotAshInvMatrix_st. rewrite matrix_alloc. simpl.
    rewrite matrix_size_nonzero.
    unfold downsample_st, rebin_st. rewrite matrix_alloc. simpl.
    rewrite new_shape_eq, Hneed, Hdown. simpl. by rewrite Hout.
  - apply lookup_insert_eq.
  - intros l' a' Hl'. rewrite lookup_insert_ne by congruence. by apply Hframe.
Qed.

(** an unrecognised aggregator: indexing [None] raises *)
Lemma plotAshInvMatrix_st_unknown :
  rebin_needed a new_shape = true -> ~ known_rebin_type rebin_type ->
  plotAshInvMatrix_st σ matrix fig_size true rebin_type
  = Some (Raise TypeError, σ).
Proof.
  intros Hneed Hunknown.
  destruct matrix_cells as [Hs0 Hs1].
  destruct (target_size_positive a fig_size new_shape Hs0 Hs1 new_shape_eq)
    as [Hn0 Hn1].
  unfold plotAshInvMatrix_st. rewrite matrix_alloc. simpl.
  rewrite matrix_size_nonzero.
  unfold downsample_st, rebin_st. rewrite matrix_alloc. simpl.
  rewrite new_shape_eq, Hneed. 
  by rewrite rebin_reduce_unknown by (done || lia).
Qed.
End plot_matrix.

(** X9.  For a matrix with cells, [plotAshInvMatrix] overwrites the
    caller's matrix with its clamped copy exactly when no reduction takes
    place ([do_downsample] off, or no axis to reduce), whatever
    [rebin_type]; when an axis is reduced, the clamping goes to the newly
    allocated result and every array of the caller, the matrix included,
    is left as it was. *)
Theorem plotAshInvMatrix_st_frame `{FloatOps V} (σ : store V) (matrix : loc)
    (a : ndarray V) (fig_size : Q * Q) (rebin_type : string)
    (new_shape : Z * Z) (do_downsample : bool) :
  σ !! matrix = Some a ->
  0 < shape0 a /\ 0 < shape1 a ->
  target_size a fig_size = Ok new_shape ->
  (do_downsample = false \/ rebin_needed a new_shape = false ->
   plotAshInvMatrix_st σ matrix fig_size do_downsample rebin_type
   = Some (Ok matrix, <[matrix := clamp_negative a]> σ)) /\
  (forall out,
     do_downsample = true -> rebin_needed a new_shape = true ->
     downsample a fig_size rebin_type = Ok (Some out) ->
     exists l σ',
       plotAshInvMatrix_st σ matrix fig_size do_downsample rebin_type
       = Some (Ok l, σ') /\
       l <> matrix /\ σ !! l = None /\ σ' !! l = Some (clamp_negative out) /\
       forall l' a', σ !! l' = Some a' -> σ' !! l' = Some a').
Proof.
  intros Hl Hcells Hts. split.
  - by apply plotAshInvMatrix_st_in_place.
  - intros out -> Hneed Hdown.
    by apply (plotAshInvMatrix_st_reduced σ matrix a fig_size rebin_type new_shape).
Qed.

Lemma plotAshInvMatrix_st_frame_witness :
  plotAshInvMatrix_st {[ 0 := negative22 ]} 0 (2%Q, 2%Q) true "mean"
  = Some (Ok 0, <[0 := clamp_negative negative22]> {[ 0 := negative22 ]}) /\
  exists l σ',
    plotAshInvMatrix_st {[ 0 := negative22 ]} 0 (0%Q, 0%Q) true "min"
    = Some (Ok l, σ') /\
    l <> 0 /\ σ' !! l = Some (mk_ndarray 1 1 [[0%Q]]) /\
    σ' !! 0 = Some negative22.
Proof.
  split.
  - apply (plotAshInvMatrix_st_frame {[ 0 := negative22 ]} 0 negative22
             (2%Q, 2%Q) "mean" (2, 2)%Z true).
    + reflexivity.
    + simpl. lia.
    + reflexivity.
    + by right.
  - destruct (plotAshInvMatrix_st_frame {[ 0 := negative22 ]} 0 negative22
                (0%Q, 0%Q) "min" (1, 1)%Z true) as [_ Hreduced].
    + reflexivity.
    + simpl. lia.
    + reflexivity.
    + destruct (Hreduced (mk_ndarray 1 1 [[(-1)%Q]]))
        as (l & σ' & Hrun & Hne & _ & Hout & Hframe);
        [reflexivity|reflexivity|reflexivity|].
      exists l, σ'. split; [exact Hrun|]. split; [exact Hne|].
      split; [exact Hout|]. by apply Hframe.
Defined.

(** X10.  When an axis must be reduced and [rebin_type] is not recognised,
    [plotAshInvMatrix] raises [TypeError]: [downsample] has returned
    [None] and line 357 indexes it.  No array has been written. *)
Theorem plotAshInvMatrix_st_unknown_rebin_type `{FloatOps V} (σ : store V)
    (matrix : loc) (a : ndarray V) (fig_size : Q * Q) (rebin_type : string)
    (new_shape : Z * Z) :
  σ !! matrix = Some a ->
  0 < shape0 a /\ 0 < shape1 a ->
  target_size a fig_size = Ok new_shape ->
  rebin_needed a new_shape = true -> ~ known_rebin_type rebin_type ->
  plotAshInvMatrix_st σ matrix fig_size true rebin_type
  = Some (Raise TypeError, σ).
Proof. apply plotAshInvMatrix_st_unknown. Qed.

Lemma plotAshInvMatrix_st_unknown_rebin_type_witness :
  plotAshInvMatrix_st {[ 0 := blocks44 ]} 0 (1%Q, 1%Q) true "average"
  = Some (Raise TypeError, {[ 0 := blocks44 ]}).
Proof.
  apply (plotAshInvMatrix_st_unknown_rebin_type {[ 0 := blocks44 ]} 0 blocks44
           (1%Q, 1%Q) "average" (2, 2)%Z).
  - reflexivity.
  - simpl. lia.
  - reflexivity.
  - reflexivity.
  - unfold known_rebin_type. intros Hin.
    repeat (apply elem_of_cons in Hin as [Hin|Hin]; [discriminate|]).
    by apply elem_of_nil in Hin.
Defined.

Lemma clamp_negative_cell `{FloatOps V} (a : ndarray V) (r t : nat) :
  cell (clamp_negative a) r t
  = (fun v => if flt v fzero then fzero else v) <$> cell a r t.
Proof.
  unfold cell, clamp_negative. cbn [rows].
  rewrite list_lookup_fmap. destruct (rows a !! r) as [row|]; [|done].
  simpl. by rewrite list_lookup_fmap.
Qed.

(** X11.  Where zero is not below itself, the clamping of line 357 keeps
    the shape, leaves every cell that is not below zero as it is, leaves
    no cell below zero, and clamping twice is clamping once. *)
Theorem clamp_negative_nonnegative `{FloatOps V} (a : ndarray V) :
  flt fzero fzero = false ->
  shape (clamp_negative a) = shape a /\
  (forall r t v, cell (clamp_negative a) r t = Some v -> flt v fzero = false) /\
  (forall r t v, cell a r t = Some v -> flt v fzero = false ->
     cell (clamp_negative a) r t = Some v) /\
  clamp_negative (clamp_negative a) = clamp_negative a.
Proof.
  intros Hzero. split; [done|]. split; [|split].
  - intros r t v. rewrite clamp_negative_cell.
    destruct (cell a r t) as [v0|]; [|done]. simpl. intros [= <-].
    by destruct (flt v0 fzero) eqn:Hv.
  - intros r t v Hc Hv. by rewrite clamp_negative_cell, Hc; simpl; rewrite Hv.
  - unfold clamp_negative. cbn [shape0 shape1 rows]. f_equal.
    rewrite <- list_fmap_compose. apply list_fmap_ext. intros _ row _.
    simpl. rewrite <- list_fmap_compose. apply list_fmap_ext. intros _ v _.
    simpl. destruct (flt v fzero) eqn:Hv; [by rewrite Hzero|by rewrite Hv].
Qed.

Lemma clamp_negative_nonnegative_witness :
  shape (clamp_negative negative22) = shape negative22 /\
  (forall r t v, cell (clamp_negative negative22) r t = Some v ->
     flt v fzero = false) /\
  (forall r t v, cell negative22 r t = Some v -> flt v fzero = false ->
     cell (clamp_negative negative22) r t = Some v) /\
  clamp_negative (clamp_negative negative22) = clamp_negative negative22.
Proof. apply (clamp_negative_nonnegative negative22). reflexivity. Defined.

(** ** plotAshInv: ticks and their labels *)

Lemma omap_total_lookup {A B : Type} (f : A -> option B) (l : list A) :
  Forall (fun x => is_Some (f x)) l ->
  length (omap f l) = length l /\ forall k, omap f l !! k = l !! k ≫= f.
Proof.
  induction 1 as [|x l [y Hy] _ [IHlen IH]]; simpl.
  - split; [done|]. intros k. by rewrite !lookup_nil.
  - rewrite Hy. simpl. split; [by f_equal|].
    intros [|k]; simpl; [done|apply IH].
Qed.

Lemma slice_step_count (len start step k : nat) :
  0 < step -> start < len ->
  k < (len - start - 1) / step + 1 <-> start + k * step < len.
Proof.
  intros Hstep Hstart.
  pose proof (Nat.div_mod_eq (len - start - 1) step) as Hdm.
  pose proof (Nat.mod_upper_bound (len - start - 1) step ltac:(lia)) as Hmod.
  split; intros Hk; nia.
Qed.

Lemma py_slice_step_spec {X : Type} (start step : nat) (l : list X) :
  0 < step ->
  length (py_slice_step start step l)
  = (if start <? length l then (length l - start - 1) / step + 1 else 0) /\
  forall k, py_slice_step start step l !! k
            = if decide (start + k * step < length l)
              then l !! (start + k * step) else None.
Proof.
  intros Hstep. unfold py_slice_step.
  set (n := if start <? length l then (length l - start - 1) / step + 1 else 0).
  assert (Hn : forall k, k < n <-> start + k * step < length l).
  { intros k. unfold n. destruct (Nat.ltb_spec start (length l)) as [Hs|Hs].
    - by apply slice_step_count.
    - split; [lia|nia]. }
  destruct (omap_total_lookup (fun k => l !! (start + k * step)) (range n))
    as [Hlen Hlook].
  { apply Forall_forall. intros k Hk%elem_of_range.
    apply lookup_lt_is_Some_2. by apply Hn. }
  unfold range in *. rewrite length_seq in Hlen. split; [done|].
  intros k. rewrite Hlook.
  destruct (decide (start + k * step < length l)) as [Hk|Hk].
  - by rewrite lookup_seq_lt by (by apply Hn).
  - rewrite lookup_seq_ge; [done|]. rewrite <- Hn in Hk. lia.
Qed.

(** X12.  The x ticks and their labels stay aligned: there are
    [(n + 4) // 8] ticks for [n] timestamps (none below four timestamps),
    tick [k] sits at column [3 + 8 k], and when the labels are built there
    is one per tick, the formatted timestamp of its column.  The labels
    are built only if every timestamp can be formatted, also those that
    get no tick. *)
Theorem x_ticks_labels_aligned (time_label : Z -> option string)
    (emission_times : list Z) :
  length (x_ticks emission_times) = (length emission_times + 4) / 8 /\
  (forall k, k < length (x_ticks emission_times) ->
     3 + 8 * k < length emission_times /\
     x_ticks emission_times !! k = Some (3 + 8 * k)) /\
  (x_labels time_label emission_times = None <->
   exists t, t ∈ emission_times /\ time_label t = None) /\
  (forall labels, x_labels time_label emission_times = Some labels ->
     length labels = length (x_ticks emission_times) /\
     forall k, k < length labels ->
       exists t, emission_times !! (3 + 8 * k) = Some t /\
                 time_label t = labels !! k).
Proof.
  unfold x_ticks, x_labels.
  destruct (py_slice_step_spec 3 8 (range (length emission_times)))
    as [Hlt Ht]; [lia|].
  unfold range in *. rewrite length_seq in Hlt, Ht.
  assert (Hcount : (if 3 <? length emission_times
                    then (length emission_times - 3 - 1) / 8 + 1 else 0)
                   = (length emission_times + 4) / 8).
  { destruct (Nat.ltb_spec 3 (length emission_times)) as [Hn|Hn].
    - replace (length emission_times + 4)
        with ((length emission_times - 3 - 1) + 1 * 8) by lia.
      by rewrite Nat.div_add.
    - symmetry. apply Nat.div_small. lia. }
  assert (Hpos : forall k, k < (length emission_times + 4) / 8 ->
                   3 + k * 8 < length emission_times).
  { intros k Hk. rewrite <- Hcount in Hk.
    destruct (Nat.ltb_spec 3 (length emission_times)) as [Hn|Hn]; [|lia].
    apply (proj1 (slice_step_count (length emission_times) 3 8 k
                    ltac:(lia) Hn)). exact Hk. }
  split; [by rewrite Hlt|]. split; [|split].
  - intros k Hk. rewrite Hlt, Hcount in Hk. specialize (Hpos k Hk).
    replace (8 * k) with (k * 8) by lia. split; [done|].
    rewrite Ht, decide_True by done. by rewrite lookup_seq_lt.
  - rewrite fmap_None, mapM_None, Exists_exists. done.
  - intros labels Hlabels.
    apply fmap_Some in Hlabels as (all & Hall & ->).
    apply mapM_Some in Hall.
    destruct (py_slice_step_spec 3 8 all) as [Hll Hl]; [lia|].
    rewrite <- (Forall2_length _ _ _ Hall) in Hll, Hl.
    split; [by rewrite Hll, Hlt|].
    intros k Hk. rewrite Hll, Hcount in Hk. specialize (Hpos k Hk).
    replace (8 * k) with (k * 8) by lia.
    destruct (lookup_lt_is_Some_2 emission_times (3 + k * 8) Hpos) as [t Htk].
    exists t. split; [done|].
    rewrite Hl, decide_True by done.
    destruct (Forall2_lookup_l _ _ _ _ _ Hall Htk) as (lab & Hlab & Hf).
    by rewrite Hlab.
Qed.

Lemma cumsum_from_lookup `{FloatOps V} (l : list V) (acc : V) (j : nat) :
  j < length l ->
  cumsum_from acc l !! j = Some (foldl fadd acc (take (S j) l)).
Proof.
  revert acc j. induction l as [|x l IH]; intros acc j Hj; simpl in *; [lia|].
  destruct j as [|j]; simpl; [done|]. apply IH. lia.
Qed.

Lemma np_cumsum_lookup `{FloatOps V} (x : V) (l : list V) (j : nat) :
  j <= length l ->
  np_cumsum (x :: l) !! j = Some (foldl fadd x (take j l)).
Proof.
  intros Hj. destruct j as [|j]; simpl; [done|].
  apply cumsum_from_lookup. lia.
Qed.

Lemma np_cumsum_length `{FloatOps V} (l : list V) :
  length (np_cumsum l) = length l.
Proof.
  destruct l as [|x l]; simpl; [done|]. f_equal.
  revert x. induction l as [|y l IH]; intros x; simpl; [done|].
  by rewrite IH.
Qed.

(** X13.  The y ticks and their labels stay aligned: there are
    [size // 2 + 1] of each for [size] elevation levels, tick [k] sits at
    [2 k - 0.5], the lower edge of level [2 k], and its label is the
    formatted altitude of that edge: the volcano altitude plus the heights
    of the levels below, added from the left. *)
Theorem y_ticks_labels_aligned `{FloatOps V} (height_label : V -> string)
    (volcano_altitude : V) (level_heights : list V) :
  length (y_ticks level_heights) = length level_heights / 2 + 1 /\
  length (y_labels height_label volcano_altitude level_heights)
  = length (y_ticks level_heights) /\
  forall k, k <= length level_heights / 2 ->
    y_ticks level_heights !! k
    = Some (inject_Z (Z.of_nat (2 * k)) - (1 # 2))%Q /\
    y_labels height_label volcano_altitude level_heights !! k
    = Some (height_label
              (foldl fadd volcano_altitude (take (2 * k) level_heights))).
Proof.
  unfold y_ticks, y_labels.
  set (ticks := map (fun k => (inject_Z (Z.of_nat k) - (1 # 2))%Q)
                    (range (length level_heights + 1))).
  set (labels := map height_label (np_cumsum (volcano_altitude :: level_heights))).
  assert (Hlt : length ticks = length level_heights + 1).
  { unfold ticks, range. by rewrite length_map, length_seq. }
  assert (Hll : length labels = length level_heights + 1).
  { unfold labels. rewrite length_map, np_cumsum_length. simpl. lia. }
  destruct (py_slice_step_spec 0 2 ticks) as [Hct Ht]; [lia|].
  destruct (py_slice_step_spec 0 2 labels) as [Hcl Hl]; [lia|].
  rewrite Hlt in Hct, Ht. rewrite Hll in Hcl, Hl.
  destruct (Nat.ltb_spec 0 (length level_heights + 1)) as [_|]; [|lia].
  replace (length level_heights + 1 - 0 - 1) with (length level_heights)
    in Hct, Hcl by lia.
  split; [done|]. split; [by rewrite Hcl, Hct|].
  intros k Hk.
  pose proof (Nat.div_mod_eq (length level_heights) 2) as Hdm.
  assert (Hpos : 0 + k * 2 < length level_heights + 1) by lia.
  rewrite Ht, Hl. rewrite !decide_True by done.
  replace (0 + k * 2) with (2 * k) by lia. split.
  - unfold ticks, range. rewrite list_lookup_fmap, lookup_seq_lt by lia. done.
  - unfold labels. rewrite list_lookup_fmap, np_cumsum_lookup by lia. done.
Qed.

(** ** plotAshInv: the uniform time step of the unit conversion *)

Lemma np_diff_lookup (l : list Z) (k : nat) :
  np_diff l !! k
  = match l !! k, l !! S k with
    | Some x, Some y => Some (datetime_sub y x)
    | _, _ => None
    end.
Proof.
  revert k. induction l as [|x l IH]; intros k; [by rewrite !lookup_nil|].
  destruct l as [|y l].
  - simpl. rewrite lookup_nil. by destruct ([x] !! k).
  - change (np_diff (x :: y :: l)) with (datetime_sub y x :: np_diff (y :: l)).
    destruct k as [|k]; [done|]. simpl. by rewrite IH.
Qed.

Lemma np_diff_length (l : list Z) : length (np_diff l) = length l - 1.
Proof.
  induction l as [|x [|y l] IH]; [done|done|].
  change (np_diff (x :: y :: l)) with (datetime_sub y x :: np_diff (y :: l)).
  simpl in *. lia.
Qed.

Lemma int64_wrap_id (z : Z) : (- 2 ^ 63 <= z < 2 ^ 63)%Z -> int64_wrap z = z.
Proof.
  intros Hz. unfold int64_wrap. rewrite Z.mod_small; lia.
Qed.

Lemma evenly_spaced_diff (l : list Z) (t0 step : Z) (k : nat) :
  evenly_spaced l t0 step -> (- 2 ^ 63 < step < 2 ^ 63)%Z -> S k < length l ->
  np_diff l !! k = Some step.
Proof.
  intros Hl Hstep Hk.
  destruct (Hl k ltac:(lia)) as [Hx Hxr]. destruct (Hl (S k) Hk) as [Hy Hyr].
  rewrite np_diff_lookup, Hx, Hy. f_equal. unfold datetime_sub, NaT.
  destruct (Z.eqb_spec (t0 + Z.of_nat k * step) (- 2 ^ 63)) as [|_]; [lia|].
  destruct (Z.eqb_spec (t0 + Z.of_nat (S k) * step) (- 2 ^ 63)) as [|_]; [lia|].
  cbn [orb].
  replace (t0 + Z.of_nat (S k) * step - (t0 + Z.of_nat k * step))%Z with step
    by (rewrite Nat2Z.inj_succ; ring).
  apply int64_wrap_id. lia.
Qed.

Lemma float_eqb_NaN_l (d : Qnan) : float_eqb NaN d = false.
Proof. done. Qed.

Lemma float_eqb_NaN_r (d : Qnan) : float_eqb d NaN = false.
Proof. by destruct d. Qed.

Lemma timedelta_seconds_NaT : timedelta_seconds NaT = NaN.
Proof. done. Qed.

Lemma datetime_sub_NaT_l (x : Z) : datetime_sub NaT x = NaT.
Proof.
  unfold datetime_sub. destruct (x =? NaT)%Z; [done|].
  by rewrite Z.eqb_refl.
Qed.

Lemma datetime_sub_NaT_r (y : Z) : datetime_sub y NaT = NaT.
Proof. unfold datetime_sub. by rewrite Z.eqb_refl. Qed.

Lemma plotAshInv_duration_evenly_spaced (emission_times : list Z) (t0 step : Z) :
  2 <= length emission_times ->
  evenly_spaced emission_times t0 step -> (- 2 ^ 63 < step < 2 ^ 63)%Z ->
  plotAshInv_duration "kg/(m*s)" emission_times
  = Returns (Some (Num (round_binary64
                          (round_binary64 (inject_Z step) / inject_Z second_ns)))).
Proof.
  intros Hlen Hev Hstep. unfold plotAshInv_duration. simpl.
  assert (Hall : np_diff emission_times
                 = replicate (length emission_times - 1) step).
  { apply list_eq. intros k.
    destruct (decide (S k < length emission_times)) as [Hk|Hk].
    - rewrite (evenly_spaced_diff _ t0 step k Hev Hstep Hk).
      symmetry. apply lookup_replicate_2. lia.
    - rewrite lookup_ge_None_2 by (rewrite np_diff_length; lia).
      symmetry. apply lookup_replicate_None. lia. }
  rewrite Hall.
  destruct (length emission_times - 1) as [|n] eqn:Hn; [lia|].
  assert (Hsec : timedelta_seconds step
                 = Num (round_binary64
                          (round_binary64 (inject_Z step) / inject_Z second_ns))).
  { unfold timedelta_seconds, NaT.
    by destruct (Z.eqb_spec step (- 2 ^ 63)) as [|_]; [lia|]. }
  cbn [replicate map]. rewrite Hsec.
  set (d0 := round_binary64 _).
  assert (Hd0 : float_eqb (Num d0) (Num d0) = true)
    by (apply Qeq_bool_iff; reflexivity).
  cbn [forallb]. rewrite Hd0. cbn [andb].
  replace (forallb _ _) with true; [done|].
  symmetry. apply forallb_forall. intros d Hd.
  apply in_map_iff in Hd as (x & <- & Hx).
  apply list_elem_of_In, elem_of_replicate in Hx as [-> _].
  by rewrite Hsec.
Qed.

Lemma plotAshInv_duration_NaT (emission_times : list Z) (k : nat) :
  2 <= length emission_times -> emission_times !! k = Some NaT ->
  plotAshInv_duration "kg/(m*s)" emission_times = Raises AssertionError.
Proof.
  intros Hlen Hk. unfold plotAshInv_duration. simpl.
  (* some difference is NaT, so some duration is NaN *)
  assert (Hnan : exists j, np_diff emission_times !! j = Some NaT).
  { destruct k as [|k].
    - exists 0. rewrite np_diff_lookup, Hk.
      destruct (lookup_lt_is_Some_2 emission_times 1 ltac:(lia)) as [y ->].
      by rewrite datetime_sub_NaT_r.
    - exists k. rewrite np_diff_lookup, Hk.
      destruct (lookup_lt_is_Some_2 emission_times k) as [x ->].
      { apply lookup_lt_Some in Hk. lia. }
      by rewrite datetime_sub_NaT_l. }
  destruct Hnan as [j Hj].
  destruct (np_diff emission_times) as [|d ds] eqn:Hdiff;
    [by rewrite lookup_nil in Hj|].
  cbn [map].
  replace (forallb _ _) with false; [done|].
  symmetry. apply not_true_iff_false. intros Hall.
  rewrite forallb_forall in Hall.
  specialize (Hall (timedelta_seconds NaT)).
  rewrite timedelta_seconds_NaT, float_eqb_NaN_l in Hall.
  assert (false = true); [|done]. apply Hall.
  apply (in_map timedelta_seconds (d :: ds) NaT).
  apply list_elem_of_In. by eapply list_elem_of_lookup_2.
Qed.

(** X14.  The conversion to kg/(m*s) of [plotAshInv]: with fewer than two
    timestamps [duration[0]] raises [IndexError]; a NaT among two or more
    timestamps fails the assertion of line 153; two or more valid
    timestamps that are evenly spaced pass it, and the fields are scaled
    by the spacing in seconds, as a float. *)
Theorem plotAshInv_duration_uniform (emission_times : list Z) :
  (length emission_times < 2 ->
   plotAshInv_duration "kg/(m*s)" emission_times = Raises (Core IndexError)) /\
  (forall k, 2 <= length emission_times -> emission_times !! k = Some NaT ->
   plotAshInv_duration "kg/(m*s)" emission_times = Raises AssertionError) /\
  (forall t0 step, 2 <= length emission_times ->
   evenly_spaced emission_times t0 step -> (- 2 ^ 63 < step < 2 ^ 63)%Z ->
   plotAshInv_duration "kg/(m*s)" emission_times
   = Returns (Some (Num (round_binary64
                           (round_binary64 (inject_Z step) / inject_Z second_ns))))).
Proof.
  split; [|split].
  - intros Hlen. by destruct emission_times as [|x [|y l]]; [..|simpl in Hlen; lia].
  - intros k. apply plotAshInv_duration_NaT.
  - intros t0 step. apply plotAshInv_duration_evenly_spaced.
Qed.

Lemma plotAshInv_duration_uniform_witness :
  plotAshInv_duration "kg/(m*s)" three_hourly
  = Returns (Some (Num (round_binary64
                          (round_binary64 (inject_Z 10800000000000)
                           / inject_Z second_ns)))) /\
  (round_binary64 (round_binary64 (inject_Z 10800000000000) / inject_Z second_ns)
   == 10800)%Q.
Proof.
  split; [|reflexivity].
  destruct (plotAshInv_duration_uniform three_hourly) as (_ & _ & Hev).
  apply (Hev 0%Z 10800000000000%Z).
  - simpl. lia.
  - intros k Hk. simpl in Hk.
    destruct k as [|[|[|k]]]; [split; [reflexivity|lia]..|lia].
  - lia.
Defined.

(** ** makePlotFromJson: how the figure is written *)

Lemma rfind_from_spec (c : ascii) (l : list ascii) (i : nat) (found : Z) :
  rfind_from c l i found = found \/
  exists k, rfind_from c l i found = Z.of_nat (i + k) /\ l !! k = Some c.
Proof.
  revert i found. induction l as [|x l IH]; intros i found; simpl; [by left|].
  destruct (IH (S i) (if Ascii.eqb x c then Z.of_nat i else found))
    as [Heq|(k & Heq & Hk)].
  - rewrite Heq. destruct (Ascii.eqb x c) eqn:Hx; [|by left].
    right. exists 0. apply Ascii.eqb_eq in Hx as ->.
    split; [f_equal; lia|done].
  - right. exists (S k). rewrite Heq. split; [f_equal; lia|done].
Qed.

Lemma rfind_spec (c : ascii) (l : list ascii) :
  rfind c l = (-1)%Z \/
  exists k, rfind c l = Z.of_nat k /\ l !! k = Some c.
Proof.
  unfold rfind. destruct (rfind_from_spec c l 0 (-1)) as [?|(k & ? & ?)];
    [by left|right; by exists k].
Qed.

Lemma posix_splitext_ext : ext_empty_or_dotted posix_splitext.
Proof.
  intros p. unfold posix_splitext. cbv zeta.
  set (l := String.list_ascii_of_string p).
  destruct (_ && _) eqn:Hc; [|by left].
  right. apply andb_true_iff in Hc as [Hlt _]. apply Z.ltb_lt in Hlt.
  destruct (rfind_spec "/"%char l) as [Hs|(ks & Hs & _)];
    destruct (rfind_spec "."%char l) as [Hd|(kd & Hd & Hkd)];
    rewrite ?Hs, ?Hd in Hlt; try lia;
    rewrite Hd, Nat2Z.id; cbn [snd];
    rewrite (drop_S _ _ _ Hkd); by eexists.
Qed.

Lemma makePlotFromJson_save_never_saveFig
    (splitext : string -> string * string) (abspath : string -> string)
    (json_filename : string) (outfile : option string) (meta : string) :
  ext_empty_or_dotted splitext ->
  makePlotFromJson_save splitext abspath json_filename outfile meta
  = FigSavefig <$> outfile.
Proof.
  intros Hext. unfold makePlotFromJson_save.
  destruct outfile as [o|]; [|done].
  specialize (Hext (abspath json_filename)).
  destruct (splitext (abspath json_filename)) as [basename ext].
  simpl in Hext. by destruct Hext as [->|[s ->]].
Qed.

(** X15.  Whatever the file names, [makePlotFromJson] never calls
    [saveFig] (the writer that embeds the metadata): an extension returned
    by [os.path.splitext] is empty or begins with a period, so it is never
    equal to ['pdf'], and the figure, if an output file is given, is
    written by [fig.savefig]. *)
Theorem makePlotFromJson_save_plain
    (splitext : string -> string * string) (abspath : string -> string)
    (json_filename : string) (outfile : option string) (meta : string) :
  ext_empty_or_dotted splitext ->
  makePlotFromJson_save splitext abspath json_filename outfile meta
  = FigSavefig <$> outfile.
Proof. apply makePlotFromJson_save_never_saveFig. Qed.

Lemma makePlotFromJson_save_plain_witness :
  makePlotFromJson_save posix_splitext id "/data/inversion.pdf"
    (Some "figure.pdf") "{}"
  = FigSavefig <$> Some "figure.pdf".
Proof.
  apply (makePlotFromJson_save_plain posix_splitext id). exact posix_splitext_ext.
Defined.
